(** * credis: the buffered reply reader of a C client library for Redis

    A shallow embedding of the reply-reading core of [credis.c]
    ([cr_findnl], [cr_receivedata], [cr_senddata], [cr_readln],
    [cr_receivemultibulk], [cr_receivebulk], [cr_receiveinline],
    [cr_receiveint], [cr_receiveerror], [cr_receivereply]) together with the
    properties of the reply protocol that hold, or fail, on that code; and
    of the request layer on top of it ([cr_sendfandreceive] and the
    commands whose arguments are strings and [int]s), with what a command
    returns for the replies of each kind.  Left out: [credis_set],
    [credis_getset], [credis_setnx] and [credis_lrem], which pass a
    [size_t] or a pointer for a [%d]; [credis_type], which needs the
    [CREDIS_TYPE_] values of [credis.h]; and [cr_new], [cr_delete],
    [credis_connect] and [credis_close], which set up and release memory
    and the socket.

    Conventions of the embedding.
    - A [char] is an [ascii]; the receive buffer [buf.data] is the list of the
      bytes of the allocated block, so that stale bytes beyond [buf.len] are
      part of the state.
    - A [char *] into the receive buffer is its offset from [buf.data]
      ([Z], since the code adds a signed [start] to it); [NULL] is [None].
    - C [int]s are [Z]; the only place where the range of [int] matters is
      the result of [atoi], which the C standard leaves undefined when the
      number does not fit.
    - Behaviour that C leaves undefined (a read or write outside the
      allocated block, [atoi] out of range) is the outcome [Crash].
    - The socket is a script of what the kernel will answer to the next
      [select]/[recv] (or [select]/[send]) pairs.  A script that has run out
      means that nothing happens any more: [select] times out. *)

From Stdlib Require Import ZArith Ascii String DecimalString Lia Bool.
From stdpp Require Import base numbers list.

Local Open Scope Z_scope.

(** ** Outcomes *)

(** [Ok a]: the C code returns, or goes on, with [a].  [Crash]: it has run
    into undefined behaviour.  [Unfinished]: a loop of the embedding was
    given too few rounds; [cr_receivemultibulk_finishes] shows that the
    rounds [cr_receivemultibulk] gives its loop are always enough. *)
Inductive res (A : Type) : Type :=
| Ok (a : A)
| Crash
| Unfinished.
Arguments Ok {A} a.
Arguments Crash {A}.
Arguments Unfinished {A}.

#[global] Instance res_ret : MRet res := fun A a => Ok a.
#[global] Instance res_bind : MBind res := fun A B k m =>
  match m with
  | Ok a => k a
  | Crash => Crash
  | Unfinished => Unfinished
  end.

Definition of_option {A : Type} (o : option A) : res A :=
  match o with
  | Some a => Ok a
  | None => Crash
  end.

(** ** Bytes and memory *)

#[global] Instance ascii_eq_dec : EqDecision ascii := ascii_dec.

Definition NUL : ascii := "000"%char.
Definition LF : ascii := "010"%char.
Definition CR : ascii := "013"%char.

Definition CR_ERROR : ascii := "-"%char.
Definition CR_INLINE : ascii := "+"%char.
Definition CR_BULK : ascii := "$"%char.
Definition CR_MULTIBULK : ascii := "*"%char.
Definition CR_INT : ascii := ":"%char.

Definition CR_BUFFER_SIZE : Z := 4096.
Definition CR_MULTIBULK_SIZE : Z := 64.

Definition INT_MIN : Z := - 2147483648.
Definition INT_MAX : Z := 2147483647.

(** [m[p]], undefined outside the block. *)
Definition peek {A : Type} (m : list A) (p : Z) : option A :=
  if decide (0 <= p) then m !! Z.to_nat p else None.

(** [m[p] = c], undefined outside the block. *)
Definition poke {A : Type} (m : list A) (p : Z) (c : A) : option (list A) :=
  if decide (0 <= p < Z.of_nat (length m))
  then Some (<[Z.to_nat p := c]> m) else None.

(** The bytes from [m + p] on; a string function reads them up to the
    first byte it stops at. *)
Definition str_at (m : list ascii) (p : Z) : list ascii :=
  if decide (0 <= p) then drop (Z.to_nat p) m else [].

(** ** [atoi] (libc) *)

Definition isspace (c : ascii) : bool :=
  let n := N_of_ascii c in
  (n =? 32)%N || ((9 <=? n)%N && (n <=? 13)%N).

Definition isdigit (c : ascii) : bool :=
  let n := N_of_ascii c in
  (48 <=? n)%N && (n <=? 57)%N.

Definition digit_val (c : ascii) : Z := Z.of_N (N_of_ascii c) - 48.

Fixpoint skip_space (s : list ascii) : list ascii :=
  match s with
  | c :: s' => if isspace c then skip_space s' else s
  | [] => []
  end.

Fixpoint digits (acc : Z) (s : list ascii) : Z :=
  match s with
  | c :: s' => if isdigit c then digits (10 * acc + digit_val c) s' else acc
  | [] => acc
  end.

(** The number [strtol (s, NULL, 10)] denotes: white space, an optional
    sign, then the longest run of decimal digits; [0] when there is none. *)
Definition strtol_value (s : list ascii) : Z :=
  match skip_space s with
  | c :: s' =>
      if Ascii.eqb c "-" then - digits 0 s'
      else if Ascii.eqb c "+" then digits 0 s'
      else digits 0 (c :: s')
  | [] => 0
  end.

(** [atoi]: its behaviour is undefined when the value is not an [int]. *)
Definition atoi (s : list ascii) : res Z :=
  let v := strtol_value s in
  if decide (INT_MIN <= v <= INT_MAX) then Ok v else Crash.

(** ** The data of [credis.c] *)

(** [char *]: an offset into [buf.data], or [NULL]. *)
Definition ptr : Type := option Z.

Record cr_buffer : Type := Cr_buffer {
  buf_data : list ascii;
  buf_idx : Z;
  buf_len : Z;
  buf_size : Z
}.

(** [bulks] is the allocated array, one element per [char *] it has room
    for; [mb_size] and [mb_len] are the fields [size] and [len]. *)
Record cr_multibulk : Type := Cr_multibulk {
  mb_bulks : list ptr;
  mb_size : Z;
  mb_len : Z
}.

Record cr_reply : Type := Cr_reply {
  reply_integer : Z;
  reply_line : ptr;
  reply_bulk : ptr;
  reply_multibulk : cr_multibulk
}.

(** What the kernel answers to one [select] for reading followed, when the
    socket is readable, by one [recv]. *)
Inductive recv_event : Type :=
| SelectTimeout
| SelectError
| RecvError
| PeerClosed
| Incoming (bs : list ascii).

(** The handle.  [fd] stands for the socket: the script of the answers still
    to come.  The fields [ip], [port] and [error] play no role in the reply
    reader and are left out. *)
Record cr_redis : Type := Cr_redis {
  fd : list recv_event;
  timeout : Z;
  buf : cr_buffer;
  reply : cr_reply
}.

Definition with_fd (rhnd : cr_redis) (s : list recv_event) : cr_redis :=
  Cr_redis s (timeout rhnd) (buf rhnd) (reply rhnd).
Definition with_buf (rhnd : cr_redis) (b : cr_buffer) : cr_redis :=
  Cr_redis (fd rhnd) (timeout rhnd) b (reply rhnd).
Definition with_reply (rhnd : cr_redis) (r : cr_reply) : cr_redis :=
  Cr_redis (fd rhnd) (timeout rhnd) (buf rhnd) r.

(** The constants of [credis.h] that the reply reader returns, and the one
    fact about the platform the code depends on, [sizeof (char * )].  The
    header is not part of the sources at hand: every definition below takes
    these as a parameter. *)
Record credis_h : Type := Credis_h {
  CREDIS_ERR_PROTOCOL : Z;
  CREDIS_ERR_RECV : Z;
  sizeof_ptr : Z
}.

(** ** [cr_findnl] *)

Inductive found : Type :=
| Found (nl : Z)
| NotFound
| OutOfBlock.

(** The body of [while (--len)], run [n] times from [buf]; the first
    component lists the offsets the loop reads, in order. *)
Fixpoint cr_findnl_loop (m : list ascii) (buf : Z) (n : nat)
  : list Z * found :=
  match n with
  | O => ([], NotFound)
  | S n' =>
      match peek m buf with
      | None => ([buf], OutOfBlock)
      | Some c =>
          if Ascii.eqb c CR then
            match peek m (buf + 1) with
            | None => ([buf; buf + 1], OutOfBlock)
            | Some d =>
                if Ascii.eqb d LF then ([buf; buf + 1], Found buf)
                else
                  let '(t, r) := cr_findnl_loop m (buf + 1) n' in
                  (buf :: (buf + 1) :: t, r)
            end
          else
            let '(t, r) := cr_findnl_loop m (buf + 1) n' in
            (buf :: t, r)
      end
  end.

(** [while (--len)] runs [len - 1] times when [len] is positive.  From
    [len <= 0] the counter does not reach [0] before it has gone through
    all negative [int]s: the scan then stops only at a delimiter or outside
    the block, which [length m + 1] rounds are enough to reach. *)
Definition cr_findnl_rounds (m : list ascii) (len : Z) : nat :=
  if decide (0 < len) then Z.to_nat (len - 1) else S (length m).

Definition cr_findnl_trace (m : list ascii) (buf : Z) (len : Z)
  : list Z * found :=
  cr_findnl_loop m buf (cr_findnl_rounds m len).

Definition cr_findnl (m : list ascii) (buf : Z) (len : Z) : found :=
  snd (cr_findnl_trace m buf len).

(** ** [cr_receivedata] *)

(** What [recv] leaves of a script whose first chunk it took [n] bytes
    of. *)
Definition after_recv (n : nat) (bs : list ascii) (fd' : list recv_event)
  : list recv_event :=
  match drop n bs with
  | [] => fd'
  | rest => Incoming rest :: fd'
  end.

(** Returns the value of the C function, the block [buf] after [recv] wrote
    to it, and the socket afterwards.  [recv] delivers at most [size] bytes
    and leaves the rest of a chunk for the next call; [msecs] only decides
    which answer [select] gives, which is the script's business.  The one
    caller passes [buf.size], which [cr_new] sets to [CR_BUFFER_SIZE]: what
    [recv] does with a negative [size] is not modelled. *)
Definition cr_receivedata (fd : list recv_event) (msecs : Z)
    (buf : list ascii) (size : Z) : res (Z * list ascii * list recv_event) :=
  match fd with
  | [] => Ok (-2, buf, [])
  | SelectTimeout :: fd' => Ok (-2, buf, fd')
  | SelectError :: fd' => Ok (-1, buf, fd')
  | RecvError :: fd' => Ok (-1, buf, fd')
  | PeerClosed :: fd' => Ok (0, buf, fd')
  | Incoming bs :: fd' =>
      let n := Nat.min (Z.to_nat size) (length bs) in
      if decide (n <= length buf)%nat then
        Ok (Z.of_nat n, take n bs ++ drop n buf, after_recv n bs fd')
      else Crash
  end.

(** ** [cr_readln] *)

(** The first half of [cr_readln]: refill the buffer when it is empty.
    [Some rc] in the first component is an early [return rc]. *)
Definition cr_readln_fill (rhnd : cr_redis) : res (option Z * cr_redis) :=
  let b := buf rhnd in
  if decide (buf_len b = 0 \/ buf_idx b >= buf_len b) then
    '(rc, data, fd') ← cr_receivedata (fd rhnd) (timeout rhnd)
                          (buf_data b) (buf_size b);
    let rhnd' := Cr_redis fd' (timeout rhnd)
                   (Cr_buffer data 0 0 (buf_size b)) (reply rhnd) in
    if decide (rc > 0) then
      Ok (None, with_buf rhnd' (Cr_buffer data 0 rc (buf_size b)))
    else if decide (rc = 0) then Ok (Some 0, rhnd')
    else Ok (Some (-1), rhnd')
  else Ok (None, rhnd).

(** Returns the value of the C function, the value of [*line] afterwards
    (the one passed in when the function does not assign it) and the handle
    afterwards.  The [printf] of the code is left out. *)
Definition cr_readln (rhnd : cr_redis) (start : Z) (line : ptr)
  : res (Z * ptr * cr_redis) :=
  '(early, rhnd) ← cr_readln_fill rhnd;
  match early with
  | Some rc => Ok (rc, line, rhnd)
  | None =>
      let b := buf rhnd in
      match cr_findnl (buf_data b) (buf_idx b + start)
              (buf_len b - buf_idx b) with
      | OutOfBlock => Crash
      | NotFound => Ok (-1, line, rhnd)
      | Found nl =>
          data ← of_option (poke (buf_data b) nl NUL);
          Ok (nl - buf_idx b, Some (buf_idx b),
              with_buf rhnd (Cr_buffer data (nl + 2) (buf_len b) (buf_size b)))
      end
  end.

(** The offsets of [buf.data] that the scan of one call of [cr_readln]
    reads. *)
Definition cr_readln_reads (rhnd : cr_redis) (start : Z) : list Z :=
  match cr_readln_fill rhnd with
  | Ok (None, rhnd) =>
      let b := buf rhnd in
      fst (cr_findnl_trace (buf_data b) (buf_idx b + start)
             (buf_len b - buf_idx b))
  | _ => []
  end.

(** ** The reply handlers *)

(** [rhnd->buf.len = 0; rhnd->buf.idx = 0;] *)
Definition reset_buffer (rhnd : cr_redis) : cr_redis :=
  let b := buf rhnd in
  with_buf rhnd (Cr_buffer (buf_data b) 0 0 (buf_size b)).

(** [atoi (line)] for a [line] that points into the receive buffer. *)
Definition atoi_at (rhnd : cr_redis) (line : ptr) : res Z :=
  p ← of_option line;
  atoi (str_at (buf_data (buf rhnd)) p).

Definition set_bulks (rhnd : cr_redis) (bulks : list ptr) : cr_redis :=
  let r := reply rhnd in
  let mb := reply_multibulk r in
  with_reply rhnd
    (Cr_reply (reply_integer r) (reply_line r) (reply_bulk r)
       (Cr_multibulk bulks (mb_size mb) (mb_len mb))).

Definition set_mb_len (rhnd : cr_redis) (len : Z) : cr_redis :=
  let r := reply rhnd in
  let mb := reply_multibulk r in
  with_reply rhnd
    (Cr_reply (reply_integer r) (reply_line r) (reply_bulk r)
       (Cr_multibulk (mb_bulks mb) (mb_size mb) len)).

(** [rhnd->reply.multibulk.bulks[i] = line]. *)
Definition store_bulk (rhnd : cr_redis) (i : Z) (line : ptr) : res cr_redis :=
  bulks ← of_option (poke (mb_bulks (reply_multibulk (reply rhnd))) i line);
  Ok (set_bulks rhnd bulks).

(** [realloc (bulks, nsize)]: a block of [nsize] bytes has room for
    [nsize / sizeof (char * )] elements; the old elements that fit are kept
    and the new ones hold no pointer yet.  A failing [realloc] is not
    modelled. *)
Definition realloc_bulks (h : credis_h) (bulks : list ptr) (nsize : Z)
  : list ptr :=
  let n := Z.to_nat (nsize `quot` sizeof_ptr h) in
  take n bulks ++ replicate (n - length bulks)%nat None.

(** How the [for] loop of [cr_receivemultibulk] is left. *)
Inductive mb_exit : Type :=
| MbReturn (rc : Z) (rhnd : cr_redis)
| MbDone (bnum : Z) (i : Z) (rhnd : cr_redis).

(** A bound on the lines [cr_readln] can still read: every line read
    either uses up something of the socket's script or turns one carriage
    return of the buffer into a [NUL]. *)
Definition recv_weight (fd : list recv_event) : nat :=
  sum_list_with
    (fun e => match e with Incoming bs => S (length bs) | _ => 1%nat end) fd.

Definition count_cr (m : list ascii) : nat :=
  length (filter (fun c => c = CR) m).

Definition readln_budget (rhnd : cr_redis) : nat :=
  (recv_weight (fd rhnd) * S (length (buf_data (buf rhnd)))
   + count_cr (buf_data (buf rhnd)))%nat.

Section with_header.
Variable h : credis_h.

(** [for ( ; bnum && cr_readln(rhnd, 0, &line) > 0; bnum--) { ... }] *)
Fixpoint cr_receivemultibulk_loop (rounds : nat) (rhnd : cr_redis)
    (bnum i : Z) (line : ptr) : res mb_exit :=
  match rounds with
  | O => Unfinished
  | S rounds =>
      if decide (bnum = 0) then Ok (MbDone bnum i rhnd) else
      '(rc, line, rhnd) ← cr_readln rhnd 0 line;
      if decide (rc > 0) then
        p ← of_option line;
        c ← of_option (peek (buf_data (buf rhnd)) p);
        let line := Some (p + 1) in
        if negb (Ascii.eqb c CR_BULK)
        then Ok (MbReturn (CREDIS_ERR_PROTOCOL h) rhnd)
        else
          blen ← atoi_at rhnd line;
          if decide (blen = -1) then
            rhnd ← store_bulk rhnd i None;
            if decide (bnum = INT_MIN) then Crash
            else cr_receivemultibulk_loop rounds rhnd (bnum - 1) (i + 1) line
          else
            '(rc, line, rhnd) ← cr_readln rhnd blen line;
            if decide (rc <> blen)
            then Ok (MbReturn (CREDIS_ERR_PROTOCOL h) rhnd)
            else
              rhnd ← store_bulk rhnd i line;
              if decide (bnum = INT_MIN) then Crash
              else cr_receivemultibulk_loop rounds rhnd (bnum - 1) (i + 1) line
      else Ok (MbDone bnum i rhnd)
  end.

(** The rounds the loop is given.  A positive [bnum] is counted down to
    [0]; a negative one is not, and the loop then ends when a line cannot
    be read. *)
Definition cr_receivemultibulk_rounds (rhnd : cr_redis) (bnum : Z) : nat :=
  if decide (0 <= bnum) then S (Z.to_nat bnum) else S (readln_budget rhnd).

Definition cr_receivemultibulk (rhnd : cr_redis) (line : ptr)
  : res (Z * cr_redis) :=
  bnum ← atoi_at rhnd line;
  let mb := reply_multibulk (reply rhnd) in
  let rhnd :=
    if decide (bnum > mb_size mb) then
      let nsize := (bnum `quot` CR_MULTIBULK_SIZE + 1) * CR_MULTIBULK_SIZE in
      set_bulks rhnd (realloc_bulks h (mb_bulks mb) nsize)
    else rhnd in
  e ← cr_receivemultibulk_loop (cr_receivemultibulk_rounds rhnd bnum)
        rhnd bnum 0 line;
  match e with
  | MbReturn rc rhnd => Ok (rc, rhnd)
  | MbDone bnum i rhnd =>
      if decide (bnum <> 0) then Ok (CREDIS_ERR_PROTOCOL h, rhnd)
      else Ok (0, set_mb_len rhnd i)
  end.

Definition cr_receivebulk (rhnd : cr_redis) (line : ptr)
  : res (Z * cr_redis) :=
  _ ← of_option line;
  blen ← atoi_at rhnd line;
  '(rc, line, rhnd) ← cr_readln rhnd blen line;
  if decide (rc >= 0) then
    let r := reply rhnd in
    Ok (0, with_reply rhnd
             (Cr_reply (reply_integer r) (reply_line r) line
                (reply_multibulk r)))
  else Ok (CREDIS_ERR_PROTOCOL h, rhnd).

Definition cr_receiveinline (rhnd : cr_redis) (line : ptr)
  : res (Z * cr_redis) :=
  let r := reply rhnd in
  Ok (0, with_reply rhnd
           (Cr_reply (reply_integer r) line (reply_bulk r)
              (reply_multibulk r))).

Definition cr_receiveint (rhnd : cr_redis) (line : ptr)
  : res (Z * cr_redis) :=
  _ ← of_option line;
  n ← atoi_at rhnd line;
  let r := reply rhnd in
  Ok (0, with_reply rhnd
           (Cr_reply n (reply_line r) (reply_bulk r) (reply_multibulk r))).

Definition cr_receiveerror (rhnd : cr_redis) (line : ptr)
  : res (Z * cr_redis) :=
  let r := reply rhnd in
  Ok (CREDIS_ERR_PROTOCOL h,
      with_reply rhnd
        (Cr_reply (reply_integer r) line (reply_bulk r) (reply_multibulk r))).

(** [line] is not initialised when [cr_readln] is called: [None]. *)
Definition cr_receivereply (rhnd : cr_redis) (recvtype : ascii)
  : res (Z * cr_redis) :=
  let rhnd := reset_buffer rhnd in
  '(rc, line, rhnd) ← cr_readln rhnd 0 None;
  if decide (rc > 0) then
    p ← of_option line;
    prefix ← of_option (peek (buf_data (buf rhnd)) p);
    let line := Some (p + 1) in
    if negb (Ascii.eqb prefix recvtype) && negb (Ascii.eqb prefix CR_ERROR)
    then Ok (CREDIS_ERR_PROTOCOL h, rhnd)
    else if Ascii.eqb prefix CR_ERROR then cr_receiveerror rhnd line
    else if Ascii.eqb prefix CR_INLINE then cr_receiveinline rhnd line
    else if Ascii.eqb prefix CR_INT then cr_receiveint rhnd line
    else if Ascii.eqb prefix CR_BULK then cr_receivebulk rhnd line
    else if Ascii.eqb prefix CR_MULTIBULK then cr_receivemultibulk rhnd line
    else Ok (CREDIS_ERR_RECV h, rhnd)
  else Ok (CREDIS_ERR_RECV h, rhnd).

End with_header.

(** ** [cr_senddata] *)

(** What the kernel answers to one [select] for writing followed, when the
    socket is writable, by one [send]: [Accepts n] is a socket that takes up
    to [n] bytes. *)
Inductive send_event : Type :=
| WriteTimeout
| WriteSelectError
| SendError
| Accepts (n : nat).

(** [while (sent < size) { ... }]; the second component is what is left of
    the script. *)
Fixpoint cr_senddata_loop (fd : list send_event) (size sent : Z)
  : Z * list send_event :=
  if decide (sent < size) then
    match fd with
    | [] => (sent, [])
    | WriteTimeout :: fd' => (sent, fd')
    | WriteSelectError :: fd' => (-1, fd')
    | SendError :: fd' => (-1, fd')
    | Accepts n :: fd' =>
        cr_senddata_loop fd' size (sent + Z.min (Z.of_nat n) (size - sent))
    end
  else (sent, fd).

(** The bytes of [buf] and the value of [msecs] have no part in the value
    returned: they are left out. *)
Definition cr_senddata (fd : list send_event) (size : Z)
  : Z * list send_event :=
  cr_senddata_loop fd size 0.

(** ** Reference notions the properties are stated with *)

(** The offset of the first carriage return that a line feed follows. *)
Fixpoint find_crlf (s : list ascii) : option nat :=
  match s with
  | c :: s' =>
      match s' with
      | d :: _ =>
          if Ascii.eqb c CR && Ascii.eqb d LF then Some O
          else S <$> find_crlf s'
      | [] => None
      end
  | [] => None
  end.

(** The bytes one [recv] into the receive buffer of [rhnd] takes of the
    chunk [bs]. *)
Definition delivered (rhnd : cr_redis) (bs : list ascii) : list ascii :=
  take (Z.to_nat (buf_size (buf rhnd))) bs.

(** The first line of a chunk: the bytes before its first delimiter. *)
Definition first_line (s : list ascii) : option (list ascii) :=
  k ← find_crlf s; Some (take k s).

(** The handle once [cr_receivereply] has read, as its first line, the
    [k] bytes before the first delimiter of the chunk [bs]. *)
Definition after_first_line (rhnd : cr_redis) (bs : list ascii)
    (fd' : list recv_event) (k : nat) : cr_redis :=
  let b := buf rhnd in
  let chunk := delivered rhnd bs in
  let n := length chunk in
  Cr_redis (after_recv n bs fd') (timeout rhnd)
    (Cr_buffer (<[k := NUL]> (chunk ++ drop n (buf_data b)))
       (Z.of_nat k + 2) (Z.of_nat n) (buf_size b))
    (reply rhnd).

(** The value a handler returns, when it returns. *)
Definition rc_of (r : res (Z * cr_redis)) : option Z :=
  match r with
  | Ok (rc, _) => Some rc
  | _ => None
  end.

(** The buffer holds the text [s] at [line], zero-terminated. *)
Definition holds_text (rhnd : cr_redis) (line : ptr) (s : list ascii) : Prop :=
  exists p : Z,
    line = Some p /\
    take (length s) (str_at (buf_data (buf rhnd)) p) = s /\
    peek (buf_data (buf rhnd)) (p + Z.of_nat (length s)) = Some NUL.

(** ** Sample handles *)

(** One possible [credis.h], on a platform with 8-byte pointers. *)
Definition sample_h : credis_h := Credis_h (-97) (-95) 8.

Definition bytes (s : String.string) : list ascii :=
  String.list_ascii_of_string s.

Definition CRLF : list ascii := [CR; LF].

(** The handle [cr_new] returns, its two [malloc]ed blocks taken to hold
    zeroes. *)
Definition cr_new : cr_redis :=
  Cr_redis [] 0
    (Cr_buffer (replicate (Z.to_nat CR_BUFFER_SIZE) NUL) 0 0 CR_BUFFER_SIZE)
    (Cr_reply 0 None None
       (Cr_multibulk (replicate (Z.to_nat CR_MULTIBULK_SIZE) None)
          CR_MULTIBULK_SIZE 0)).

(** What [cr_sendfandreceive] leaves in the handle before it calls
    [cr_receivereply]: [vsnprintf] has written the request [msg] and a [NUL]
    to the buffer, which the replies are received into as well, and
    [buf.len] is the length of [msg]. *)
Definition after_send (rhnd : cr_redis) (msg : list ascii) : cr_redis :=
  let b := buf rhnd in
  with_buf rhnd
    (Cr_buffer (msg ++ NUL :: drop (S (length msg)) (buf_data b))
       (buf_idx b) (Z.of_nat (length msg)) (buf_size b)).

(** A connection on which the request [msg] has been sent and whose socket
    will answer with the script [fd]. *)
Definition awaiting (msg : String.string) (fd : list recv_event) : cr_redis :=
  after_send (with_fd cr_new fd) (bytes msg ++ CRLF).

(** ** What happens on the socket while [cr_senddata] runs *)

Definition accepts (ns : list nat) : list send_event := Accepts <$> ns.

Definition total (ns : list nat) : Z := Z.of_nat (sum_list ns).

(** The socket took fewer than [size] bytes and then was not writable
    before the deadline. *)
Definition deadline_elapsed (fd : list send_event) (size : Z) : Prop :=
  exists ns rest,
    (fd = accepts ns \/ fd = accepts ns ++ WriteTimeout :: rest) /\
    total ns < size.

(** The socket took fewer than [size] bytes and then [select] or [send]
    failed. *)
Definition socket_failed (fd : list send_event) (size : Z) : Prop :=
  exists ns e rest,
    fd = accepts ns ++ e :: rest /\
    (e = WriteSelectError \/ e = SendError) /\
    total ns < size.

(** The socket had room for [size] bytes before anything else happened. *)
Definition all_sent (fd : list send_event) (size : Z) : Prop :=
  exists ns rest, fd = accepts ns ++ rest /\ size <= total ns.

(** ** Bulk replies on the wire *)

(** A bulk reply as the server writes it: the text of its length line
    after the [$], and its payload, if it has one. *)
Record wire_bulk : Type := Wire_bulk {
  wb_length : list ascii;
  wb_payload : option (list ascii)
}.

(** The length line holds no carriage return, and denotes [-1] for a
    reply without payload and the length of the payload otherwise. *)
Definition wire_bulk_ok (e : wire_bulk) : Prop :=
  (CR ∉ wb_length e) /\
  match wb_payload e with
  | None => strtol_value (wb_length e) = -1
  | Some p =>
      strtol_value (wb_length e) = Z.of_nat (length p) /\
      Z.of_nat (length p) <= INT_MAX
  end.

Definition on_wire (e : wire_bulk) : list ascii :=
  CR_BULK :: wb_length e ++ CR :: LF ::
  match wb_payload e with
  | Some p => p ++ [CR; LF]
  | None => []
  end.

(** The same bytes once [cr_readln] has put a [NUL] at the end of each
    line. *)
Definition as_read (e : wire_bulk) : list ascii :=
  CR_BULK :: wb_length e ++ NUL :: LF ::
  match wb_payload e with
  | Some p => p ++ [NUL; LF]
  | None => []
  end.

(** Where the payload of a reply that starts at offset [base] of the
    buffer lies. *)
Definition entry_ptr (base : nat) (e : wire_bulk) : ptr :=
  match wb_payload e with
  | Some _ => Some (Z.of_nat (base + length (wb_length e) + 3))
  | None => None
  end.

Fixpoint entry_ptrs (base : nat) (es : list wire_bulk) : list ptr :=
  match es with
  | [] => []
  | e :: es => entry_ptr base e :: entry_ptrs (base + length (on_wire e)) es
  end.

(** ** Requests: [vsnprintf] (libc), [cr_sendfandreceive] and the commands *)

(** An argument of [vsnprintf]: a string for [%s], without its [NUL], or
    an [int] for [%d]. *)
Inductive fmt_arg : Type :=
| ArgStr (s : list ascii)
| ArgInt (n : Z).

(** What [%d] prints. *)
Definition itoa (n : Z) : list ascii :=
  list_ascii_of_string (NilZero.string_of_int (Z.to_int n)).

(** The characters [printf] produces for a format that uses the
    conversions [%s] and [%d], the only ones of [credis.c]; an argument that
    is missing or of the other kind is undefined behaviour, [None]. *)
Fixpoint printf_output (format : list ascii) (args : list fmt_arg)
  : option (list ascii) :=
  match format with
  | [] => Some []
  | c :: format' =>
      if Ascii.eqb c "%" then
        match format' with
        | d :: format'' =>
            if Ascii.eqb d "s" then
              match args with
              | ArgStr s :: args' => (s ++.) <$> printf_output format'' args'
              | _ => None
              end
            else if Ascii.eqb d "d" then
              match args with
              | ArgInt n :: args' =>
                  (itoa n ++.) <$> printf_output format'' args'
              | _ => None
              end
            else None
        | [] => None
        end
      else (c ::.) <$> printf_output format' args
  end.

(** [vsnprintf (str, size, format, ap)]: the length of the whole output,
    and [str] with as much of the output as fits in [size - 1] bytes and a
    [NUL] after it.  [size] is [buf.size], which is positive.  The
    length is given as it is also when it is above [INT_MAX], where
    [vsnprintf] returns a negative value instead: [cr_sendfandreceive],
    the one caller, returns [-1] on both. *)
Definition vsnprintf (str : list ascii) (size : Z) (format : list ascii)
    (args : list fmt_arg) : res (Z * list ascii) :=
  s ← of_option (printf_output format args);
  if decide (size <= 0) then Ok (Z.of_nat (length s), str)
  else
    let k := Nat.min (length s) (Z.to_nat (size - 1)) in
    if decide (k < length str)%nat
    then Ok (Z.of_nat (length s), take k s ++ NUL :: drop (S k) str)
    else Crash.

(** The values of [credis.h] that [cr_sendfandreceive] returns, a
    parameter like [credis_h]. *)
Record credis_h_send : Type := Credis_h_send {
  CREDIS_ERR_SEND : Z;
  CREDIS_ERR_TIMEOUT : Z
}.

(** The handle together with the write side of its socket: the script of
    the answers to the [select]/[send] pairs still to come. *)
Record connection : Type := Connection {
  handle : cr_redis;
  outgoing : list send_event
}.

Section commands.
Variable h : credis_h.
Variable hs : credis_h_send.

Definition cr_sendfandreceive (c : connection) (recvtype : ascii)
    (format : list ascii) (args : list fmt_arg) : res (Z * connection) :=
  let rhnd := handle c in
  let b := buf rhnd in
  '(len, data) ← vsnprintf (buf_data b) (buf_size b) format args;
  let rhnd := with_buf rhnd (Cr_buffer data (buf_idx b) len (buf_size b)) in
  if decide (len < 0) then Ok (-1, Connection rhnd (outgoing c))
  else if decide (len >= buf_size b)
  then Ok (-1, Connection rhnd (outgoing c))
  else
    let '(rc, out) := cr_senddata (outgoing c) len in
    if decide (rc <> len) then
      if decide (rc < 0) then Ok (CREDIS_ERR_SEND hs, Connection rhnd out)
      else Ok (CREDIS_ERR_TIMEOUT hs, Connection rhnd out)
    else
      '(rc, rhnd) ← cr_receivereply h rhnd recvtype;
      Ok (rc, Connection rhnd out).

(** [if (rc == 0) if (rhnd->reply.integer == 0) rc = -1;] *)
Definition minus_one_if_zero (r : res (Z * connection))
  : res (Z * connection) :=
  '(rc, c) ← r;
  if decide (rc = 0) then
    if decide (reply_integer (reply (handle c)) = 0) then Ok (-1, c)
    else Ok (rc, c)
  else Ok (rc, c).

(** [if (rc == 0) rc = rhnd->reply.integer;] *)
Definition integer_if_zero (r : res (Z * connection))
  : res (Z * connection) :=
  '(rc, c) ← r;
  if decide (rc = 0) then Ok (reply_integer (reply (handle c)), c)
  else Ok (rc, c).

(** [if (rc == 0) *val = rhnd->reply.bulk;]: the second component is [*val]
    afterwards. *)
Definition bulk_if_zero (val : ptr) (r : res (Z * connection))
  : res (Z * ptr * connection) :=
  '(rc, c) ← r;
  Ok (rc, if decide (rc = 0) then reply_bulk (reply (handle c)) else val, c).

(** [if (rc == 0) { *valv = rhnd->reply.multibulk.bulks;
    rc = rhnd->reply.multibulk.len; }]: the second component is the array
    [*valv] points to afterwards. *)
Definition multibulk_if_zero (valv : list ptr) (r : res (Z * connection))
  : res (Z * list ptr * connection) :=
  '(rc, c) ← r;
  let mb := reply_multibulk (reply (handle c)) in
  if decide (rc = 0) then Ok (mb_len mb, mb_bulks mb, c)
  else Ok (rc, valv, c).

Definition credis_get (c : connection) (key : list ascii) (val : ptr)
  : res (Z * ptr * connection) :=
  bulk_if_zero val
    (cr_sendfandreceive c CR_BULK (bytes "GET %s" ++ CRLF) [ArgStr key]).

Definition credis_ping (c : connection) : res (Z * connection) :=
  cr_sendfandreceive c CR_INLINE (bytes "PING" ++ CRLF) [].

Definition credis_auth (c : connection) (password : list ascii)
  : res (Z * connection) :=
  cr_sendfandreceive c CR_INLINE (bytes "PING %s" ++ CRLF) [ArgStr password].

(** The body of [credis_mget] is a comment. *)
Definition credis_mget (c : connection) (keyc : Z) (keyv : list (list ascii))
    (valv : list ptr) : res (Z * list ptr * connection) :=
  Ok (0, valv, c).

(** [new_val] is [None] for a [NULL] pointer and the [int] it points to
    otherwise.  When neither test holds, [rc] is returned without having
    been assigned. *)
Definition cr_incr (c : connection) (incr decr : Z) (key : list ascii)
    (new_val : option Z) : res (Z * option Z * connection) :=
  '(rc, c) ←
    (if decide (incr = 1 \/ decr = 1) then
       cr_sendfandreceive c CR_INT (bytes "%s %s" ++ CRLF)
         [ArgStr (if decide (incr > 0) then bytes "INCR" else bytes "DECR");
          ArgStr key]
     else if decide (incr > 1 \/ decr > 1) then
       cr_sendfandreceive c CR_INT (bytes "%s %s %d" ++ CRLF)
         [ArgStr (if decide (incr > 0) then bytes "INCRBY"
                  else bytes "DECRBY");
          ArgStr key;
          ArgInt (if decide (incr > 0) then incr else decr)]
     else Crash);
  Ok (rc,
      match new_val with
      | Some v =>
          Some (if decide (rc = 0) then reply_integer (reply (handle c))
                else v)
      | None => None
      end, c).

Definition credis_incr (c : connection) (key : list ascii)
    (new_val : option Z) : res (Z * option Z * connection) :=
  cr_incr c 1 0 key new_val.

Definition credis_decr (c : connection) (key : list ascii)
    (new_val : option Z) : res (Z * option Z * connection) :=
  cr_incr c 0 1 key new_val.

Definition credis_incrby (c : connection) (key : list ascii) (incr_val : Z)
    (new_val : option Z) : res (Z * option Z * connection) :=
  cr_incr c incr_val 0 key new_val.

Definition credis_decrby (c : connection) (key : list ascii) (decr_val : Z)
    (new_val : option Z) : res (Z * option Z * connection) :=
  cr_incr c 0 decr_val key new_val.

Definition credis_exists (c : connection) (key : list ascii)
  : res (Z * connection) :=
  minus_one_if_zero
    (cr_sendfandreceive c CR_INT (bytes "EXISTS %s" ++ CRLF) [ArgStr key]).

Definition credis_del (c : connection) (key : list ascii)
  : res (Z * connection) :=
  minus_one_if_zero
    (cr_sendfandreceive c CR_INT (bytes "DELETE %s" ++ CRLF) [ArgStr key]).

Definition credis_keys (c : connection) (pattern : list ascii)
    (keyv : list ptr) : res (Z * list ptr * connection) :=
  multibulk_if_zero keyv
    (cr_sendfandreceive c CR_MULTIBULK (bytes "KEYS %s" ++ CRLF)
       [ArgStr pattern]).

(** [if (rc == 0) *key = rhnd->reply.line;] *)
Definition credis_randomkey (c : connection) (key : ptr)
  : res (Z * ptr * connection) :=
  '(rc, c) ← cr_sendfandreceive c CR_INLINE (bytes "RANDOMKEY" ++ CRLF) [];
  Ok (rc, if decide (rc = 0) then reply_line (reply (handle c)) else key, c).

Definition credis_rename (c : connection) (key new_key_name : list ascii)
  : res (Z * connection) :=
  cr_sendfandreceive c CR_INLINE (bytes "RENAME %s %s" ++ CRLF)
    [ArgStr key; ArgStr new_key_name].

Definition credis_renamenx (c : connection) (key new_key_name : list ascii)
  : res (Z * connection) :=
  minus_one_if_zero
    (cr_sendfandreceive c CR_INT (bytes "RENAMENX %s %s" ++ CRLF)
       [ArgStr key; ArgStr new_key_name]).

Definition credis_dbsize (c : connection) : res (Z * connection) :=
  integer_if_zero (cr_sendfandreceive c CR_INT (bytes "DBSIZE" ++ CRLF) []).

Definition credis_expire (c : connection) (key : list ascii) (secs : Z)
  : res (Z * connection) :=
  minus_one_if_zero
    (cr_sendfandreceive c CR_INT (bytes "EXPIRE %s %d" ++ CRLF)
       [ArgStr key; ArgInt secs]).

Definition credis_ttl (c : connection) (key : list ascii)
  : res (Z * connection) :=
  integer_if_zero
    (cr_sendfandreceive c CR_INT (bytes "TTL %s" ++ CRLF) [ArgStr key]).

Definition cr_push (c : connection) (left : Z) (key val : list ascii)
  : res (Z * connection) :=
  integer_if_zero
    (cr_sendfandreceive c CR_INT (bytes "%s %s %s" ++ CRLF)
       [ArgStr (if decide (left = 1) then bytes "LPUSH" else bytes "RPUSH");
        ArgStr key; ArgStr val]).

Definition credis_rpush (c : connection) (key val : list ascii)
  : res (Z * connection) :=
  cr_push c 0 key val.

Definition credis_lpush (c : connection) (key val : list ascii)
  : res (Z * connection) :=
  cr_push c 1 key val.

Definition credis_llen (c : connection) (key : list ascii)
  : res (Z * connection) :=
  integer_if_zero
    (cr_sendfandreceive c CR_INT (bytes "LLEN %s" ++ CRLF) [ArgStr key]).

Definition credis_lrange (c : connection) (key : list ascii) (start end_ : Z)
    (valv : list ptr) : res (Z * list ptr * connection) :=
  multibulk_if_zero valv
    (cr_sendfandreceive c CR_MULTIBULK (bytes "LRANGE %s %d %d" ++ CRLF)
       [ArgStr key; ArgInt start; ArgInt end_]).

Definition credis_lindex (c : connection) (key : list ascii) (index : Z)
    (val : ptr) : res (Z * ptr * connection) :=
  bulk_if_zero val
    (cr_sendfandreceive c CR_BULK (bytes "LINDEX %s %d" ++ CRLF)
       [ArgStr key; ArgInt index]).

Definition credis_lset (c : connection) (key : list ascii) (index : Z)
    (val : list ascii) : res (Z * connection) :=
  cr_sendfandreceive c CR_INT (bytes "LSET %s %d %s" ++ CRLF)
    [ArgStr key; ArgInt index; ArgStr val].

Definition cr_pop (c : connection) (left : Z) (key : list ascii) (val : ptr)
  : res (Z * ptr * connection) :=
  bulk_if_zero val
    (cr_sendfandreceive c CR_BULK (bytes "%s %s" ++ CRLF)
       [ArgStr (if decide (left = 1) then bytes "LPOP" else bytes "RPOP");
        ArgStr key]).

Definition credis_lpop (c : connection) (key : list ascii) (val : ptr)
  : res (Z * ptr * connection) :=
  cr_pop c 1 key val.

Definition credis_rpop (c : connection) (key : list ascii) (val : ptr)
  : res (Z * ptr * connection) :=
  cr_pop c 0 key val.

Definition credis_select (c : connection) (index : Z)
  : res (Z * connection) :=
  cr_sendfandreceive c CR_INLINE (bytes "SELECT %d" ++ CRLF) [ArgInt index].

Definition credis_move (c : connection) (key : list ascii) (index : Z)
  : res (Z * connection) :=
  minus_one_if_zero
    (cr_sendfandreceive c CR_INT (bytes "MOVE %s %d" ++ CRLF)
       [ArgStr key; ArgInt index]).

Definition credis_flushdb (c : connection) : res (Z * connection) :=
  cr_sendfandreceive c CR_INLINE (bytes "FLUSHDB" ++ CRLF) [].

Definition credis_flushall (c : connection) : res (Z * connection) :=
  cr_sendfandreceive c CR_INLINE (bytes "FLUSHALL" ++ CRLF) [].

Definition credis_sort (c : connection) (query : list ascii)
    (elementv : list ptr) : res (Z * list ptr * connection) :=
  multibulk_if_zero elementv
    (cr_sendfandreceive c CR_MULTIBULK (bytes "SORT %s" ++ CRLF)
       [ArgStr query]).

Definition credis_save (c : connection) : res (Z * connection) :=
  cr_sendfandreceive c CR_INLINE (bytes "SAVE" ++ CRLF) [].

Definition credis_bgsave (c : connection) : res (Z * connection) :=
  cr_sendfandreceive c CR_INLINE (bytes "BGSAVE" ++ CRLF) [].

Definition credis_lastsave (c : connection) : res (Z * connection) :=
  integer_if_zero
    (cr_sendfandreceive c CR_INT (bytes "LASTSAVE" ++ CRLF) []).

Definition credis_shutdown (c : connection) : res (Z * connection) :=
  cr_sendfandreceive c CR_INLINE (bytes "SHUTDOWN" ++ CRLF) [].

Definition credis_info (c : connection) (info : ptr)
  : res (Z * ptr * connection) :=
  bulk_if_zero info
    (cr_sendfandreceive c CR_BULK (bytes "INFO" ++ CRLF) []).

Definition credis_monitor (c : connection) : res (Z * connection) :=
  cr_sendfandreceive c CR_INLINE (bytes "MONITOR" ++ CRLF) [].

(** [host] is [None] for a [NULL] pointer. *)
Definition credis_slaveof (c : connection) (host : option (list ascii))
    (port : Z) : res (Z * connection) :=
  match host with
  | Some name =>
      if decide (port = 0)
      then cr_sendfandreceive c CR_INLINE (bytes "SLAVEOF no one" ++ CRLF) []
      else cr_sendfandreceive c CR_INLINE (bytes "SLAVEOF %s %d" ++ CRLF)
             [ArgStr name; ArgInt port]
  | None => cr_sendfandreceive c CR_INLINE (bytes "SLAVEOF no one" ++ CRLF) []
  end.

End commands.

(** One possible set of values for [credis_h_send]. *)
Definition sample_hs : credis_h_send := Credis_h_send (-94) (-96).

(** A connection on which nothing has been sent yet, whose socket takes
    what is written according to [out] and answers with the script [fd]. *)
Definition connected (out : list send_event) (fd : list recv_event)
  : connection :=
  Connection (with_fd cr_new fd) out.

(** The block of the receive buffer and the fields that describe it. *)
Definition same_block (rhnd rhnd' : cr_redis) : Prop :=
  length (buf_data (buf rhnd')) = length (buf_data (buf rhnd)) /\
  buf_size (buf rhnd') = buf_size (buf rhnd) /\
  timeout rhnd' = timeout rhnd.

(** The request [msg] fits the buffer of the connection, and the socket
    takes all of it. *)
Definition request_goes_out (c : connection) (msg : list ascii) : Prop :=
  let b := buf (handle c) in
  Z.of_nat (length msg) < buf_size b /\
  buf_size b <= Z.of_nat (length (buf_data b)) /\
  all_sent (outgoing c) (Z.of_nat (length msg)).

(** The same connection with a server that does not answer: nothing
    arrives on the socket any more. *)
Definition unanswered (c : connection) : connection :=
  Connection (with_fd (handle c) []) (outgoing c).

(** * Properties *)

(** ** Memory *)

Lemma peek_nat {A : Type} (m : list A) (i : nat) :
  peek m (Z.of_nat i) = m !! i.
Proof.
  unfold peek. destruct (decide (0 <= Z.of_nat i)); [|lia].
  by rewrite Nat2Z.id.
Qed.

Lemma peek_Some {A : Type} (m : list A) (p : Z) (c : A) :
  peek m p = Some c -> 0 <= p < Z.of_nat (length m).
Proof.
  unfold peek. destruct (decide (0 <= p)); [|done].
  intros H%lookup_lt_Some. lia.
Qed.

Lemma poke_nat {A : Type} (m : list A) (i : nat) (c : A) :
  (i < length m)%nat -> poke m (Z.of_nat i) c = Some (<[i := c]> m).
Proof.
  intros Hi. unfold poke.
  destruct (decide (0 <= Z.of_nat i < Z.of_nat (length m))); [|lia].
  by rewrite Nat2Z.id.
Qed.

Lemma str_at_nat (m : list ascii) (i : nat) : str_at m (Z.of_nat i) = drop i m.
Proof.
  unfold str_at. destruct (decide (0 <= Z.of_nat i)); [|lia].
  by rewrite Nat2Z.id.
Qed.

(** ** [cr_findnl] finds the first delimiter of its window *)

Lemma find_crlf_cons (c d : ascii) (s : list ascii) :
  find_crlf (c :: d :: s) =
  if Ascii.eqb c CR && Ascii.eqb d LF then Some O
  else S <$> find_crlf (d :: s).
Proof. reflexivity. Qed.

Lemma find_crlf_bound (s : list ascii) (k : nat) :
  find_crlf s = Some k -> (S k < length s)%nat.
Proof.
  revert k. induction s as [|c s IH]; intros k; [done|].
  destruct s as [|d s']; [done|].
  rewrite find_crlf_cons. destruct (Ascii.eqb c CR && Ascii.eqb d LF).
  - intros [= <-]. cbn. lia.
  - destruct (find_crlf (d :: s')) as [j|] eqn:Hj; [|done].
    intros [= <-]. specialize (IH j eq_refl). cbn in *. lia.
Qed.

Lemma find_crlf_at (s : list ascii) (k : nat) :
  find_crlf s = Some k -> s !! k = Some CR /\ s !! S k = Some LF.
Proof.
  revert k. induction s as [|c s IH]; intros k; [done|].
  destruct s as [|d s']; [done|].
  rewrite find_crlf_cons.
  destruct (Ascii.eqb c CR) eqn:Hc, (Ascii.eqb d LF) eqn:Hd; cbn [andb].
  1: { intros [= <-]. apply Ascii.eqb_eq in Hc, Hd. by subst. }
  all: destruct (find_crlf (d :: s')) as [j|] eqn:Hj; [|done];
    intros [= <-]; exact (IH j eq_refl).
Qed.

Lemma find_crlf_first (s : list ascii) (k j : nat) :
  find_crlf s = Some k -> (j < k)%nat ->
  ~ (s !! j = Some CR /\ s !! S j = Some LF).
Proof.
  revert k j. induction s as [|c s IH]; intros k j; [done|].
  destruct s as [|d s']; [done|].
  rewrite find_crlf_cons.
  destruct (Ascii.eqb c CR && Ascii.eqb d LF) eqn:Hcd.
  { intros [= <-]. lia. }
  destruct (find_crlf (d :: s')) as [k'|] eqn:Hk'; [|done].
  intros [= <-] Hj [Hc Hd]. destruct j as [|j].
  - cbn in Hc, Hd. injection Hc as ->. injection Hd as ->. done.
  - apply (IH k' j eq_refl); [lia|done].
Qed.

Lemma find_crlf_None (s : list ascii) (j : nat) :
  find_crlf s = None -> ~ (s !! j = Some CR /\ s !! S j = Some LF).
Proof.
  revert j. induction s as [|c s IH]; intros j; [by intros _ [? _]|].
  destruct s as [|d s'].
  { intros _ [_ Hd]. done. }
  rewrite find_crlf_cons.
  destruct (Ascii.eqb c CR && Ascii.eqb d LF) eqn:Hcd; [done|].
  destruct (find_crlf (d :: s')) as [k'|] eqn:Hk'; [done|].
  intros _ [Hc Hd]. destruct j as [|j].
  - cbn in Hc, Hd. injection Hc as ->. injection Hd as ->. done.
  - by apply (IH j eq_refl).
Qed.

Lemma cr_findnl_loop_window (n : nat) (m : list ascii) (i : nat) :
  (i + n < length m)%nat ->
  snd (cr_findnl_loop m (Z.of_nat i) n) =
  match find_crlf (take (S n) (drop i m)) with
  | Some k => Found (Z.of_nat (i + k))
  | None => NotFound
  end.
Proof.
  revert i. induction n as [|n IH]; intros i Hi.
  - destruct (lookup_lt_is_Some_2 m i) as [c Hc]; [lia|].
    by rewrite (drop_S _ _ _ Hc).
  - destruct (lookup_lt_is_Some_2 m i) as [c Hc]; [lia|].
    destruct (lookup_lt_is_Some_2 m (S i)) as [d Hd]; [lia|].
    rewrite (drop_S _ _ _ Hc). rewrite firstn_cons.
    specialize (IH (S i) ltac:(lia)).
    rewrite (drop_S _ _ _ Hd) in IH |- *. rewrite firstn_cons in IH |- *.
    rewrite find_crlf_cons. cbn [cr_findnl_loop].
    rewrite peek_nat, Hc.
    replace (Z.of_nat i + 1) with (Z.of_nat (S i)) by lia.
    rewrite peek_nat, Hd.
    destruct (Ascii.eqb c CR) eqn:Ec; cbn [andb].
    + destruct (Ascii.eqb d LF) eqn:Ed.
      * cbn. by rewrite Nat.add_0_r.
      * destruct (cr_findnl_loop m (Z.of_nat (S i)) n) as [t r].
        cbn [snd] in *. rewrite IH.
        destruct (find_crlf _) as [k|]; cbn; [|done].
        f_equal. lia.
    + destruct (cr_findnl_loop m (Z.of_nat (S i)) n) as [t r].
      cbn [snd] in *. rewrite IH.
      destruct (find_crlf _) as [k|]; cbn; [|done].
      f_equal. lia.
Qed.

Lemma cr_findnl_window (m : list ascii) (p len : Z) :
  0 <= p -> 0 < len -> p + len <= Z.of_nat (length m) ->
  cr_findnl m p len =
  match find_crlf (take (Z.to_nat len) (drop (Z.to_nat p) m)) with
  | Some k => Found (p + Z.of_nat k)
  | None => NotFound
  end.
Proof.
  intros Hp Hlen Hin. unfold cr_findnl, cr_findnl_trace, cr_findnl_rounds.
  destruct (decide (0 < len)); [|lia].
  rewrite <- (Z2Nat.id p) at 1 by lia.
  rewrite cr_findnl_loop_window by lia.
  replace (S (Z.to_nat (len - 1))) with (Z.to_nat len) by lia.
  destruct (find_crlf _) as [k|]; [|done]. f_equal. lia.
Qed.

(** Every offset the loop reads lies in the [n + 1] bytes from [buf]. *)
Local Ltac elem_cases H :=
  repeat (apply elem_of_cons in H as [->|H]); [lia..|].

Lemma cr_findnl_loop_reads (n : nat) (m : list ascii) (p z : Z) :
  z ∈ fst (cr_findnl_loop m p n) -> p <= z <= p + Z.of_nat n.
Proof.
  revert p. induction n as [|n IH]; intros p; cbn [cr_findnl_loop].
  - cbn. by intros ?%elem_of_nil.
  - destruct (peek m p) as [c|];
      [|cbn; intros Hz; elem_cases Hz; by apply elem_of_nil in Hz].
    destruct (Ascii.eqb c CR).
    + destruct (peek m (p + 1)) as [d|];
        [|cbn; intros Hz; elem_cases Hz; by apply elem_of_nil in Hz].
      destruct (Ascii.eqb d LF);
        [cbn; intros Hz; elem_cases Hz; by apply elem_of_nil in Hz|].
      specialize (IH (p + 1)).
      destruct (cr_findnl_loop m (p + 1) n) as [t r]. cbn [fst] in *.
      intros [->|[->|Hz]%elem_of_cons]%elem_of_cons; [lia..|].
      specialize (IH Hz). lia.
    + specialize (IH (p + 1)).
      destruct (cr_findnl_loop m (p + 1) n) as [t r]. cbn [fst] in *.
      intros [->|Hz]%elem_of_cons; [lia|].
      specialize (IH Hz). lia.
Qed.

(** ** [cr_readln] *)

Lemma cr_readln_fill_buffered (rhnd : cr_redis) :
  buf_len (buf rhnd) <> 0 -> buf_idx (buf rhnd) < buf_len (buf rhnd) ->
  cr_readln_fill rhnd = Ok (None, rhnd).
Proof.
  intros H0 Hlt. unfold cr_readln_fill.
  destruct (decide _) as [[?|?]|_]; [lia..|done].
Qed.

Lemma cr_readln_fill_incoming (rhnd : cr_redis) (bs : list ascii)
    (fd' : list recv_event) :
  let b := buf rhnd in
  let n := Nat.min (Z.to_nat (buf_size b)) (length bs) in
  fd rhnd = Incoming bs :: fd' ->
  buf_len b = 0 \/ buf_idx b >= buf_len b ->
  (0 < n <= length (buf_data b))%nat ->
  cr_readln_fill rhnd =
  Ok (None, Cr_redis (after_recv n bs fd') (timeout rhnd)
              (Cr_buffer (take n bs ++ drop n (buf_data b)) 0 (Z.of_nat n)
                 (buf_size b))
              (reply rhnd)).
Proof.
  intros b n Hfd Hempty Hn. unfold cr_readln_fill. fold b.
  destruct (decide _) as [_|?]; [|done].
  rewrite Hfd. cbn. fold n.
  destruct (decide (n <= length (buf_data b))%nat); [|lia].
  cbn. destruct (decide (Z.of_nat n > 0)); [|lia]. done.
Qed.

Lemma cr_readln_scan (rhnd rhnd1 : cr_redis) (start : Z) (line : ptr) :
  let b := buf rhnd1 in
  cr_readln_fill rhnd = Ok (None, rhnd1) ->
  0 <= buf_idx b + start -> buf_idx b < buf_len b ->
  buf_len b + start <= Z.of_nat (length (buf_data b)) ->
  cr_readln rhnd start line =
  match find_crlf (take (Z.to_nat (buf_len b - buf_idx b))
                     (drop (Z.to_nat (buf_idx b + start)) (buf_data b))) with
  | Some k =>
      let nl := buf_idx b + start + Z.of_nat k in
      Ok (nl - buf_idx b, Some (buf_idx b),
          with_buf rhnd1
            (Cr_buffer (<[Z.to_nat nl := NUL]> (buf_data b)) (nl + 2)
               (buf_len b) (buf_size b)))
  | None => Ok (-1, line, rhnd1)
  end.
Proof.
  intros b Hfill Hp Hlt Hin. unfold cr_readln. rewrite Hfill. cbn. fold b.
  rewrite cr_findnl_window by lia.
  destruct (find_crlf _) as [k|] eqn:Hk; [|done].
  apply find_crlf_bound in Hk. rewrite length_take, length_drop in Hk.
  unfold poke. destruct (decide _) as [_|?]; [|lia]. done.
Qed.

(** ** The window [cr_readln] scans *)

Lemma cr_readln_fill_nonempty (rhnd rhnd1 : cr_redis) :
  cr_readln_fill rhnd = Ok (None, rhnd1) ->
  buf_idx (buf rhnd1) < buf_len (buf rhnd1).
Proof.
  unfold cr_readln_fill. destruct (decide _) as [?|Hn].
  - destruct (cr_receivedata _ _ _ _) as [[[rc m] s]| |]; [|done..]. cbn.
    destruct (decide (rc > 0)); [|by case_decide].
    intros [= <-]. cbn. lia.
  - intros [= <-]. lia.
Qed.

(** The scan of [cr_readln] reads [len - idx] bytes from [idx + start]
    on: with [start = 0] they are unconsumed bytes of the buffer, and
    with a positive [start] the last [start] of them lie beyond [len]. *)
Lemma cr_readln_reads_window (rhnd rhnd1 : cr_redis) (start z : Z) :
  cr_readln_fill rhnd = Ok (None, rhnd1) ->
  z ∈ cr_readln_reads rhnd start ->
  buf_idx (buf rhnd1) + start <= z < buf_len (buf rhnd1) + start.
Proof.
  intros Hfill. unfold cr_readln_reads. rewrite Hfill.
  apply cr_readln_fill_nonempty in Hfill.
  unfold cr_findnl_trace, cr_findnl_rounds.
  destruct (decide _) as [_|?]; [|lia].
  intros Hz%cr_findnl_loop_reads. lia.
Qed.

(** C2: the code at the failing input.  The request [GET mykey] is still
    in the buffer when the reply [$5], [hello] arrives without its
    delimiter: 9 bytes.  Once the length line is read, the scan for the end
    of the payload starts at offset 9 with the bound [len - idx], reads the
    offsets 9 and 10, which are outside the received bytes, and finds there
    the delimiter of the request. *)
Theorem cr_readln_reads_past_len :
  let rhnd0 :=
    awaiting "GET mykey" [Incoming (bytes "$5" ++ CRLF ++ bytes "hello")] in
  exists rhnd rhnd',
    cr_readln (reset_buffer rhnd0) 0 None = Ok (2, Some 0, rhnd) /\
    buf_idx (buf rhnd) = 4 /\ buf_len (buf rhnd) = 9 /\
    cr_readln_reads rhnd 5 = [9; 10] /\
    cr_readln rhnd 5 (Some 1) = Ok (5, Some 4, rhnd').
Proof.
  eexists _, _. split; [vm_compute; reflexivity|].
  vm_compute. done.
Qed.

(** The same reply through [cr_receivereply]: the bulk is accepted on the
    strength of the delimiter of the request. *)
Example short_bulk_reply_accepted (h : credis_h) :
  exists rhnd',
    cr_receivereply h
      (awaiting "GET mykey" [Incoming (bytes "$5" ++ CRLF ++ bytes "hello")])
      CR_BULK
    = Ok (0, rhnd') /\
    holds_text rhnd' (reply_bulk (reply rhnd')) (bytes "hello").
Proof.
  eexists. split; [vm_compute; reflexivity|].
  exists 4. vm_compute. done.
Qed.

(** ** The first line of a reply *)

Lemma first_line_Some (s l : list ascii) :
  first_line s = Some l ->
  exists k, find_crlf s = Some k /\ l = take k s /\ length l = k.
Proof.
  unfold first_line. destruct (find_crlf s) as [k|] eqn:Hk; [|done].
  cbn. intros [= <-]. exists k. split_and!; [done..|].
  apply find_crlf_bound in Hk. rewrite length_take. lia.
Qed.

Lemma delivered_length (rhnd : cr_redis) (bs : list ascii) :
  length (delivered rhnd bs) =
  Nat.min (Z.to_nat (buf_size (buf rhnd))) (length bs).
Proof. unfold delivered. by rewrite length_take. Qed.

Lemma delivered_take (rhnd : cr_redis) (bs : list ascii) :
  take (length (delivered rhnd bs)) bs = delivered rhnd bs.
Proof.
  rewrite delivered_length. unfold delivered.
  destruct (Nat.min_spec (Z.to_nat (buf_size (buf rhnd))) (length bs))
    as [[? ->]|[? ->]]; [done|].
  by rewrite !take_ge by lia.
Qed.

Lemma cr_readln_first_line (rhnd : cr_redis) (bs : list ascii)
    (fd' : list recv_event) (k : nat) (line : ptr) :
  let b := buf rhnd in
  fd rhnd = Incoming bs :: fd' ->
  buf_size b <= Z.of_nat (length (buf_data b)) ->
  find_crlf (delivered rhnd bs) = Some k ->
  cr_readln (reset_buffer rhnd) 0 line
  = Ok (Z.of_nat k, Some 0, after_first_line rhnd bs fd' k).
Proof.
  intros b Hfd Hsize Hk.
  pose proof (find_crlf_bound _ _ Hk) as Hlen.
  pose proof (delivered_length rhnd bs) as Hn. fold b in Hn.
  set (rhnd0 := reset_buffer rhnd).
  pose proof (cr_readln_fill_incoming rhnd0 bs fd') as Hfill.
  cbn in Hfill. fold b in Hfill. rewrite <- Hn in Hfill.
  rewrite delivered_take in Hfill.
  specialize (Hfill Hfd ltac:(by left) ltac:(lia)).
  rewrite (cr_readln_scan _ _ _ _ Hfill); cbn; [|lia..| ].
  - rewrite Z.sub_0_r, Nat2Z.id. change (Z.to_nat (0 + 0)) with O.
    rewrite drop_0, take_app_length, Hk. cbn.
    unfold after_first_line, with_buf. fold b. cbn.
    repeat f_equal; lia.
  - rewrite length_app, length_drop. lia.
Qed.

Lemma after_first_line_tag (rhnd : cr_redis) (bs : list ascii)
    (fd' : list recv_event) (t : ascii) (rest : list ascii) :
  first_line (delivered rhnd bs) = Some (t :: rest) ->
  find_crlf (delivered rhnd bs) = Some (S (length rest)) /\
  peek (buf_data (buf (after_first_line rhnd bs fd' (S (length rest))))) 0
  = Some t.
Proof.
  intros (k & Hk & Htake & Hlen)%first_line_Some. cbn in Hlen. subst k.
  split; [done|].
  change 0 with (Z.of_nat 0). rewrite peek_nat. cbn.
  rewrite list_lookup_insert_ne by lia.
  pose proof (find_crlf_bound _ _ Hk) as Hb.
  rewrite lookup_app_l by lia.
  rewrite <- (lookup_take_lt _ (S (length rest))) by lia.
  by rewrite <- Htake.
Qed.

Section dispatcher.
Variable h : credis_h.

(** [cr_receivereply] on a first line [t :: rest]: the tag test and the
    [switch]. *)
Lemma cr_receivereply_first_line (rhnd : cr_redis) (recvtype : ascii)
    (bs : list ascii) (fd' : list recv_event) (t : ascii)
    (rest : list ascii) :
  fd rhnd = Incoming bs :: fd' ->
  buf_size (buf rhnd) <= Z.of_nat (length (buf_data (buf rhnd))) ->
  first_line (delivered rhnd bs) = Some (t :: rest) ->
  let rhnd1 := after_first_line rhnd bs fd' (S (length rest)) in
  cr_receivereply h rhnd recvtype =
  if negb (Ascii.eqb t recvtype) && negb (Ascii.eqb t CR_ERROR)
  then Ok (CREDIS_ERR_PROTOCOL h, rhnd1)
  else if Ascii.eqb t CR_ERROR then cr_receiveerror h rhnd1 (Some 1)
  else if Ascii.eqb t CR_INLINE then cr_receiveinline rhnd1 (Some 1)
  else if Ascii.eqb t CR_INT then cr_receiveint rhnd1 (Some 1)
  else if Ascii.eqb t CR_BULK then cr_receivebulk h rhnd1 (Some 1)
  else if Ascii.eqb t CR_MULTIBULK then cr_receivemultibulk h rhnd1 (Some 1)
  else Ok (CREDIS_ERR_RECV h, rhnd1).
Proof.
  intros Hfd Hsize Hline rhnd1. subst rhnd1.
  destruct (after_first_line_tag rhnd bs fd' t rest Hline) as [Hk Ht].
  unfold cr_receivereply.
  rewrite (cr_readln_first_line rhnd bs fd' _ None Hfd Hsize Hk).
  revert Ht. generalize (after_first_line rhnd bs fd' (S (length rest))).
  intros rhnd1 Ht. cbn.
  destruct (decide _) as [_|?]; [|lia].
  cbn. rewrite Ht. cbn. done.
Qed.

(** C5.  When the first line of the reply is not empty and its first byte
    is neither the tag the caller expects nor the error tag,
    [cr_receivereply] returns [CREDIS_ERR_PROTOCOL]. *)
Theorem tag_mismatch_is_protocol_error (rhnd : cr_redis) (recvtype : ascii)
    (bs : list ascii) (fd' : list recv_event) (t : ascii)
    (rest : list ascii) :
  fd rhnd = Incoming bs :: fd' ->
  buf_size (buf rhnd) <= Z.of_nat (length (buf_data (buf rhnd))) ->
  first_line (delivered rhnd bs) = Some (t :: rest) ->
  t <> recvtype -> t <> CR_ERROR ->
  rc_of (cr_receivereply h rhnd recvtype) = Some (CREDIS_ERR_PROTOCOL h).
Proof.
  intros Hfd Hsize Hline Ht He.
  rewrite (cr_receivereply_first_line _ _ _ _ _ _ Hfd Hsize Hline).
  apply Ascii.eqb_neq in Ht, He. by rewrite Ht, He.
Qed.

(** C9.  When [cr_receivereply] returns [CREDIS_ERR_PROTOCOL] because the
    first byte of the first line is neither the expected tag nor the error
    tag, the fields of [rhnd->reply] are what they were before the call. *)
Theorem tag_mismatch_keeps_reply (rhnd : cr_redis) (recvtype : ascii)
    (bs : list ascii) (fd' : list recv_event) (t : ascii)
    (rest : list ascii) :
  fd rhnd = Incoming bs :: fd' ->
  buf_size (buf rhnd) <= Z.of_nat (length (buf_data (buf rhnd))) ->
  first_line (delivered rhnd bs) = Some (t :: rest) ->
  t <> recvtype -> t <> CR_ERROR ->
  exists rhnd',
    cr_receivereply h rhnd recvtype = Ok (CREDIS_ERR_PROTOCOL h, rhnd') /\
    reply rhnd' = reply rhnd.
Proof.
  intros Hfd Hsize Hline Ht He.
  rewrite (cr_receivereply_first_line _ _ _ _ _ _ Hfd Hsize Hline).
  apply Ascii.eqb_neq in Ht, He. rewrite Ht, He. cbn. eauto.
Qed.

(** C7, as the code has it.  For an error-tagged first line,
    [cr_receivereply] stores the text after the tag, unchanged and
    zero-terminated, in [reply.line] and returns [CREDIS_ERR_PROTOCOL], the
    value it also returns for a tag mismatch, whatever type the caller
    expects. *)
Theorem error_reply_is_protocol_error (rhnd : cr_redis) (recvtype : ascii)
    (bs : list ascii) (fd' : list recv_event) (msg : list ascii) :
  fd rhnd = Incoming bs :: fd' ->
  buf_size (buf rhnd) <= Z.of_nat (length (buf_data (buf rhnd))) ->
  first_line (delivered rhnd bs) = Some (CR_ERROR :: msg) ->
  exists rhnd',
    cr_receivereply h rhnd recvtype = Ok (CREDIS_ERR_PROTOCOL h, rhnd') /\
    holds_text rhnd' (reply_line (reply rhnd')) msg.
Proof.
  intros Hfd Hsize Hline.
  rewrite (cr_receivereply_first_line _ _ _ _ _ _ Hfd Hsize Hline).
  rewrite andb_false_r. cbn. eexists. split; [done|].
  exists 1. split; [done|].
  apply first_line_Some in Hline as (k & Hk & Htake & Hlen).
  cbn in Hlen. subst k. pose proof (find_crlf_bound _ _ Hk) as Hb.
  cbn. split.
  - change 1 with (Z.of_nat 1). rewrite str_at_nat.
    rewrite take_drop_commute.
    rewrite take_insert_ge by lia.
    rewrite take_app_le by lia.
    replace (1 + length msg)%nat with (S (length msg)) by lia.
    by rewrite <- Htake.
  - replace (1 + Z.of_nat (length msg)) with (Z.of_nat (S (length msg))) by lia.
    rewrite peek_nat. apply list_lookup_insert_eq.
    rewrite length_app. lia.
Qed.

End dispatcher.

(** An integer reply is expected and a bulk reply arrives. *)
Lemma tag_mismatch_is_protocol_error_witness :
  rc_of (cr_receivereply sample_h
           (awaiting "LLEN k" [Incoming (bytes "$3" ++ CRLF ++ bytes "foo" ++ CRLF)])
           CR_INT)
  = Some (CREDIS_ERR_PROTOCOL sample_h).
Proof.
  apply (tag_mismatch_is_protocol_error sample_h _ CR_INT
           (bytes "$3" ++ CRLF ++ bytes "foo" ++ CRLF) [] CR_BULK (bytes "3")).
  - reflexivity.
  - vm_compute. discriminate.
  - vm_compute. reflexivity.
  - discriminate.
  - discriminate.
Defined.

(** The reply of an earlier [LLEN], 42, is still in the handle when a
    status reply arrives where an integer is expected. *)
Lemma tag_mismatch_keeps_reply_witness :
  let earlier :=
    Cr_reply 42 None None
      (Cr_multibulk (replicate 64 None) CR_MULTIBULK_SIZE 0) in
  let rhnd :=
    with_reply (awaiting "LLEN k" [Incoming (bytes "+OK" ++ CRLF)]) earlier in
  exists rhnd',
    cr_receivereply sample_h rhnd CR_INT
    = Ok (CREDIS_ERR_PROTOCOL sample_h, rhnd') /\
    reply rhnd' = reply rhnd.
Proof.
  intros earlier rhnd.
  apply (tag_mismatch_keeps_reply sample_h rhnd CR_INT
           (bytes "+OK" ++ CRLF) [] CR_INLINE (bytes "OK")).
  - reflexivity.
  - vm_compute. discriminate.
  - vm_compute. reflexivity.
  - discriminate.
  - discriminate.
Defined.

Lemma error_reply_is_protocol_error_witness :
  exists rhnd',
    cr_receivereply sample_h
      (awaiting "LLEN k" [Incoming (bytes "-ERR wrong kind" ++ CRLF)]) CR_INT
    = Ok (CREDIS_ERR_PROTOCOL sample_h, rhnd') /\
    holds_text rhnd' (reply_line (reply rhnd')) (bytes "ERR wrong kind").
Proof.
  apply (error_reply_is_protocol_error sample_h _ CR_INT
           (bytes "-ERR wrong kind" ++ CRLF) []).
  - reflexivity.
  - vm_compute. discriminate.
  - vm_compute. reflexivity.
Defined.

(** C7, as stated, fails: the value returned for an error reply is the one
    returned for a reply of an unexpected type. *)
Lemma error_reply_not_distinct :
  rc_of (cr_receivereply sample_h
           (awaiting "LLEN k" [Incoming (bytes "-ERR wrong kind" ++ CRLF)])
           CR_INT)
  = rc_of (cr_receivereply sample_h
             (awaiting "LLEN k" [Incoming (bytes "+OK" ++ CRLF)]) CR_INT).
Proof. vm_compute. reflexivity. Qed.

(** ** Timeout and end of stream *)

(** C6, as stated, fails: [cr_receivereply] returns the same value when
    the deadline elapses and when the peer closes the connection, and
    [cr_readln] does not tell a deadline that elapsed from a [recv] that
    failed. *)
Lemma timeout_and_close_conflated :
  rc_of (cr_receivereply sample_h (awaiting "PING" [SelectTimeout]) CR_INLINE)
  = rc_of (cr_receivereply sample_h (awaiting "PING" [PeerClosed]) CR_INLINE)
  /\ cr_readln (with_fd cr_new [SelectTimeout]) 0 None
     = cr_readln (with_fd cr_new [RecvError]) 0 None.
Proof. vm_compute. done. Qed.

(** C6, as the code has it, for the first line of a reply.  When the
    receive buffer is empty and the next answer of the socket is that the
    deadline elapsed, or that the peer has closed the connection,
    [cr_receivedata] returns [-2] for the first and [0] for the second;
    [cr_readln] returns [-1] for the first and [0] for the second;
    [cr_receivereply] returns [CREDIS_ERR_RECV] for both, with the same
    handle. *)
Theorem timeout_and_close_by_layer (h : credis_h) (rhnd : cr_redis)
    (fd' : list recv_event) (recvtype : ascii) (start : Z) (line : ptr) :
  let b := buf rhnd in
  let empty := Cr_buffer (buf_data b) 0 0 (buf_size b) in
  let timed_out := Cr_redis (SelectTimeout :: fd') (timeout rhnd) empty
                     (reply rhnd) in
  let closed := Cr_redis (PeerClosed :: fd') (timeout rhnd) empty
                  (reply rhnd) in
  let rest := Cr_redis fd' (timeout rhnd) empty (reply rhnd) in
  (cr_receivedata (fd timed_out) (timeout rhnd) (buf_data b) (buf_size b)
   = Ok (-2, buf_data b, fd') /\
   cr_receivedata (fd closed) (timeout rhnd) (buf_data b) (buf_size b)
   = Ok (0, buf_data b, fd')) /\
  (cr_readln timed_out start line = Ok (-1, line, rest) /\
   cr_readln closed start line = Ok (0, line, rest)) /\
  (cr_receivereply h (with_fd rhnd (SelectTimeout :: fd')) recvtype
   = Ok (CREDIS_ERR_RECV h, rest) /\
   cr_receivereply h (with_fd rhnd (PeerClosed :: fd')) recvtype
   = Ok (CREDIS_ERR_RECV h, rest)).
Proof. cbn. done. Qed.

(** ** [cr_senddata] *)

Lemma total_nonneg (ns : list nat) : 0 <= total ns.
Proof. unfold total. lia. Qed.

Lemma total_cons (n : nat) (ns : list nat) :
  total (n :: ns) = Z.of_nat n + total ns.
Proof. unfold total. cbn. lia. Qed.

Lemma cr_senddata_loop_accepts (ns : list nat) (fd' : list send_event)
    (size sent : Z) :
  sent + total ns < size ->
  cr_senddata_loop (accepts ns ++ fd') size sent
  = cr_senddata_loop fd' size (sent + total ns).
Proof.
  revert sent. induction ns as [|n ns IH]; intros sent Hlt.
  - cbn. by rewrite Z.add_0_r.
  - rewrite total_cons in Hlt. pose proof (total_nonneg ns).
    cbn [accepts fmap list_fmap app cr_senddata_loop].
    destruct (decide (sent < size)); [|lia].
    rewrite Z.min_l by lia.
    fold (accepts ns). rewrite IH by lia.
    f_equal. rewrite total_cons. lia.
Qed.

Lemma cr_senddata_loop_all (ns : list nat) (rest : list send_event)
    (size sent : Z) :
  sent <= size -> size <= sent + total ns ->
  fst (cr_senddata_loop (accepts ns ++ rest) size sent) = size.
Proof.
  revert sent. induction ns as [|n ns IH]; intros sent Hle Hge.
  - unfold total in Hge. cbn in Hge. cbn [accepts fmap list_fmap app].
    destruct rest; cbn; destruct (decide (sent < size)); cbn; lia.
  - rewrite total_cons in Hge.
    cbn [accepts fmap list_fmap app cr_senddata_loop].
    destruct (decide (sent < size)); [|cbn; lia].
    pose proof (total_nonneg ns).
    fold (accepts ns). apply IH; lia.
Qed.

(** Every run is one of the three. *)
Lemma cr_senddata_loop_cases (fd : list send_event) (size sent : Z) :
  0 <= sent <= size ->
  let r := fst (cr_senddata_loop fd size sent) in
  (exists ns rest,
     (fd = accepts ns \/ fd = accepts ns ++ WriteTimeout :: rest) /\
     sent + total ns < size /\ r = sent + total ns) \/
  (exists ns e rest,
     fd = accepts ns ++ e :: rest /\
     (e = WriteSelectError \/ e = SendError) /\
     sent + total ns < size /\ r = -1) \/
  (exists ns rest,
     fd = accepts ns ++ rest /\ size <= sent + total ns /\ r = size).
Proof.
  revert sent. induction fd as [|e fd IH]; intros sent Hs r; subst r.
  - destruct (decide (sent < size)).
    + left. exists [], []. cbn. destruct (decide _); [|lia].
      unfold total. cbn. split_and!; [by left|lia..].
    + right. right. exists [], []. cbn. destruct (decide _); [lia|].
      unfold total. cbn. split_and!; [done|lia..].
  - destruct (decide (sent < size)) as [Hlt|Hge].
    2: { right. right. exists [], (e :: fd). cbn.
         destruct (decide _); [lia|]. unfold total. cbn.
         split_and!; [done|lia..]. }
    destruct e as [| | |n].
    + left. exists [], fd. cbn. destruct (decide _); [|lia].
      unfold total. cbn. split_and!; [by right|lia..].
    + right. left. exists [], WriteSelectError, fd. cbn.
      destruct (decide _); [|lia]. unfold total. cbn.
      split_and!; [done|by left|lia|done].
    + right. left. exists [], SendError, fd. cbn.
      destruct (decide _); [|lia]. unfold total. cbn.
      split_and!; [done|by right|lia|done].
    + cbn [cr_senddata_loop]. destruct (decide _); [|lia].
      destruct (decide (Z.of_nat n <= size - sent)) as [Hn|Hn].
      * rewrite Z.min_l by lia.
        destruct (IH (sent + Z.of_nat n) ltac:(lia))
          as [(ns & rest & Hfd & Hlt' & Hr)
             |[(ns & e & rest & Hfd & He & Hlt' & Hr)
              |(ns & rest & Hfd & Hlt' & Hr)]].
        -- left. exists (n :: ns), rest. rewrite total_cons.
           split_and!; [|lia..].
           destruct Hfd as [->| ->]; [by left|by right].
        -- right. left. exists (n :: ns), e, rest. rewrite total_cons.
           split_and!; [by subst|done|lia|done].
        -- right. right. exists (n :: ns), rest. rewrite total_cons.
           split_and!; [by subst|lia|done].
      * right. right. exists [n], fd. rewrite total_cons.
        rewrite Z.min_r by lia. unfold total. cbn [sum_list sum_list_with].
        split_and!; [done|lia|].
        replace (sent + (size - sent)) with size by lia.
        apply (cr_senddata_loop_all [] fd); unfold total; cbn; lia.
Qed.

(** C8.  The value [cr_senddata] returns is a count below [size] exactly
    when the deadline elapsed before all bytes were sent, [-1] exactly when
    [select] or [send] failed before that, and [size] exactly when all
    bytes were sent; the count returned when the deadline elapsed is the
    number of bytes the socket took before it. *)
Theorem cr_senddata_result (fd : list send_event) (size : Z) :
  0 <= size ->
  let r := fst (cr_senddata fd size) in
  (0 <= r < size <-> deadline_elapsed fd size) /\
  (r = -1 <-> socket_failed fd size) /\
  (r = size <-> all_sent fd size) /\
  (forall ns rest,
     fd = accepts ns \/ fd = accepts ns ++ WriteTimeout :: rest ->
     total ns < size -> r = total ns).
Proof.
  intros Hsize r.
  assert (Htaken : forall ns rest,
             fd = accepts ns \/ fd = accepts ns ++ WriteTimeout :: rest ->
             total ns < size -> r = total ns).
  { intros ns rest Hfd Hlt. subst r. unfold cr_senddata.
    pose proof (total_nonneg ns).
    destruct Hfd as [->| ->].
    - rewrite <- (app_nil_r (accepts ns)).
      rewrite cr_senddata_loop_accepts by lia. cbn.
      by destruct (decide _).
    - rewrite cr_senddata_loop_accepts by lia. cbn.
      by destruct (decide _). }
  assert (Hdead : deadline_elapsed fd size -> 0 <= r < size).
  { intros (ns & rest & Hfd & Hlt).
    rewrite (Htaken ns rest Hfd Hlt). pose proof (total_nonneg ns). lia. }
  assert (Hfail : socket_failed fd size -> r = -1).
  { intros (ns & e & rest & -> & He & Hlt). subst r. unfold cr_senddata.
    rewrite cr_senddata_loop_accepts by lia. cbn.
    destruct (decide _); [|lia]. by destruct He as [->| ->]. }
  assert (Hall : all_sent fd size -> r = size).
  { intros (ns & rest & -> & Hge). subst r. unfold cr_senddata.
    apply cr_senddata_loop_all; lia. }
  split_and!; [| | |exact Htaken];
    destruct (cr_senddata_loop_cases fd size 0 ltac:(lia))
      as [(ns & rest & Hfd & Hlt & Hr)
         |[(ns & e & rest & Hfd & He & Hlt & Hr)
          |(ns & rest & Hfd & Hge & Hr)]];
    fold (cr_senddata fd size) in Hr; fold r in Hr;
    pose proof (total_nonneg ns);
    (split; [|done]); intros;
    try lia;
    try (exists ns, rest; split; [done|lia]);
    try (exists ns, e, rest; split_and!; [done..|lia]).
Qed.

Lemma cr_senddata_result_witness :
  let r := fst (cr_senddata [Accepts 4; WriteTimeout] 6) in
  (0 <= r < 6 <-> deadline_elapsed [Accepts 4; WriteTimeout] 6) /\
  (r = -1 <-> socket_failed [Accepts 4; WriteTimeout] 6) /\
  (r = 6 <-> all_sent [Accepts 4; WriteTimeout] 6) /\
  (forall ns rest,
     [Accepts 4; WriteTimeout] = accepts ns \/
     [Accepts 4; WriteTimeout] = accepts ns ++ WriteTimeout :: rest ->
     total ns < 6 -> r = total ns).
Proof. apply (cr_senddata_result [Accepts 4; WriteTimeout] 6). lia. Defined.

(** ** The multi-bulk assembler on a count of zero *)

(** C10.  When the count [atoi] reads from the line is [0],
    [cr_receivemultibulk] returns [0] with [multibulk.len] set to [0], and
    neither the socket nor the receive buffer has been touched: no line
    was read and nothing was received. *)
Theorem cr_receivemultibulk_zero (h : credis_h) (rhnd : cr_redis)
    (line : ptr) :
  atoi_at rhnd line = Ok 0 ->
  exists rhnd',
    cr_receivemultibulk h rhnd line = Ok (0, rhnd') /\
    mb_len (reply_multibulk (reply rhnd')) = 0 /\
    fd rhnd' = fd rhnd /\ buf rhnd' = buf rhnd.
Proof.
  intros Hcount. unfold cr_receivemultibulk. rewrite Hcount. cbn.
  destruct (decide (0 > _)); cbn; eauto.
Qed.

Lemma cr_receivemultibulk_zero_witness :
  exists rhnd',
    cr_receivemultibulk sample_h
      (after_first_line (awaiting "KEYS x*" []) (bytes "*0" ++ CRLF) [] 2)
      (Some 1)
    = Ok (0, rhnd') /\
    mb_len (reply_multibulk (reply rhnd')) = 0 /\
    fd rhnd' = [] /\
    buf rhnd' =
    buf (after_first_line (awaiting "KEYS x*" []) (bytes "*0" ++ CRLF) [] 2).
Proof.
  apply (cr_receivemultibulk_zero sample_h
           (after_first_line (awaiting "KEYS x*" []) (bytes "*0" ++ CRLF) [] 2)
           (Some 1)).
  vm_compute. reflexivity.
Defined.

(** The same reply through [cr_receivereply]: the one chunk that holds the
    count line is all that is taken from the socket. *)
Example empty_multibulk_reply :
  exists rhnd',
    cr_receivereply sample_h
      (awaiting "KEYS x*" [Incoming (bytes "*0" ++ CRLF); PeerClosed])
      CR_MULTIBULK
    = Ok (0, rhnd') /\
    mb_len (reply_multibulk (reply rhnd')) = 0 /\
    fd rhnd' = [PeerClosed].
Proof. eexists. vm_compute. done. Qed.

(** ** The bulk handler *)

(** C3: the code at the failing input.  The reply to a [GET] of a missing
    key is [$-1]; [cr_receivebulk] does not test for [-1] but asks
    [cr_readln] for one more line, and when none arrives it returns
    [CREDIS_ERR_PROTOCOL] and leaves [reply.bulk] as it was. *)
Theorem null_bulk_reply_rejected (h : credis_h) :
  let rhnd := awaiting "GET missing" [Incoming (bytes "$-1" ++ CRLF)] in
  exists rhnd',
    cr_receivereply h rhnd CR_BULK = Ok (CREDIS_ERR_PROTOCOL h, rhnd') /\
    reply rhnd' = reply rhnd.
Proof. eexists. vm_compute. done. Qed.

(** Whenever [cr_receivebulk] returns [0], [reply.bulk] is not [NULL]. *)
Lemma cr_receivebulk_never_null (h : credis_h) (rhnd rhnd' : cr_redis)
    (line : ptr) :
  CREDIS_ERR_PROTOCOL h <> 0 ->
  cr_receivebulk h rhnd line = Ok (0, rhnd') ->
  reply_bulk (reply rhnd') <> None.
Proof.
  intros Hne. unfold cr_receivebulk. destruct line as [p|]; [|done]. cbn.
  destruct (atoi _) as [blen| |]; [|done..]. cbn.
  unfold cr_readln.
  destruct (cr_readln_fill rhnd) as [[[rc|] rhnd1]| |]; [| |done..]; cbn.
  - destruct (decide (rc >= 0)); [by intros [= <-]|congruence].
  - destruct (cr_findnl _ _ _) as [nl| |]; [| |done]; cbn.
    + destruct (poke _ _ _); [|done]. cbn.
      destruct (decide (_ >= 0)); [by intros [= <-]|congruence].
    + destruct (decide (_ >= 0)); [lia|congruence].
Qed.

(** C4: the code at the failing input.  The reply declares 3 bytes and
    carries 6; [cr_receivebulk] tests the length [cr_readln] returns with
    [>= 0] and returns [0] with the 6 bytes as the bulk. *)
Theorem long_bulk_reply_accepted (h : credis_h) :
  let rhnd :=
    awaiting "GET k"
      [Incoming (bytes "$3" ++ CRLF ++ bytes "foobar" ++ CRLF)] in
  exists rhnd',
    cr_receivereply h rhnd CR_BULK = Ok (0, rhnd') /\
    holds_text rhnd' (reply_bulk (reply rhnd')) (bytes "foobar").
Proof.
  eexists. split; [vm_compute; reflexivity|].
  exists 4. vm_compute. done.
Qed.

(** ** [cr_receivemultibulk] is given enough rounds *)

Arguments recv_weight : simpl never.
Arguments count_cr : simpl never.
Arguments readln_budget : simpl never.

Lemma cr_findnl_loop_found (n : nat) (m : list ascii) (p nl : Z) :
  snd (cr_findnl_loop m p n) = Found nl -> peek m nl = Some CR.
Proof.
  revert p. induction n as [|n IH]; intros p; cbn [cr_findnl_loop]; [done|].
  destruct (peek m p) as [c|] eqn:Hc; [|done].
  destruct (Ascii.eqb c CR) eqn:Ec.
  - apply Ascii.eqb_eq in Ec. subst c.
    destruct (peek m (p + 1)) as [d|]; [|done].
    destruct (Ascii.eqb d LF).
    + cbn. by intros [= <-].
    + specialize (IH (p + 1)).
      by destruct (cr_findnl_loop m (p + 1) n) as [t r].
  - specialize (IH (p + 1)).
    by destruct (cr_findnl_loop m (p + 1) n) as [t r].
Qed.

Lemma cr_findnl_found (m : list ascii) (p len nl : Z) :
  cr_findnl m p len = Found nl -> peek m nl = Some CR.
Proof. apply cr_findnl_loop_found. Qed.

Lemma count_cr_le (m : list ascii) : (count_cr m <= length m)%nat.
Proof. apply length_filter. Qed.

Lemma count_cr_cons (c : ascii) (m : list ascii) :
  count_cr (c :: m) = ((if decide (c = CR) then 1 else 0) + count_cr m)%nat.
Proof. unfold count_cr. rewrite filter_cons. by destruct (decide (c = CR)). Qed.

Lemma count_cr_zeroed (m : list ascii) (i : nat) :
  m !! i = Some CR -> S (count_cr (<[i := NUL]> m)) = count_cr m.
Proof.
  revert i. induction m as [|c m IH]; intros i; [done|].
  destruct i as [|i]; cbn -[count_cr].
  - intros [= ->]. rewrite !count_cr_cons.
    destruct (decide (NUL = CR)); [done|]. by destruct (decide (CR = CR)).
  - intros Hi. rewrite !count_cr_cons. rewrite <- (IH i Hi).
    destruct (decide (c = CR)); by rewrite ?Nat.add_succ_r.
Qed.

Lemma cr_receivedata_budget (s s' : list recv_event) (msecs rc size : Z)
    (m m' : list ascii) :
  cr_receivedata s msecs m size = Ok (rc, m', s') ->
  length m' = length m /\
  ((m' = m /\ recv_weight s' <= recv_weight s) \/
   recv_weight s' < recv_weight s)%nat.
Proof.
  unfold cr_receivedata, recv_weight.
  destruct s as [|[| | | |bs] s0];
    try (intros [= <- <- <-]; cbn; split; [done|left; split; [done|lia]]).
  set (n := Nat.min _ _). destruct (decide (n <= length m)%nat); [|done].
  intros [= <- <- <-]. split.
  - rewrite length_app, length_take, length_drop. lia.
  - unfold after_recv. destruct (drop n bs) as [|c rest] eqn:Hd.
    + right. cbn. lia.
    + assert (length (drop n bs) = S (length rest)) as Hl by by rewrite Hd.
      rewrite length_drop in Hl.
      destruct (decide (n = 0%nat)) as [->|Hn].
      * left. cbn. rewrite drop_0. split; [done|]. lia.
      * right. cbn. lia.
Qed.

Lemma cr_readln_fill_budget (rhnd rhnd1 : cr_redis) (early : option Z) :
  cr_readln_fill rhnd = Ok (early, rhnd1) ->
  (readln_budget rhnd1 <= readln_budget rhnd)%nat /\
  match early with Some rc => rc <= 0 | None => True end.
Proof.
  unfold cr_readln_fill. destruct (decide _) as [_|_].
  2: { intros [= <- <-]. done. }
  destruct (cr_receivedata _ _ _ _) as [[[rc m'] s']| |] eqn:Hrecv; [|done..].
  apply cr_receivedata_budget in Hrecv as [Hlen Hw]. cbn.
  assert (readln_budget
            (Cr_redis s' (timeout rhnd)
               (Cr_buffer m' 0 0 (buf_size (buf rhnd))) (reply rhnd))
          <= readln_budget rhnd)%nat as Hb.
  { unfold readln_budget. cbn [fd buf buf_data]. rewrite Hlen.
    destruct Hw as [[-> Hw]|Hw].
    - by apply Nat.add_le_mono_r, Nat.mul_le_mono_r.
    - pose proof (count_cr_le m'). nia. }
  destruct (decide (rc > 0)); [|destruct (decide (rc = 0))];
    intros [= <- <-]; (split; [exact Hb|done || lia]).
Qed.

Lemma cr_readln_budget (rhnd rhnd' : cr_redis) (start rc : Z)
    (line line' : ptr) :
  cr_readln rhnd start line = Ok (rc, line', rhnd') ->
  (readln_budget rhnd' <= readln_budget rhnd)%nat /\
  (rc > 0 -> (readln_budget rhnd' < readln_budget rhnd)%nat) /\
  reply rhnd' = reply rhnd.
Proof.
  unfold cr_readln.
  destruct (cr_readln_fill rhnd) as [[early rhnd1]| |] eqn:Hfill; [|done..].
  assert (reply rhnd1 = reply rhnd) as Hreply.
  { revert Hfill. unfold cr_readln_fill. destruct (decide _).
    - destruct (cr_receivedata _ _ _ _) as [[[? ?] ?]| |]; [|done..]. cbn.
      repeat case_decide; by intros [= <- <-].
    - by intros [= <- <-]. }
  apply cr_readln_fill_budget in Hfill as [Hb Hearly]. cbn.
  destruct early as [rc0|].
  { intros [= <- <- <-]. split_and!; [done|lia|done]. }
  destruct (cr_findnl _ _ _) as [nl| |] eqn:Hnl; [| |done].
  - apply cr_findnl_found in Hnl.
    pose proof (peek_Some _ _ _ Hnl) as Hin.
    unfold poke. destruct (decide _) as [_|?]; [|lia]. cbn.
    intros [= <- <- <-]. cbn.
    rewrite <- (Z2Nat.id nl), peek_nat in Hnl by lia.
    apply count_cr_zeroed in Hnl.
    unfold readln_budget in *. cbn. rewrite length_insert.
    split_and!; [lia|lia|done].
  - intros [= <- <- <-]. split_and!; [done|lia|done].
Qed.

Lemma of_option_finished {A : Type} (o : option A) :
  of_option o <> Unfinished.
Proof. by destruct o. Qed.

Lemma atoi_at_finished (rhnd : cr_redis) (line : ptr) :
  atoi_at rhnd line <> Unfinished.
Proof.
  unfold atoi_at, atoi. destruct line as [p|]; [|done]. cbn.
  by destruct (decide _).
Qed.

Lemma cr_receivedata_finished (s : list recv_event) (msecs size : Z)
    (m : list ascii) :
  cr_receivedata s msecs m size <> Unfinished.
Proof.
  unfold cr_receivedata. destruct s as [|[| | | |bs] s]; try done.
  by destruct (decide _).
Qed.

Lemma cr_readln_fill_finished (rhnd : cr_redis) :
  cr_readln_fill rhnd <> Unfinished.
Proof.
  unfold cr_readln_fill. destruct (decide _); [|done].
  destruct (cr_receivedata _ _ _ _) as [[[rc m] s]| |] eqn:Hrecv;
    [|done|by apply cr_receivedata_finished in Hrecv].
  cbn. by repeat case_decide.
Qed.

Lemma cr_readln_finished (rhnd : cr_redis) (start : Z) (line : ptr) :
  cr_readln rhnd start line <> Unfinished.
Proof.
  unfold cr_readln.
  destruct (cr_readln_fill rhnd) as [[[rc|] rhnd1]| |] eqn:Hfill;
    [done| |done|by apply cr_readln_fill_finished in Hfill].
  cbn. destruct (cr_findnl _ _ _); [|done..]. cbn. by destruct (poke _ _ _).
Qed.

Lemma store_bulk_finished (rhnd : cr_redis) (i : Z) (line : ptr) :
  store_bulk rhnd i line <> Unfinished.
Proof. unfold store_bulk. by destruct (poke _ _ _). Qed.

Arguments atoi_at : simpl never.
Arguments store_bulk : simpl never.
Arguments cr_readln : simpl never.

Lemma store_bulk_frame (rhnd rhnd' : cr_redis) (i : Z) (line : ptr) :
  store_bulk rhnd i line = Ok rhnd' ->
  fd rhnd' = fd rhnd /\ buf rhnd' = buf rhnd /\
  mb_len (reply_multibulk (reply rhnd')) = mb_len (reply_multibulk (reply rhnd)).
Proof.
  unfold store_bulk. destruct (poke _ _ _); [|done]. cbn. by intros [= <-].
Qed.

Lemma store_bulk_budget (rhnd rhnd' : cr_redis) (i : Z) (line : ptr) :
  store_bulk rhnd i line = Ok rhnd' ->
  readln_budget rhnd' = readln_budget rhnd.
Proof.
  intros (Hfd & Hbuf & _)%store_bulk_frame. unfold readln_budget.
  by rewrite Hfd, Hbuf.
Qed.

Section assembler.
Variable h : credis_h.

Lemma cr_receivemultibulk_loop_finishes (rounds : nat) (rhnd : cr_redis)
    (bnum i : Z) (line : ptr) :
  (0 <= bnum /\ (Z.to_nat bnum < rounds)%nat) \/
  (bnum < 0 /\ (readln_budget rhnd < rounds)%nat) ->
  cr_receivemultibulk_loop h rounds rhnd bnum i line <> Unfinished.
Proof.
  revert rhnd bnum i line.
  induction rounds as [|rounds IH]; intros rhnd bnum i line Hr; [lia|].
  cbn [cr_receivemultibulk_loop].
  destruct (decide (bnum = 0)); [done|].
  destruct (cr_readln rhnd 0 line) as [[[rc line1] rhnd1]| |] eqn:H1;
    [|done|by apply cr_readln_finished in H1]. cbn.
  apply cr_readln_budget in H1 as (_ & Hb1 & _).
  destruct (decide (rc > 0)) as [Hrc|]; [|done]. specialize (Hb1 Hrc).
  destruct line1 as [p|]; [|done]. cbn.
  destruct (peek _ p) as [c|]; [|done]. cbn.
  destruct (negb _); [done|].
  destruct (atoi_at rhnd1 (Some (p + 1))) as [blen| |] eqn:Hblen;
    [|done|by apply atoi_at_finished in Hblen]. cbn.
  destruct (decide (blen = -1)).
  - destruct (store_bulk rhnd1 i None) as [rhnd2| |] eqn:H2;
      [|done|by apply store_bulk_finished in H2]. cbn.
    apply store_bulk_budget in H2.
    destruct (decide (bnum = INT_MIN)); [done|]. apply IH. lia.
  - destruct (cr_readln rhnd1 blen (Some (p + 1)))
      as [[[rc2 line2] rhnd2]| |] eqn:H2;
      [|done|by apply cr_readln_finished in H2]. cbn.
    apply cr_readln_budget in H2 as (Hb2 & _ & _).
    destruct (decide (rc2 <> blen)); [done|].
    destruct (store_bulk rhnd2 i line2) as [rhnd3| |] eqn:H3;
      [|done|by apply store_bulk_finished in H3]. cbn.
    apply store_bulk_budget in H3.
    destruct (decide (bnum = INT_MIN)); [done|]. apply IH. lia.
Qed.

(** [cr_receivemultibulk] never comes back for want of rounds. *)
Lemma cr_receivemultibulk_finishes (rhnd : cr_redis) (line : ptr) :
  cr_receivemultibulk h rhnd line <> Unfinished.
Proof.
  unfold cr_receivemultibulk.
  destruct (atoi_at rhnd line) as [bnum| |] eqn:Hbnum;
    [|done|by apply atoi_at_finished in Hbnum]. cbn.
  set (rhnd0 := if decide _ then _ else _).
  destruct (cr_receivemultibulk_loop _ _ _ _ _ _) as [e| |] eqn:He; [|done|].
  - cbn. destruct e as [rc r|b j r]; [done|]. by destruct (decide (b <> 0)).
  - apply cr_receivemultibulk_loop_finishes in He; [done|].
    unfold cr_receivemultibulk_rounds. destruct (decide (0 <= bnum)); lia.
Qed.

Lemma cr_receivereply_finishes (rhnd : cr_redis) (recvtype : ascii) :
  cr_receivereply h rhnd recvtype <> Unfinished.
Proof.
  unfold cr_receivereply.
  destruct (cr_readln _ 0 None) as [[[rc line1] rhnd1]| |] eqn:H1;
    [|done|by apply cr_readln_finished in H1]. cbn.
  destruct (decide (rc > 0)); [|done].
  destruct line1 as [p|]; [|done]. cbn.
  destruct (peek _ p) as [c|]; [|done]. cbn.
  destruct (_ && _); [done|].
  destruct (Ascii.eqb c CR_ERROR); [done|].
  destruct (Ascii.eqb c CR_INLINE); [done|].
  destruct (Ascii.eqb c CR_INT).
  { unfold cr_receiveint. cbn.
    destruct (atoi_at _ _) eqn:Hn; [done..|by apply atoi_at_finished in Hn]. }
  destruct (Ascii.eqb c CR_BULK).
  { unfold cr_receivebulk. cbn.
    destruct (atoi_at _ _) as [blen| |] eqn:Hn;
      [|done|by apply atoi_at_finished in Hn]. cbn.
    destruct (cr_readln _ blen _) as [[[rc2 line2] rhnd2]| |] eqn:H2;
      [|done|by apply cr_readln_finished in H2]. cbn.
    by destruct (decide _). }
  destruct (Ascii.eqb c CR_MULTIBULK); [|done].
  apply cr_receivemultibulk_finishes.
Qed.

End assembler.

(** ** What [cr_receivemultibulk] returns *)

Section assembler_outcome.
Variable h : credis_h.


Lemma cr_receivemultibulk_loop_count (rounds : nat) (rhnd : cr_redis)
    (bnum i : Z) (line : ptr) (e : mb_exit) :
  cr_receivemultibulk_loop h rounds rhnd bnum i line = Ok e ->
  match e with
  | MbReturn rc rhnd' =>
      rc = CREDIS_ERR_PROTOCOL h /\
      mb_len (reply_multibulk (reply rhnd')) =
      mb_len (reply_multibulk (reply rhnd))
  | MbDone bnum' i' rhnd' =>
      bnum - bnum' = i' - i /\ i <= i' /\
      mb_len (reply_multibulk (reply rhnd')) =
      mb_len (reply_multibulk (reply rhnd))
  end.
Proof.
  revert rhnd bnum i line.
  induction rounds as [|rounds IH]; intros rhnd bnum i line; [done|].
  cbn [cr_receivemultibulk_loop].
  destruct (decide (bnum = 0)).
  { intros [= <-]. split_and!; [lia..|done]. }
  destruct (cr_readln rhnd 0 line) as [[[rc line1] rhnd1]| |] eqn:H1;
    [|done..]. cbn.
  apply cr_readln_budget in H1 as (_ & _ & Hr1).
  destruct (decide (rc > 0)).
  2: { intros [= <-]. split_and!; [lia..|by rewrite Hr1]. }
  destruct line1 as [p|]; [|done]. cbn.
  destruct (peek _ p) as [c|]; [|done]. cbn.
  destruct (negb _).
  { intros [= <-]. by rewrite Hr1. }
  destruct (atoi_at rhnd1 (Some (p + 1))) as [blen| |]; [|done..]. cbn.
  destruct (decide (blen = -1)).
  - destruct (store_bulk rhnd1 i None) as [rhnd2| |] eqn:H2; [|done..]. cbn.
    apply store_bulk_frame in H2 as (_ & _ & Hr2).
    destruct (decide (bnum = INT_MIN)); [done|].
    intros He. apply IH in He. rewrite Hr2, Hr1 in He.
    destruct e; [done|]. lia.
  - destruct (cr_readln rhnd1 blen (Some (p + 1)))
      as [[[rc2 line2] rhnd2]| |] eqn:H2; [|done..]. cbn.
    apply cr_readln_budget in H2 as (_ & _ & Hr2).
    destruct (decide (rc2 <> blen)).
    { intros [= <-]. by rewrite Hr2, Hr1. }
    destruct (store_bulk rhnd2 i line2) as [rhnd3| |] eqn:H3; [|done..]. cbn.
    apply store_bulk_frame in H3 as (_ & _ & Hr3).
    destruct (decide (bnum = INT_MIN)); [done|].
    intros He. apply IH in He. rewrite Hr3, Hr2, Hr1 in He.
    destruct e; [done|]. lia.
Qed.

(** Whenever [cr_receivemultibulk] returns, it returns [0] with
    [multibulk.len] equal to the count of the reply, which is then not
    negative, or [CREDIS_ERR_PROTOCOL] with [multibulk.len] as it was. *)
Lemma cr_receivemultibulk_outcome (rhnd rhnd' : cr_redis) (line : ptr)
    (rc : Z) :
  cr_receivemultibulk h rhnd line = Ok (rc, rhnd') ->
  exists K,
    atoi_at rhnd line = Ok K /\
    ((rc = 0 /\ 0 <= K /\ mb_len (reply_multibulk (reply rhnd')) = K) \/
     (rc = CREDIS_ERR_PROTOCOL h /\
      mb_len (reply_multibulk (reply rhnd')) =
      mb_len (reply_multibulk (reply rhnd)))).
Proof.
  unfold cr_receivemultibulk.
  destruct (atoi_at rhnd line) as [K| |]; [|done..]. cbn.
  set (rhnd0 := if decide _ then _ else _).
  assert (mb_len (reply_multibulk (reply rhnd0)) =
          mb_len (reply_multibulk (reply rhnd))) as H0.
  { subst rhnd0. by destruct (decide _). }
  destruct (cr_receivemultibulk_loop _ _ _ _ _ _) as [e| |] eqn:He;
    [|done..]. cbn.
  apply cr_receivemultibulk_loop_count in He. rewrite H0 in He.
  intros Hres. exists K. split; [done|]. revert Hres.
  destruct e as [rc' r|b j r].
  - intros [= <- <-]. by right.
  - destruct He as (Hcount & Hj & Hlen). destruct (decide (b <> 0)).
    + intros [= <- <-]. by right.
    + intros [= <- <-]. left. cbn. split_and!; [done|lia..].
Qed.

End assembler_outcome.

(** ** Reading numbers and lines out of the buffer *)

Lemma digits_app_NUL (s r : list ascii) (acc : Z) :
  digits acc (s ++ NUL :: r) = digits acc s.
Proof.
  revert acc. induction s as [|c s IH]; intros acc; [done|].
  cbn. by destruct (isdigit c).
Qed.

Lemma skip_space_app_NUL (s r : list ascii) :
  skip_space (s ++ NUL :: r) = skip_space s ++ NUL :: r.
Proof.
  induction s as [|c s IH]; [done|].
  cbn. by destruct (isspace c).
Qed.

(** [strtol] does not read beyond the [NUL] that ends a string. *)
Lemma strtol_value_app_NUL (s r : list ascii) :
  strtol_value (s ++ NUL :: r) = strtol_value s.
Proof.
  unfold strtol_value. rewrite skip_space_app_NUL.
  destruct (skip_space s) as [|c t]; [done|].
  cbn [app]. destruct (Ascii.eqb c "-"); [by rewrite digits_app_NUL|].
  destruct (Ascii.eqb c "+"); [by rewrite digits_app_NUL|].
  by rewrite app_comm_cons, digits_app_NUL.
Qed.

Lemma atoi_at_text (rhnd : cr_redis) (p : nat) (s r : list ascii) (v : Z) :
  drop p (buf_data (buf rhnd)) = s ++ NUL :: r ->
  strtol_value s = v -> INT_MIN <= v <= INT_MAX ->
  atoi_at rhnd (Some (Z.of_nat p)) = Ok v.
Proof.
  intros Hs Hv Hrange. unfold atoi_at, atoi. cbn.
  rewrite str_at_nat, Hs, strtol_value_app_NUL, Hv.
  by destruct (decide _).
Qed.

Lemma cr_findnl_loop_hit (l : list ascii) (m pre post : list ascii)
    (n : nat) :
  m = pre ++ l ++ CR :: LF :: post -> CR ∉ l -> (length l < n)%nat ->
  snd (cr_findnl_loop m (Z.of_nat (length pre)) n)
  = Found (Z.of_nat (length pre + length l)).
Proof.
  revert pre n. induction l as [|c l IH]; intros pre n -> Hcr Hn.
  - destruct n as [|n]; [cbn in Hn; lia|].
    cbn [cr_findnl_loop]. rewrite peek_nat.
    rewrite lookup_app_r, Nat.sub_diag by lia. cbn.
    replace (Z.of_nat (length pre) + 1) with (Z.of_nat (S (length pre)))
      by lia.
    rewrite peek_nat, lookup_app_r by lia.
    replace (S (length pre) - length pre)%nat with 1%nat by lia. cbn.
    by rewrite Nat.add_0_r.
  - destruct n as [|n]; [cbn in Hn; lia|].
    apply not_elem_of_cons in Hcr as [Hc Hcr].
    cbn [cr_findnl_loop]. rewrite peek_nat.
    rewrite lookup_app_r, Nat.sub_diag by lia. cbn.
    apply not_eq_sym, Ascii.eqb_neq in Hc. rewrite Hc.
    specialize (IH (pre ++ [c]) n).
    rewrite length_app in IH. cbn in IH.
    replace (Z.of_nat (length pre) + 1)
      with (Z.of_nat (length pre + 1)) by lia.
    destruct (cr_findnl_loop _ (Z.of_nat (length pre + 1)) n) as [t r].
    cbn [snd] in *. rewrite IH; [|by rewrite <- app_assoc|done|cbn in Hn; lia].
    f_equal. cbn. lia.
Qed.

(** [cr_readln] on a buffer that holds, from [idx] on, [start] bytes to
    skip, a line [l] and its delimiter. *)
Lemma cr_readln_line_at (rhnd : cr_redis) (pre skipped l post : list ascii)
    (line : ptr) :
  let b := buf rhnd in
  buf_data b = pre ++ skipped ++ l ++ CR :: LF :: post ->
  buf_idx b = Z.of_nat (length pre) ->
  Z.of_nat (length pre + length skipped + length l + 2) <= buf_len b ->
  CR ∉ l ->
  cr_readln rhnd (Z.of_nat (length skipped)) line =
  Ok (Z.of_nat (length skipped + length l), Some (buf_idx b),
      with_buf rhnd
        (Cr_buffer (pre ++ skipped ++ l ++ NUL :: LF :: post)
           (Z.of_nat (length pre + length skipped + length l + 2))
           (buf_len b) (buf_size b))).
Proof.
  intros b Hdata Hidx Hlen Hcr. unfold cr_readln.
  rewrite cr_readln_fill_buffered by (fold b; lia). cbn. fold b.
  unfold cr_findnl, cr_findnl_trace, cr_findnl_rounds.
  destruct (decide _) as [_|?]; [|lia].
  rewrite Hidx. rewrite <- Nat2Z.inj_add, <- length_app.
  rewrite (cr_findnl_loop_hit l _ (pre ++ skipped) post);
    [|by rewrite Hdata, <- app_assoc|done|lia].
  rewrite poke_nat by (rewrite Hdata, !length_app; cbn; lia).
  assert (<[(length (pre ++ skipped) + length l)%nat := NUL]> (buf_data b)
          = pre ++ skipped ++ l ++ NUL :: LF :: post) as ->.
  { rewrite Hdata, (app_assoc pre skipped), (app_assoc (pre ++ skipped) l).
    rewrite <- length_app, insert_app_r_alt, Nat.sub_diag by lia.
    cbn. by rewrite <- !app_assoc. }
  cbn. repeat f_equal; rewrite ?length_app; lia.
Qed.

(** ** Assembling well-formed entries that are in the buffer *)

Lemma as_read_length (e : wire_bulk) : length (as_read e) = length (on_wire e).
Proof.
  unfold as_read, on_wire. destruct (wb_payload e); cbn;
    rewrite !length_app; cbn; rewrite ?length_app; done.
Qed.

Lemma entry_ptrs_length (base : nat) (es : list wire_bulk) :
  length (entry_ptrs base es) = length es.
Proof. revert base. induction es; intros; cbn; [done|by rewrite IHes]. Qed.

Lemma take_S_insert {A : Type} (l : list A) (i : nat) (x : A) :
  (i < length l)%nat -> take (S i) (<[i := x]> l) = take i l ++ [x].
Proof.
  intros Hi. rewrite (take_S_r _ _ x) by by apply list_lookup_insert_eq.
  by rewrite take_insert_ge by lia.
Qed.

Local Ltac list_norm :=
  repeat (rewrite <- app_assoc || (progress cbn [app fmap list_fmap concat])).

Section assembly.
Variable h : credis_h.

(** The length line of an entry. *)
Lemma cr_readln_length_line (rhnd : cr_redis) (pre text rest : list ascii)
    (line : ptr) (v : Z) :
  let b := buf rhnd in
  buf_data b = pre ++ CR_BULK :: text ++ CR :: LF :: rest ->
  buf_idx b = Z.of_nat (length pre) ->
  Z.of_nat (length pre + length text + 3) <= buf_len b ->
  CR ∉ text -> strtol_value text = v -> INT_MIN <= v <= INT_MAX ->
  exists rhnd1,
    cr_readln rhnd 0 line
    = Ok (Z.of_nat (S (length text)), Some (Z.of_nat (length pre)), rhnd1) /\
    peek (buf_data (buf rhnd1)) (Z.of_nat (length pre)) = Some CR_BULK /\
    atoi_at rhnd1 (Some (Z.of_nat (length pre) + 1)) = Ok v /\
    fd rhnd1 = fd rhnd /\ reply rhnd1 = reply rhnd /\
    buf rhnd1
    = Cr_buffer (pre ++ CR_BULK :: text ++ NUL :: LF :: rest)
        (Z.of_nat (length pre + length text + 3)) (buf_len b) (buf_size b).
Proof.
  intros b Hdata Hidx Hlen Hcr Hv Hint. eexists. split_and!.
  - pose proof (cr_readln_line_at rhnd pre [] (CR_BULK :: text) rest line)
      as H1.
    cbn [length app] in H1. change (Z.of_nat 0) with 0 in H1. fold b in H1.
    rewrite H1; [|done|done|lia|].
    + rewrite Hidx. cbn.
      by replace (length pre + 0 + S (length text) + 2)%nat
        with (length pre + length text + 3)%nat by lia.
    + apply not_elem_of_cons. split; [done|exact Hcr].
  - rewrite peek_nat. cbn. by rewrite lookup_app_r, Nat.sub_diag by lia.
  - replace (Z.of_nat (length pre) + 1) with (Z.of_nat (S (length pre)))
      by lia.
    apply (atoi_at_text _ _ text (LF :: rest)); [|done..].
    cbn. by rewrite drop_app_ge, (Nat.sub_succ_l _ _ (Nat.le_refl _)),
      Nat.sub_diag by lia.
  - done.
  - done.
  - done.
Qed.

Lemma cr_receivemultibulk_loop_assembles (es : list wire_bulk) :
  forall (rounds : nat) (rhnd : cr_redis) (pre post : list ascii) (i : nat)
         (line : ptr),
  let b := buf rhnd in
  let bulks := mb_bulks (reply_multibulk (reply rhnd)) in
  buf_data b = pre ++ concat (on_wire <$> es) ++ post ->
  buf_idx b = Z.of_nat (length pre) ->
  Z.of_nat (length pre + length (concat (on_wire <$> es))) <= buf_len b ->
  Forall wire_bulk_ok es ->
  (i + length es <= length bulks)%nat ->
  (length es < rounds)%nat ->
  exists rhnd',
    cr_receivemultibulk_loop h rounds rhnd (Z.of_nat (length es))
      (Z.of_nat i) line
    = Ok (MbDone 0 (Z.of_nat (i + length es)) rhnd') /\
    fd rhnd' = fd rhnd /\
    buf_data (buf rhnd') = pre ++ concat (as_read <$> es) ++ post /\
    mb_bulks (reply_multibulk (reply rhnd'))
    = take i bulks ++ entry_ptrs (length pre) es
      ++ drop (i + length es) bulks.
Proof.
  induction es as [|e es IH];
    intros rounds rhnd pre post i line b bulks Hdata Hidx Hlen Hok Hcap Hr;
    subst b bulks.
  { destruct rounds as [|rounds]; [cbn in Hr; lia|].
    exists rhnd. cbn. rewrite Nat.add_0_r. split_and!; [done..|].
    by rewrite take_drop. }
  destruct rounds as [|rounds]; [cbn in Hr; lia|].
  apply Forall_cons in Hok as [[Hcr He] Hok].
  cbn [length] in *. rewrite fmap_cons, concat_cons in Hdata, Hlen.
  rewrite length_app in Hlen.
  cbn [cr_receivemultibulk_loop].
  destruct (decide _) as [?|_]; [lia|].
  replace (Z.of_nat (S (length es)) - 1) with (Z.of_nat (length es)) by lia.
  replace (Z.of_nat i + 1) with (Z.of_nat (S i)) by lia.
  destruct e as [text [p|]]; cbn in Hcr, He, Hdata, Hlen.
  - (* a payload *)
    destruct He as [Hv Hint].
    rewrite !length_app in Hlen. cbn in Hlen. rewrite length_app in Hlen.
    cbn in Hlen.
    destruct (cr_readln_length_line rhnd pre text
                ((p ++ [CR; LF]) ++ concat (on_wire <$> es) ++ post) line
                (Z.of_nat (length p)))
      as (rhnd1 & H1 & Htag & Hnum & Hfd1 & Hreply1 & Hbuf1);
      [rewrite Hdata; by list_norm|done|lia|done|done|unfold INT_MIN; lia|].
    rewrite H1. cbn. destruct (decide _) as [_|?]; [|lia].
    rewrite Htag. cbn. rewrite Hnum. clear H1 Htag Hnum.
    cbn. destruct (decide _) as [?|_]; [lia|].
    pose proof (cr_readln_line_at rhnd1
                  (pre ++ CR_BULK :: text ++ [NUL; LF]) p []
                  (concat (on_wire <$> es) ++ post)
                  (Some (Z.of_nat (length pre) + 1))) as H2.
    cbn [length app] in H2. rewrite Nat.add_0_r in H2.
    rewrite Hbuf1 in H2. cbn [buf_data buf_idx buf_len buf_size] in H2.
    rewrite H2; clear H2; cycle 1.
    { by list_norm. }
    { rewrite !length_app. cbn. rewrite length_app. cbn. lia. }
    { rewrite !length_app. cbn. rewrite !length_app. cbn. lia. }
    { apply not_elem_of_nil. }
    cbn. destruct (decide _) as [?|_]; [lia|].
    set (rhnd2 := with_buf rhnd1 _).
    unfold store_bulk.
    rewrite poke_nat by (cbn; rewrite Hreply1; lia). cbn.
    destruct (decide _) as [?|_]; [unfold INT_MIN in *; lia|].
    set (rhnd3 := set_bulks rhnd2 _).
    destruct (IH rounds rhnd3
                (pre ++ CR_BULK :: text ++ [NUL; LF] ++ p ++ [NUL; LF])
                post (S i) (Some (Z.of_nat (length pre + length text + 3))))
      as (rhnd' & Hloop & Hfd & Hdata' & Hbulks').
    { cbn. by list_norm. }
    { cbn. rewrite !length_app. cbn. rewrite !length_app. cbn.
      rewrite length_app. cbn. lia. }
    { cbn. rewrite !length_app. cbn. rewrite !length_app. cbn.
      rewrite !length_app. cbn. lia. }
    { done. }
    { cbn. rewrite Hreply1, length_insert. lia. }
    { lia. }
    exists rhnd'. rewrite Hloop. split_and!.
    + do 3 f_equal. lia.
    + by rewrite Hfd.
    + rewrite Hdata'. cbn. by list_norm.
    + rewrite Hbulks'. cbn. rewrite Hreply1.
      rewrite take_S_insert by lia. rewrite drop_insert_lt by lia.
      rewrite <- !app_assoc. cbn. unfold entry_ptr. cbn.
      repeat f_equal.
      * rewrite !length_app. cbn. rewrite !length_app. cbn.
        rewrite !length_app. cbn. lia.
      * lia.
  - (* no payload *)
    rewrite !length_app in Hlen. cbn in Hlen.
    destruct (cr_readln_length_line rhnd pre text
                (concat (on_wire <$> es) ++ post) line (-1))
      as (rhnd1 & H1 & Htag & Hnum & Hfd1 & Hreply1 & Hbuf1);
      [rewrite Hdata; by list_norm|done|lia|done|done|done|].
    rewrite H1. cbn. destruct (decide _) as [_|?]; [|lia].
    rewrite Htag. cbn. rewrite Hnum. clear H1 Htag Hnum.
    cbn. destruct (decide _) as [_|?]; [|lia].
    unfold store_bulk.
    rewrite poke_nat by (rewrite Hreply1; lia). cbn.
    destruct (decide _) as [?|_]; [unfold INT_MIN in *; lia|].
    set (rhnd2 := set_bulks rhnd1 _).
    destruct (IH rounds rhnd2 (pre ++ CR_BULK :: text ++ [NUL; LF])
                post (S i) (Some (Z.of_nat (length pre) + 1)))
      as (rhnd' & Hloop & Hfd & Hdata' & Hbulks').
    { cbn. rewrite Hbuf1. cbn. by list_norm. }
    { cbn. rewrite Hbuf1. cbn. rewrite !length_app. cbn.
      rewrite length_app. cbn. lia. }
    { cbn. rewrite Hbuf1. cbn. rewrite !length_app. cbn.
      rewrite !length_app. cbn. lia. }
    { done. }
    { cbn. rewrite Hreply1, length_insert. lia. }
    { lia. }
    exists rhnd'. rewrite Hloop. split_and!.
    + do 3 f_equal. lia.
    + by rewrite Hfd.
    + rewrite Hdata'. cbn. by list_norm.
    + rewrite Hbulks'. cbn. rewrite Hreply1.
      rewrite take_S_insert by lia. rewrite drop_insert_lt by lia.
      rewrite <- !app_assoc. cbn. unfold entry_ptr. cbn.
      repeat f_equal.
      * rewrite !length_app. cbn. rewrite !length_app. cbn. lia.
      * lia.
Qed.

End assembly.

Lemma find_crlf_cons_ne (c : ascii) (s : list ascii) :
  c <> CR -> find_crlf (c :: s) = S <$> find_crlf s.
Proof.
  intros Hc. destruct s as [|d s]; [done|].
  rewrite find_crlf_cons. apply Ascii.eqb_neq in Hc. by rewrite Hc.
Qed.

Lemma find_crlf_line (l r : list ascii) :
  CR ∉ l -> find_crlf (l ++ CR :: LF :: r) = Some (length l).
Proof.
  induction l as [|c l IH]; intros Hcr; [done|].
  apply not_elem_of_cons in Hcr as [Hc Hcr].
  cbn [app]. rewrite find_crlf_cons_ne by done. by rewrite IH.
Qed.

Lemma first_line_line (l r : list ascii) :
  CR ∉ l -> first_line (l ++ CR :: LF :: r) = Some l.
Proof.
  intros Hcr. unfold first_line. rewrite find_crlf_line by done. cbn.
  by rewrite take_app_length.
Qed.

(** The entry of index [j] and where its bytes lie in the buffer. *)
Lemma entry_ptrs_lookup (es : list wire_bulk) (j : nat) (e : wire_bulk)
    (pre post : list ascii) :
  es !! j = Some e ->
  exists l1 l2,
    pre ++ concat (as_read <$> es) ++ post = l1 ++ as_read e ++ l2 /\
    entry_ptrs (length pre) es !! j = Some (entry_ptr (length l1) e).
Proof.
  revert j pre. induction es as [|e0 es IH]; intros j pre; [done|].
  destruct j as [|j]; intros Hj; cbn in Hj;
    rewrite fmap_cons, concat_cons; cbn [entry_ptrs].
  - injection Hj as ->. exists pre, (concat (as_read <$> es) ++ post).
    split; [|done]. by rewrite <- !app_assoc.
  - destruct (IH j (pre ++ as_read e0) Hj) as (l1 & l2 & Hd & Hp).
    exists l1, l2. split.
    + rewrite <- Hd. by rewrite <- !app_assoc.
    + rewrite <- Hp. by rewrite length_app, as_read_length.
Qed.

Section reply_assembly.
Variable h : credis_h.

(** The dispatcher on a multi-bulk reply that arrived whole. *)
Lemma cr_receivereply_multibulk (rhnd : cr_redis) (count : list ascii)
    (es : list wire_bulk) (fd' : list recv_event) :
  let bs := CR_MULTIBULK :: count ++ CR :: LF :: concat (on_wire <$> es) in
  let mb := reply_multibulk (reply rhnd) in
  fd rhnd = Incoming bs :: fd' ->
  Z.of_nat (length bs) <= buf_size (buf rhnd) ->
  buf_size (buf rhnd) <= Z.of_nat (length (buf_data (buf rhnd))) ->
  CR ∉ count -> strtol_value count = Z.of_nat (length es) ->
  Forall wire_bulk_ok es ->
  Z.of_nat (length es) <= mb_size mb ->
  mb_size mb <= Z.of_nat (length (mb_bulks mb)) -> mb_size mb <= INT_MAX ->
  exists rhnd',
    cr_receivereply h rhnd CR_MULTIBULK = Ok (0, rhnd') /\
    fd rhnd' = fd' /\
    mb_len (reply_multibulk (reply rhnd')) = Z.of_nat (length es) /\
    forall (j : nat) (e : wire_bulk),
      es !! j = Some e ->
      exists q,
        mb_bulks (reply_multibulk (reply rhnd')) !! j = Some q /\
        match wb_payload e with
        | None => q = None
        | Some p => holds_text rhnd' q p
        end.
Proof.
  intros bs mb Hfd Hfit Hsize Hcr Hcount Hok Hcap Hbulks Hint.
  assert (delivered rhnd bs = bs) as Hdel
    by (unfold delivered; apply take_ge; lia).
  assert (first_line (delivered rhnd bs) = Some (CR_MULTIBULK :: count))
    as Hline.
  { rewrite Hdel. subst bs. rewrite app_comm_cons.
    apply first_line_line, not_elem_of_cons. by split. }
  rewrite (cr_receivereply_first_line h _ _ _ _ _ _ Hfd Hsize Hline).
  cbn [negb andb Ascii.eqb CR_MULTIBULK CR_ERROR CR_INLINE CR_INT CR_BULK
       Bool.eqb].
  set (rhnd1 := after_first_line rhnd bs fd' (S (length count))).
  set (pre := CR_MULTIBULK :: count ++ [NUL; LF]).
  set (post := drop (length bs) (buf_data (buf rhnd))).
  assert (buf_data (buf rhnd1) = pre ++ concat (on_wire <$> es) ++ post)
    as Hdata1.
  { subst rhnd1 pre post. cbn. rewrite Hdel. subst bs.
    rewrite app_comm_cons, <- !app_assoc.
    change (S (length count)) with (length (CR_MULTIBULK :: count)).
    rewrite insert_app_r_alt, Nat.sub_diag by lia. cbn. by list_norm. }
  assert (length bs = (length pre + length (concat (on_wire <$> es)))%nat)
    as Hlenbs.
  { subst bs pre. cbn. rewrite !length_app. cbn. lia. }
  assert (reply rhnd1 = reply rhnd) as Hreply1 by done.
  assert (buf_idx (buf rhnd1) = Z.of_nat (length pre)) as Hidx1.
  { subst rhnd1 pre. cbn. rewrite length_app. cbn. lia. }
  assert (buf_len (buf rhnd1) = Z.of_nat (length bs)) as Hlen1
    by (subst rhnd1; cbn; by rewrite Hdel).
  assert (fd rhnd1 = fd') as Hfd1.
  { subst rhnd1. cbn. unfold after_recv. by rewrite Hdel, drop_all. }
  clearbody rhnd1.
  unfold cr_receivemultibulk.
  replace 1 with (Z.of_nat 1) by done.
  rewrite (atoi_at_text rhnd1 1 count
             (LF :: concat (on_wire <$> es) ++ post)
             (Z.of_nat (length es))); [|..|done|unfold INT_MIN; lia].
  2: { rewrite Hdata1. subst pre. cbn. by list_norm. }
  cbn. rewrite Hreply1. fold mb.
  destruct (decide _) as [?|_]; [lia|].
  unfold cr_receivemultibulk_rounds.
  destruct (decide _) as [_|?]; [|lia]. rewrite Nat2Z.id.
  destruct (cr_receivemultibulk_loop_assembles h es (S (length es)) rhnd1
              pre post 0 (Some (Z.of_nat 1)))
    as (rhnd' & Hloop & Hfd' & Hdata' & Hbulks');
    [done|done|lia|done|rewrite Hreply1; fold mb; lia|lia|].
  change (Z.of_nat 0) with 0 in Hloop. rewrite Hloop. cbn.
  eexists. split; [done|]. cbn. split_and!.
  - by rewrite Hfd'.
  - done.
  - intros j e Hj. rewrite Hbulks', Hreply1, take_0. cbn [app].
    destruct (entry_ptrs_lookup es j e pre post Hj) as (l1 & l2 & Hd & Hp).
    exists (entry_ptr (length l1) e). split.
    + rewrite lookup_app_l; [exact Hp|].
      rewrite entry_ptrs_length. by apply lookup_lt_Some in Hj.
    + unfold entry_ptr. destruct e as [text [p|]]; cbn; [|done].
      unfold holds_text, set_mb_len, with_reply. cbn [buf].
      assert (l1 ++ as_read (Wire_bulk text (Some p)) ++ l2
              = (l1 ++ CR_BULK :: text ++ [NUL; LF]) ++ p ++ NUL :: LF :: l2)
        as Hsplit by (unfold as_read; cbn; by list_norm).
      eexists. split; [done|]. rewrite Hdata', Hd, Hsplit.
      assert (length (l1 ++ CR_BULK :: text ++ [NUL; LF])
              = (length l1 + length text + 3)%nat) as Hl
        by (rewrite !length_app; cbn; rewrite length_app; cbn; lia).
      split.
      * rewrite str_at_nat, <- Hl, drop_app_length.
        by rewrite take_app_length.
      * rewrite <- Nat2Z.inj_add, peek_nat, <- Hl.
        rewrite lookup_app_r by lia.
        replace (_ - _)%nat with (length p) by lia.
        by rewrite lookup_app_r, Nat.sub_diag by lia.
Qed.

(** X10.  The count invariant of multi-bulk replies.  When the whole
    reply, a count line for [K] entries and [K] well-formed bulk replies,
    arrives as one chunk that fits the buffer, and [K] is at most the size of the
    array of the handle, [cr_receivereply] returns [0], [multibulk.len] is
    [K], and the entries of the array are, in the order of the wire,
    [NULL] for a reply of length [-1] and a pointer to the zero-terminated
    payload otherwise. *)
Theorem multibulk_reply_assembled (rhnd : cr_redis) (count : list ascii)
    (es : list wire_bulk) (fd' : list recv_event) :
  let bs := CR_MULTIBULK :: count ++ CR :: LF :: concat (on_wire <$> es) in
  let mb := reply_multibulk (reply rhnd) in
  fd rhnd = Incoming bs :: fd' ->
  Z.of_nat (length bs) <= buf_size (buf rhnd) ->
  buf_size (buf rhnd) <= Z.of_nat (length (buf_data (buf rhnd))) ->
  CR ∉ count -> strtol_value count = Z.of_nat (length es) ->
  Forall wire_bulk_ok es ->
  Z.of_nat (length es) <= mb_size mb ->
  mb_size mb <= Z.of_nat (length (mb_bulks mb)) -> mb_size mb <= INT_MAX ->
  exists rhnd',
    cr_receivereply h rhnd CR_MULTIBULK = Ok (0, rhnd') /\
    fd rhnd' = fd' /\
    mb_len (reply_multibulk (reply rhnd')) = Z.of_nat (length es) /\
    forall (j : nat) (e : wire_bulk),
      es !! j = Some e ->
      exists q,
        mb_bulks (reply_multibulk (reply rhnd')) !! j = Some q /\
        match wb_payload e with
        | None => q = None
        | Some p => holds_text rhnd' q p
        end.
Proof. apply cr_receivereply_multibulk. Qed.

End reply_assembly.

(** A text without carriage return, for closed texts. *)
Local Ltac no_cr :=
  let H := fresh in
  cbn; intros H;
  repeat (apply elem_of_cons in H as [H|H]; [discriminate H|]);
  by apply elem_of_nil in H.

Lemma multibulk_reply_assembled_witness :
  exists rhnd',
    cr_receivereply sample_h
      (awaiting "MGET a b"
         [Incoming (CR_MULTIBULK :: bytes "2" ++ CR :: LF ::
                    concat (on_wire <$>
                              [Wire_bulk (bytes "3") (Some (bytes "foo"));
                               Wire_bulk (bytes "-1") None]))])
      CR_MULTIBULK
    = Ok (0, rhnd') /\
    fd rhnd' = [] /\
    mb_len (reply_multibulk (reply rhnd')) = 2 /\
    forall (j : nat) (e : wire_bulk),
      [Wire_bulk (bytes "3") (Some (bytes "foo"));
       Wire_bulk (bytes "-1") None] !! j = Some e ->
      exists q,
        mb_bulks (reply_multibulk (reply rhnd')) !! j = Some q /\
        match wb_payload e with
        | None => q = None
        | Some p => holds_text rhnd' q p
        end.
Proof.
  apply (multibulk_reply_assembled sample_h _ (bytes "2")
           [Wire_bulk (bytes "3") (Some (bytes "foo"));
            Wire_bulk (bytes "-1") None] []).
  - reflexivity.
  - vm_compute. discriminate.
  - vm_compute. discriminate.
  - no_cr.
  - reflexivity.
  - repeat constructor; try no_cr; vm_compute; done.
  - vm_compute. discriminate.
  - vm_compute. discriminate.
  - vm_compute. discriminate.
Defined.

(** ** Limits of the assembler *)

(** C1: the code at the failing input.  The reply announces one bulk of
    length 0 and the peer closes the connection before the line of the
    bulk: [cr_readln] returns [0] for the end of the stream, which equals
    the declared length, and [cr_receivemultibulk] returns [0] with one
    entry, the text of the length line. *)
Theorem unread_entry_accepted (h : credis_h) :
  let rhnd :=
    awaiting "MGET k"
      [Incoming (bytes "*1" ++ CRLF ++ bytes "$0" ++ CRLF); PeerClosed] in
  exists rhnd',
    cr_receivereply h rhnd CR_MULTIBULK = Ok (0, rhnd') /\
    fd rhnd' = [] /\
    mb_len (reply_multibulk (reply rhnd')) = 1 /\
    mb_bulks (reply_multibulk (reply rhnd')) !! 0%nat = Some (Some 5) /\
    holds_text rhnd' (Some 5) (bytes "0").
Proof.
  eexists. split; [vm_compute; reflexivity|].
  split_and!; [done..|]. exists 5. vm_compute. done.
Qed.

(** The hypothesis on the size of the array in
    [cr_receivereply_multibulk]: for a count above [multibulk.size] the
    array is reallocated to [nsize] bytes, not [nsize] pointers, and an
    entry is stored outside it. *)
Example multibulk_reply_of_65_entries :
  cr_receivereply sample_h
    (awaiting "KEYS *"
       [Incoming (CR_MULTIBULK :: bytes "65" ++ CR :: LF ::
                  concat (replicate 65 (on_wire (Wire_bulk (bytes "-1") None))))])
    CR_MULTIBULK
  = Crash.
Proof. vm_compute. reflexivity. Qed.

(** The hypothesis on the single chunk in [cr_receivereply_multibulk]:
    the entries point into the receive buffer, and when the second entry
    arrives in a chunk of its own it is received over the first. *)
Example multibulk_reply_in_two_chunks :
  exists rhnd',
    cr_receivereply sample_h
      (awaiting "MGET a b"
         [Incoming (CR_MULTIBULK :: bytes "2" ++ CR :: LF ::
                    on_wire (Wire_bulk (bytes "3") (Some (bytes "foo"))));
          Incoming (on_wire (Wire_bulk (bytes "3") (Some (bytes "bar"))))])
      CR_MULTIBULK
    = Ok (0, rhnd') /\
    mb_len (reply_multibulk (reply rhnd')) = 2 /\
    take 2 (mb_bulks (reply_multibulk (reply rhnd'))) = [Some 8; Some 4] /\
    holds_text rhnd' (Some 8) (LF :: bytes "oo") /\
    holds_text rhnd' (Some 4) (bytes "bar").
Proof.
  eexists. split; [vm_compute; reflexivity|].
  split_and!; [done..| |]; eexists; vm_compute; done.
Qed.

(** * Further properties of the reply reader *)

(** ** [cr_findnl] *)

Lemma window_lookup (m : list ascii) (p len i : nat) :
  (i < len)%nat -> take len (drop p m) !! i = m !! (p + i)%nat.
Proof. intros Hi. by rewrite lookup_take_lt, lookup_drop by lia. Qed.

(** X1.  On a window of [len] bytes inside the block, [cr_findnl] returns
    the first position of the window where a carriage return is followed
    by a line feed, both inside the window, and [NULL] when there is
    none. *)
Theorem cr_findnl_first_delimiter (m : list ascii) (p len : Z) :
  0 <= p -> 0 < len -> p + len <= Z.of_nat (length m) ->
  match cr_findnl m p len with
  | Found nl =>
      p <= nl < p + len - 1 /\
      peek m nl = Some CR /\ peek m (nl + 1) = Some LF /\
      forall j, p <= j < nl ->
        ~ (peek m j = Some CR /\ peek m (j + 1) = Some LF)
  | NotFound =>
      forall j, p <= j < p + len - 1 ->
        ~ (peek m j = Some CR /\ peek m (j + 1) = Some LF)
  | OutOfBlock => False
  end.
Proof.
  intros Hp Hlen Hin. rewrite cr_findnl_window by done.
  set (w := take (Z.to_nat len) (drop (Z.to_nat p) m)).
  assert (forall i : nat, (i < Z.to_nat len)%nat ->
            w !! i = peek m (p + Z.of_nat i)) as Hw.
  { intros i Hi. subst w. rewrite window_lookup by done.
    replace (p + Z.of_nat i) with (Z.of_nat (Z.to_nat p + i)) by lia.
    by rewrite peek_nat. }
  assert (length w = Z.to_nat len) as Hlw.
  { subst w. rewrite length_take, length_drop. lia. }
  destruct (find_crlf w) as [k|] eqn:Hk.
  - pose proof (find_crlf_bound _ _ Hk) as Hb.
    destruct (find_crlf_at _ _ Hk) as [Hcr Hlf].
    rewrite Hw in Hcr, Hlf by lia.
    split_and!; [lia|lia|done| |].
    + by replace (p + Z.of_nat k + 1) with (p + Z.of_nat (S k)) by lia.
    + intros j Hj [Hc Hl].
      apply (find_crlf_first w k (Z.to_nat (j - p)) Hk); [lia|].
      rewrite !Hw by lia. split.
      * by replace (p + Z.of_nat (Z.to_nat (j - p))) with j by lia.
      * by replace (p + Z.of_nat (S (Z.to_nat (j - p)))) with (j + 1) by lia.
  - intros j Hj [Hc Hl].
    apply (find_crlf_None w (Z.to_nat (j - p)) Hk).
    rewrite !Hw by lia. split.
    + by replace (p + Z.of_nat (Z.to_nat (j - p))) with j by lia.
    + by replace (p + Z.of_nat (S (Z.to_nat (j - p)))) with (j + 1) by lia.
Qed.

Lemma cr_findnl_first_delimiter_witness :
  match cr_findnl (bytes "ab" ++ CR :: bytes "c" ++ CRLF ++ bytes "d" ++ CRLF)
          1 7 with
  | Found nl =>
      1 <= nl < 1 + 7 - 1 /\
      peek (bytes "ab" ++ CR :: bytes "c" ++ CRLF ++ bytes "d" ++ CRLF) nl
      = Some CR /\
      peek (bytes "ab" ++ CR :: bytes "c" ++ CRLF ++ bytes "d" ++ CRLF)
        (nl + 1) = Some LF /\
      forall j, 1 <= j < nl ->
        ~ (peek (bytes "ab" ++ CR :: bytes "c" ++ CRLF ++ bytes "d" ++ CRLF) j
           = Some CR /\
           peek (bytes "ab" ++ CR :: bytes "c" ++ CRLF ++ bytes "d" ++ CRLF)
             (j + 1) = Some LF)
  | NotFound =>
      forall j, 1 <= j < 1 + 7 - 1 ->
        ~ (peek (bytes "ab" ++ CR :: bytes "c" ++ CRLF ++ bytes "d" ++ CRLF) j
           = Some CR /\
           peek (bytes "ab" ++ CR :: bytes "c" ++ CRLF ++ bytes "d" ++ CRLF)
             (j + 1) = Some LF)
  | OutOfBlock => False
  end.
Proof.
  apply (cr_findnl_first_delimiter
           (bytes "ab" ++ CR :: bytes "c" ++ CRLF ++ bytes "d" ++ CRLF) 1 7).
  - lia.
  - lia.
  - vm_compute. discriminate.
Defined.

(** ** [cr_readln] *)

(** X2.  Line extraction.  When the buffer holds, from [idx] on, [start]
    bytes to skip, a line without carriage return and the delimiter, all
    of them received, [cr_readln] receives nothing, returns the number of
    bytes before the delimiter and a pointer to the first of them, has put
    a [NUL] in place of the carriage return, and has moved [idx] behind
    the delimiter.  The bytes skipped are not looked at: they may hold
    delimiters. *)
Theorem cr_readln_extracts_line (rhnd : cr_redis)
    (pre skipped l post : list ascii) (line : ptr) :
  let b := buf rhnd in
  buf_data b = pre ++ skipped ++ l ++ CR :: LF :: post ->
  buf_idx b = Z.of_nat (length pre) ->
  Z.of_nat (length pre + length skipped + length l + 2) <= buf_len b ->
  CR ∉ l ->
  exists rhnd',
    cr_readln rhnd (Z.of_nat (length skipped)) line
    = Ok (Z.of_nat (length (skipped ++ l)), Some (buf_idx b), rhnd') /\
    holds_text rhnd' (Some (buf_idx b)) (skipped ++ l) /\
    buf_idx (buf rhnd')
    = buf_idx b + Z.of_nat (length (skipped ++ l)) + 2 /\
    buf_len (buf rhnd') = buf_len b /\
    fd rhnd' = fd rhnd /\ reply rhnd' = reply rhnd.
Proof.
  intros b Hdata Hidx Hlen Hcr.
  rewrite (cr_readln_line_at rhnd pre skipped l post line Hdata Hidx Hlen Hcr).
  fold b. rewrite length_app. eexists. split; [done|].
  split_and!; [|cbn; lia|done..].
  eexists. split; [done|]. cbn. rewrite Hidx. split.
  - rewrite str_at_nat, drop_app_length, app_assoc.
    by rewrite take_app_length.
  - rewrite <- Nat2Z.inj_add, peek_nat, <- length_app, !app_assoc.
    rewrite <- (app_assoc pre skipped l).
    by rewrite list_lookup_middle.
Qed.

Lemma cr_readln_extracts_line_witness :
  let rhnd :=
    with_buf cr_new
      (Cr_buffer (bytes "$4" ++ NUL :: LF :: CR :: LF :: bytes "ab" ++ CRLF
                  ++ bytes "+OK" ++ CRLF)
         4 15 CR_BUFFER_SIZE) in
  exists rhnd',
    cr_readln rhnd 2 None = Ok (4, Some 4, rhnd') /\
    holds_text rhnd' (Some 4) (CR :: LF :: bytes "ab") /\
    buf_idx (buf rhnd') = 4 + 4 + 2 /\
    buf_len (buf rhnd') = 15 /\
    fd rhnd' = [] /\ reply rhnd' = reply cr_new.
Proof.
  intros rhnd.
  apply (cr_readln_extracts_line rhnd (bytes "$4" ++ [NUL; LF]) [CR; LF]
           (bytes "ab") (bytes "+OK" ++ CRLF) None).
  - reflexivity.
  - reflexivity.
  - vm_compute. discriminate.
  - no_cr.
Defined.

(** X3.  With [start = 0] the scan of [cr_readln] stays inside the bytes
    received and not yet consumed: every offset it reads lies in
    [[idx, len)] of the buffer as it is after the refill, if there was
    one. *)
Theorem cr_readln_scan_in_bounds (rhnd : cr_redis) (z : Z) :
  z ∈ cr_readln_reads rhnd 0 ->
  exists rhnd1,
    cr_readln_fill rhnd = Ok (None, rhnd1) /\
    buf_idx (buf rhnd1) <= z < buf_len (buf rhnd1).
Proof.
  intros Hz.
  destruct (cr_readln_fill rhnd) as [[[rc|] rhnd1]| |] eqn:Hfill;
    try (unfold cr_readln_reads in Hz; rewrite Hfill in Hz;
         by apply elem_of_nil in Hz).
  exists rhnd1. split; [done|].
  pose proof (cr_readln_reads_window rhnd rhnd1 0 z Hfill Hz). lia.
Qed.

Lemma cr_readln_scan_in_bounds_witness :
  exists rhnd1,
    cr_readln_fill (with_fd cr_new [Incoming (bytes "+OK" ++ CRLF)])
    = Ok (None, rhnd1) /\
    buf_idx (buf rhnd1) <= 3 < buf_len (buf rhnd1).
Proof.
  apply (cr_readln_scan_in_bounds
           (with_fd cr_new [Incoming (bytes "+OK" ++ CRLF)]) 3).
  vm_compute. do 3 apply list_elem_of_further. apply list_elem_of_here.
Defined.

(** ** What every reply cycle keeps *)

Lemma same_block_refl (rhnd : cr_redis) : same_block rhnd rhnd.
Proof. done. Qed.

Lemma same_block_trans (r1 r2 r3 : cr_redis) :
  same_block r1 r2 -> same_block r2 r3 -> same_block r1 r3.
Proof. unfold same_block. intros (?&?&?) (?&?&?). split_and!; congruence. Qed.

Lemma cr_readln_same_block (rhnd rhnd' : cr_redis) (start rc : Z)
    (line line' : ptr) :
  cr_readln rhnd start line = Ok (rc, line', rhnd') -> same_block rhnd rhnd'.
Proof.
  unfold cr_readln.
  destruct (cr_readln_fill rhnd) as [[early rhnd1]| |] eqn:Hfill; [|done..].
  assert (same_block rhnd rhnd1) as H1.
  { revert Hfill. unfold cr_readln_fill. destruct (decide _).
    - destruct (cr_receivedata _ _ _ _) as [[[? ?] ?]| |] eqn:Hrecv;
        [|done..].
      apply cr_receivedata_budget in Hrecv as [Hlen _]. cbn.
      repeat case_decide; intros [= <- <-]; by split_and!.
    - by intros [= <- <-]. }
  cbn. destruct early as [rc0|]; [by intros [= <- <- <-]|].
  destruct (cr_findnl _ _ _) as [nl| |]; [| |done].
  - unfold poke. destruct (decide _); [|done]. cbn.
    intros [= <- <- <-]. destruct H1 as (?&?&?).
    split_and!; cbn; [by rewrite length_insert|done..].
  - by intros [= <- <- <-].
Qed.

Lemma store_bulk_same_block (rhnd rhnd' : cr_redis) (i : Z) (line : ptr) :
  store_bulk rhnd i line = Ok rhnd' -> same_block rhnd rhnd'.
Proof.
  unfold store_bulk. destruct (poke _ _ _); [|done]. cbn.
  by intros [= <-].
Qed.

Section keeps.
Variable h : credis_h.

Lemma cr_receivemultibulk_loop_same_block (rounds : nat) (rhnd : cr_redis)
    (bnum i : Z) (line : ptr) (e : mb_exit) :
  cr_receivemultibulk_loop h rounds rhnd bnum i line = Ok e ->
  match e with
  | MbReturn _ rhnd' => same_block rhnd rhnd'
  | MbDone _ _ rhnd' => same_block rhnd rhnd'
  end.
Proof.
  revert rhnd bnum i line.
  induction rounds as [|rounds IH]; intros rhnd bnum i line; [done|].
  cbn [cr_receivemultibulk_loop].
  destruct (decide (bnum = 0)); [by intros [= <-]|].
  destruct (cr_readln rhnd 0 line) as [[[rc line1] rhnd1]| |] eqn:H1;
    [|done..]. cbn.
  apply cr_readln_same_block in H1.
  destruct (decide (rc > 0)); [|by intros [= <-]].
  destruct line1 as [p|]; [|done]. cbn.
  destruct (peek _ p) as [c|]; [|done]. cbn.
  destruct (negb _); [by intros [= <-]|].
  destruct (atoi_at rhnd1 (Some (p + 1))) as [blen| |]; [|done..]. cbn.
  destruct (decide (blen = -1)).
  - destruct (store_bulk rhnd1 i None) as [rhnd2| |] eqn:H2; [|done..]. cbn.
    apply store_bulk_same_block in H2.
    destruct (decide (bnum = INT_MIN)); [done|].
    intros He. apply IH in He.
    destruct e; eauto using same_block_trans.
  - destruct (cr_readln rhnd1 blen (Some (p + 1)))
      as [[[rc2 line2] rhnd2]| |] eqn:H2; [|done..]. cbn.
    apply cr_readln_same_block in H2.
    destruct (decide (rc2 <> blen)).
    { intros [= <-]. eauto using same_block_trans. }
    destruct (store_bulk rhnd2 i line2) as [rhnd3| |] eqn:H3; [|done..]. cbn.
    apply store_bulk_same_block in H3.
    destruct (decide (bnum = INT_MIN)); [done|].
    intros He. apply IH in He.
    destruct e; eauto using same_block_trans.
Qed.

(** The values [cr_receivereply] can return, and what it leaves of the
    handle: shared by the two theorems below. *)
Lemma cr_receivereply_cases (rhnd rhnd' : cr_redis) (recvtype : ascii)
    (rc : Z) :
  cr_receivereply h rhnd recvtype = Ok (rc, rhnd') ->
  (rc = 0 \/ rc = CREDIS_ERR_PROTOCOL h \/ rc = CREDIS_ERR_RECV h) /\
  same_block rhnd rhnd'.
Proof.
  unfold cr_receivereply.
  destruct (cr_readln _ 0 None) as [[[rc1 line1] rhnd1]| |] eqn:H1;
    [|done..]. cbn.
  apply cr_readln_same_block in H1.
  assert (same_block rhnd rhnd1) as Hb by exact H1. clear H1.
  destruct (decide (rc1 > 0)); [|intros [= <- <-]; auto].
  destruct line1 as [p|]; [|done]. cbn.
  destruct (peek _ p) as [c|]; [|done]. cbn.
  destruct (_ && _); [intros [= <- <-]; auto|].
  destruct (Ascii.eqb c CR_ERROR); [intros [= <- <-]; auto|].
  destruct (Ascii.eqb c CR_INLINE); [intros [= <- <-]; auto|].
  destruct (Ascii.eqb c CR_INT).
  { unfold cr_receiveint. cbn.
    destruct (atoi_at _ _); [|done..]. cbn. intros [= <- <-]. auto. }
  destruct (Ascii.eqb c CR_BULK).
  { unfold cr_receivebulk. cbn.
    destruct (atoi_at _ _) as [blen| |]; [|done..]. cbn.
    destruct (cr_readln _ blen _) as [[[rc2 line2] rhnd2]| |] eqn:H2;
      [|done..]. cbn.
    apply cr_readln_same_block in H2.
    destruct (decide _); intros [= <- <-];
      (split; [auto|eapply same_block_trans; [exact Hb|exact H2]]). }
  destruct (Ascii.eqb c CR_MULTIBULK); [|intros [= <- <-]; auto].
  intros Hmb. split.
  - apply cr_receivemultibulk_outcome in Hmb as (K & _ & [[-> _]|[-> _]]);
      auto.
  - revert Hmb. unfold cr_receivemultibulk.
    destruct (atoi_at _ _) as [K| |]; [|done..]. cbn.
    set (rhnd0 := if decide _ then _ else _).
    assert (same_block rhnd1 rhnd0) as H0
      by (subst rhnd0; by destruct (decide _)).
    destruct (cr_receivemultibulk_loop _ _ _ _ _ _) as [e| |] eqn:He;
      [|done..]. cbn.
    apply cr_receivemultibulk_loop_same_block in He.
    destruct e as [rc' r|b j r].
    + intros [= <- <-]. eauto using same_block_trans.
    + destruct (decide (b <> 0)); intros [= <- <-];
        eauto using same_block_trans.
Qed.

(** X4.  Whatever [cr_receivereply] receives, when it returns it returns
    [0], [CREDIS_ERR_PROTOCOL] or [CREDIS_ERR_RECV]. *)
Theorem cr_receivereply_return_values (rhnd rhnd' : cr_redis)
    (recvtype : ascii) (rc : Z) :
  cr_receivereply h rhnd recvtype = Ok (rc, rhnd') ->
  rc = 0 \/ rc = CREDIS_ERR_PROTOCOL h \/ rc = CREDIS_ERR_RECV h.
Proof. intros Hr. by apply cr_receivereply_cases in Hr as [? _]. Qed.

(** X5.  The receive buffer never grows: after a reply cycle its block has
    the length it had, and [buf.size] and [timeout] are unchanged. *)
Theorem cr_receivereply_keeps_block (rhnd rhnd' : cr_redis)
    (recvtype : ascii) (rc : Z) :
  cr_receivereply h rhnd recvtype = Ok (rc, rhnd') ->
  length (buf_data (buf rhnd')) = length (buf_data (buf rhnd)) /\
  buf_size (buf rhnd') = buf_size (buf rhnd) /\
  timeout rhnd' = timeout rhnd.
Proof. intros Hr. by apply cr_receivereply_cases in Hr as [_ ?]. Qed.

End keeps.

Lemma cr_receivereply_return_values_witness :
  let r := cr_receivereply sample_h
             (awaiting "GET k" [Incoming (bytes "$3" ++ CRLF ++ bytes "foo" ++ CRLF)])
             CR_BULK in
  exists rhnd', r = Ok (0, rhnd') /\
    (0 = 0 \/ 0 = CREDIS_ERR_PROTOCOL sample_h \/ 0 = CREDIS_ERR_RECV sample_h).
Proof.
  eexists. split; [vm_compute; reflexivity|].
  eapply (cr_receivereply_return_values sample_h
            (awaiting "GET k"
               [Incoming (bytes "$3" ++ CRLF ++ bytes "foo" ++ CRLF)])
            _ CR_BULK 0).
  vm_compute. reflexivity.
Defined.

Lemma cr_receivereply_keeps_block_witness :
  exists rhnd',
    cr_receivereply sample_h
      (awaiting "GET k" [Incoming (bytes "$3" ++ CRLF ++ bytes "foo" ++ CRLF)])
      CR_BULK = Ok (0, rhnd') /\
    length (buf_data (buf rhnd')) = Z.to_nat CR_BUFFER_SIZE /\
    buf_size (buf rhnd') = CR_BUFFER_SIZE /\
    timeout rhnd' = 0.
Proof.
  eexists. split; [vm_compute; reflexivity|].
  eapply (cr_receivereply_keeps_block sample_h
            (awaiting "GET k"
               [Incoming (bytes "$3" ++ CRLF ++ bytes "foo" ++ CRLF)])
            _ CR_BULK 0).
  vm_compute. reflexivity.
Defined.

(** ** Replies of each kind *)

Lemma after_first_line_data (rhnd : cr_redis) (bs : list ascii)
    (fd' : list recv_event) (l : list ascii) :
  first_line (delivered rhnd bs) = Some l ->
  exists tail,
    delivered rhnd bs = l ++ CR :: LF :: tail /\
    buf_data (buf (after_first_line rhnd bs fd' (length l))) =
    l ++ NUL :: LF :: tail ++
      drop (length (delivered rhnd bs)) (buf_data (buf rhnd)).
Proof.
  intros Hl. apply first_line_Some in Hl as (k & Hk & -> & Hlen).
  rewrite Hlen.
  destruct (find_crlf_at _ _ Hk) as [Hcr Hlf].
  apply find_crlf_bound in Hk.
  exists (drop (S (S k)) (delivered rhnd bs)).
  assert (delivered rhnd bs =
          take k (delivered rhnd bs) ++ CR :: LF ::
            drop (S (S k)) (delivered rhnd bs)) as Hsplit.
  { rewrite <- (drop_S _ LF (S k)) by exact Hlf.
    rewrite <- (drop_S _ CR k) by exact Hcr. by rewrite take_drop. }
  split; [exact Hsplit|].
  unfold after_first_line. cbn [buf buf_data].
  rewrite Hsplit at 1. rewrite <- app_assoc.
  rewrite insert_app_r_alt by (rewrite length_take; lia).
  rewrite length_take, Nat.min_l, Nat.sub_diag by lia.
  reflexivity.
Qed.

Lemma after_first_line_holds_text (rhnd : cr_redis) (bs : list ascii)
    (fd' : list recv_event) (t : ascii) (text : list ascii) :
  first_line (delivered rhnd bs) = Some (t :: text) ->
  holds_text (after_first_line rhnd bs fd' (S (length text))) (Some 1) text.
Proof.
  intros Hl.
  destruct (after_first_line_data rhnd bs fd' _ Hl) as (tail & _ & Hdata).
  cbn [length] in Hdata.
  exists 1. split; [done|]. rewrite Hdata.
  change 1 with (Z.of_nat 1). rewrite str_at_nat.
  rewrite <- Nat2Z.inj_add, peek_nat. cbn [drop app Nat.add].
  rewrite drop_0. split; [by rewrite take_app_length|].
  by apply (list_lookup_middle (t :: text)).
Qed.

Lemma after_first_line_number (rhnd : cr_redis) (bs : list ascii)
    (fd' : list recv_event) (t : ascii) (text : list ascii) :
  first_line (delivered rhnd bs) = Some (t :: text) ->
  INT_MIN <= strtol_value text <= INT_MAX ->
  atoi_at (after_first_line rhnd bs fd' (S (length text))) (Some 1)
  = Ok (strtol_value text).
Proof.
  intros Hl Hv.
  destruct (after_first_line_data rhnd bs fd' _ Hl) as (tail & _ & Hdata).
  cbn [length] in Hdata.
  apply (atoi_at_text _ 1 text
           (LF :: tail ++
              drop (length (delivered rhnd bs)) (buf_data (buf rhnd))));
    [|done..].
  by rewrite Hdata.
Qed.

Section replies.
Variable h : credis_h.

(** X6.  A status reply: when the caller expects one and the first line
    of the chunk received is [+text], [cr_receivereply] returns [0] with
    [reply.line] at the zero-terminated [text]; the other fields of the
    reply keep their values. *)
Theorem status_reply_received (rhnd : cr_redis) (bs : list ascii)
    (fd' : list recv_event) (text : list ascii) :
  fd rhnd = Incoming bs :: fd' ->
  buf_size (buf rhnd) <= Z.of_nat (length (buf_data (buf rhnd))) ->
  first_line (delivered rhnd bs) = Some (CR_INLINE :: text) ->
  exists rhnd',
    cr_receivereply h rhnd CR_INLINE = Ok (0, rhnd') /\
    holds_text rhnd' (reply_line (reply rhnd')) text /\
    reply_integer (reply rhnd') = reply_integer (reply rhnd) /\
    reply_bulk (reply rhnd') = reply_bulk (reply rhnd) /\
    reply_multibulk (reply rhnd') = reply_multibulk (reply rhnd).
Proof.
  intros Hfd Hsize Hl.
  rewrite (cr_receivereply_first_line h rhnd CR_INLINE bs fd' CR_INLINE text)
    by done.
  cbn. eexists. split; [reflexivity|].
  split; [|done].
  apply (after_first_line_holds_text rhnd bs fd' CR_INLINE text Hl).
Qed.

(** X7.  An integer reply: when the caller expects one and the first line
    of the chunk received is [:text], [cr_receivereply] returns [0] with
    [reply.integer] the number [strtol] reads off [text], which is [0] for
    a text that starts with no number; the other fields of the reply keep
    their values. *)
Theorem integer_reply_received (rhnd : cr_redis) (bs : list ascii)
    (fd' : list recv_event) (text : list ascii) :
  fd rhnd = Incoming bs :: fd' ->
  buf_size (buf rhnd) <= Z.of_nat (length (buf_data (buf rhnd))) ->
  first_line (delivered rhnd bs) = Some (CR_INT :: text) ->
  INT_MIN <= strtol_value text <= INT_MAX ->
  exists rhnd',
    cr_receivereply h rhnd CR_INT = Ok (0, rhnd') /\
    reply_integer (reply rhnd') = strtol_value text /\
    reply_line (reply rhnd') = reply_line (reply rhnd) /\
    reply_bulk (reply rhnd') = reply_bulk (reply rhnd) /\
    reply_multibulk (reply rhnd') = reply_multibulk (reply rhnd).
Proof.
  intros Hfd Hsize Hl Hv.
  rewrite (cr_receivereply_first_line h rhnd CR_INT bs fd' CR_INT text)
    by done.
  cbn. unfold cr_receiveint. cbn.
  rewrite (after_first_line_number rhnd bs fd' CR_INT text Hl Hv). cbn.
  eexists. split; [reflexivity|]. done.
Qed.

(** The dispatcher on a bulk reply that arrived whole. *)
Lemma cr_receivereply_bulk (rhnd : cr_redis) (bs : list ascii)
    (fd' : list recv_event) (text payload rest : list ascii) :
  fd rhnd = Incoming bs :: fd' ->
  buf_size (buf rhnd) <= Z.of_nat (length (buf_data (buf rhnd))) ->
  delivered rhnd bs
  = CR_BULK :: text ++ CR :: LF :: payload ++ CR :: LF :: rest ->
  CR ∉ text ->
  strtol_value text = Z.of_nat (length payload) ->
  Z.of_nat (length payload) <= INT_MAX ->
  exists rhnd',
    cr_receivereply h rhnd CR_BULK = Ok (0, rhnd') /\
    holds_text rhnd' (reply_bulk (reply rhnd')) payload /\
    reply_integer (reply rhnd') = reply_integer (reply rhnd) /\
    reply_line (reply rhnd') = reply_line (reply rhnd) /\
    reply_multibulk (reply rhnd') = reply_multibulk (reply rhnd).
Proof.
  intros Hfd Hsize Hchunk Hcr Hv Hmax.
  assert (first_line (delivered rhnd bs) = Some (CR_BULK :: text)) as Hl.
  { rewrite Hchunk.
    apply (first_line_line (CR_BULK :: text)).
    rewrite not_elem_of_cons. by split. }
  rewrite (cr_receivereply_first_line h rhnd CR_BULK bs fd' CR_BULK text)
    by done.
  cbn.
  destruct (after_first_line_data rhnd bs fd' _ Hl)
    as (tail & Htail & Hdata).
  rewrite Hchunk in Htail. cbn [app] in Htail.
  injection Htail as Htail. apply app_inv_head in Htail.
  injection Htail as Htail. subst tail.
  cbn [length] in Hdata.
  unfold cr_receivebulk. cbn.
  rewrite (after_first_line_number rhnd bs fd' CR_BULK text Hl)
    by (rewrite Hv; unfold INT_MIN; lia).
  cbn. rewrite Hv.
  set (rhnd1 := after_first_line rhnd bs fd' (S (length text))) in *.
  set (stale := drop (length (delivered rhnd bs)) (buf_data (buf rhnd)))
    in *.
  assert (buf_idx (buf rhnd1) = Z.of_nat (S (length text)) + 2) as Hidx
    by done.
  assert (buf_len (buf rhnd1) = Z.of_nat (length (delivered rhnd bs)))
    as Hlen by done.
  assert (reply rhnd1 = reply rhnd) as Hreply by done.
  clearbody rhnd1 stale.
  pose proof (cr_readln_line_at rhnd1 (CR_BULK :: text ++ [NUL; LF])
                payload [] (rest ++ stale) (Some 1)) as Hline.
  cbn zeta in Hline. rewrite Nat.add_0_r in Hline.
  rewrite Hline; clear Hline.
  - cbn. rewrite decide_True by lia. eexists. split; [reflexivity|].
    cbn. rewrite Hreply. split; [|done].
    exists (buf_idx (buf rhnd1)). split; [done|]. rewrite Hidx.
    replace (Z.of_nat (S (length text)) + 2)
      with (Z.of_nat (length (CR_BULK :: text ++ [NUL; LF])))
      by (cbn [length]; rewrite length_app; cbn [length]; lia).
    rewrite str_at_nat, <- Nat2Z.inj_add, peek_nat.
    unfold with_reply, with_buf. cbn [buf buf_data].
    change (CR_BULK :: (text ++ [NUL; LF]) ++
              payload ++ NUL :: LF :: rest ++ stale)
      with ((CR_BULK :: text ++ [NUL; LF]) ++
              payload ++ NUL :: LF :: rest ++ stale).
    rewrite drop_app_length. split; [by rewrite take_app_length|].
    rewrite app_assoc. apply list_lookup_middle. by rewrite length_app.
  - rewrite Hdata. cbn. by rewrite <- !app_assoc.
  - rewrite Hidx. cbn [length]. rewrite length_app. cbn [length]. lia.
  - rewrite Hlen, Hchunk. cbn [length].
    rewrite !length_app. cbn [length]. rewrite !length_app. cbn [length].
    lia.
  - apply not_elem_of_nil.
Qed.

(** X8.  A bulk reply: when the caller expects one and the chunk received
    starts with [$text], a delimiter, [payload] and a delimiter, where
    [text] reads as the length of [payload], [cr_receivereply] returns [0]
    with [reply.bulk] at the zero-terminated [payload], whatever bytes the
    payload is made of; the other fields of the reply keep their values. *)
Theorem bulk_reply_received (rhnd : cr_redis) (bs : list ascii)
    (fd' : list recv_event) (text payload rest : list ascii) :
  fd rhnd = Incoming bs :: fd' ->
  buf_size (buf rhnd) <= Z.of_nat (length (buf_data (buf rhnd))) ->
  delivered rhnd bs
  = CR_BULK :: text ++ CR :: LF :: payload ++ CR :: LF :: rest ->
  CR ∉ text ->
  strtol_value text = Z.of_nat (length payload) ->
  Z.of_nat (length payload) <= INT_MAX ->
  exists rhnd',
    cr_receivereply h rhnd CR_BULK = Ok (0, rhnd') /\
    holds_text rhnd' (reply_bulk (reply rhnd')) payload /\
    reply_integer (reply rhnd') = reply_integer (reply rhnd) /\
    reply_line (reply rhnd') = reply_line (reply rhnd) /\
    reply_multibulk (reply rhnd') = reply_multibulk (reply rhnd).
Proof. apply cr_receivereply_bulk. Qed.

(** X9.  A reply whose first line is not complete in the bytes the first
    [recv] delivers is not waited for: [cr_receivereply] returns
    [CREDIS_ERR_RECV] after that one [recv], whatever reply the caller
    expects, and leaves the reply untouched. *)
Theorem incomplete_first_line_is_recv_error (rhnd : cr_redis)
    (recvtype : ascii) (bs : list ascii) (fd' : list recv_event) :
  fd rhnd = Incoming bs :: fd' ->
  bs <> [] -> 0 < buf_size (buf rhnd) ->
  buf_size (buf rhnd) <= Z.of_nat (length (buf_data (buf rhnd))) ->
  find_crlf (delivered rhnd bs) = None ->
  exists rhnd',
    cr_receivereply h rhnd recvtype = Ok (CREDIS_ERR_RECV h, rhnd') /\
    fd rhnd' = after_recv (length (delivered rhnd bs)) bs fd' /\
    reply rhnd' = reply rhnd.
Proof.
  intros Hfd Hbs Hpos Hsize Hnone.
  pose proof (delivered_length rhnd bs) as Hn.
  assert (0 < length (delivered rhnd bs) <= length (buf_data (buf rhnd)))%nat
    as Hrange.
  { destruct bs; [done|]. cbn [length] in Hn. lia. }
  unfold cr_receivereply.
  pose proof (cr_readln_fill_incoming (reset_buffer rhnd) bs fd') as Hfill.
  cbn zeta in Hfill. cbn [reset_buffer with_buf buf buf_size buf_data buf_len
    buf_idx fd timeout reply] in Hfill.
  rewrite <- Hn in Hfill.
  specialize (Hfill Hfd (or_introl eq_refl) Hrange).
  rewrite (cr_readln_scan _ _ 0 None Hfill); cbn [buf buf_idx buf_len buf_data];
    [|lia|lia|rewrite length_app, length_take, length_drop; lia].
  rewrite Z.sub_0_r, Nat2Z.id.
  change (Z.to_nat (0 + 0)) with 0%nat.
  rewrite drop_0, delivered_take, take_app_length, Hnone. cbn.
  rewrite decide_False by lia.
  eexists. split; [reflexivity|]. done.
Qed.

End replies.

Lemma status_reply_received_witness :
  exists rhnd',
    cr_receivereply sample_h
      (awaiting "PING" [Incoming (bytes "+PONG" ++ CRLF)]) CR_INLINE
    = Ok (0, rhnd') /\
    holds_text rhnd' (reply_line (reply rhnd')) (bytes "PONG") /\
    reply_integer (reply rhnd') = 0 /\
    reply_bulk (reply rhnd') = None /\
    reply_multibulk (reply rhnd') = reply_multibulk (reply cr_new).
Proof.
  apply (status_reply_received sample_h
           (awaiting "PING" [Incoming (bytes "+PONG" ++ CRLF)])
           (bytes "+PONG" ++ CRLF) [] (bytes "PONG")).
  - reflexivity.
  - vm_compute. discriminate.
  - vm_compute. reflexivity.
Defined.

Lemma integer_reply_received_witness :
  exists rhnd',
    cr_receivereply sample_h
      (awaiting "LLEN k" [Incoming (bytes ":-12" ++ CRLF)]) CR_INT
    = Ok (0, rhnd') /\
    reply_integer (reply rhnd') = -12 /\
    reply_line (reply rhnd') = None /\
    reply_bulk (reply rhnd') = None /\
    reply_multibulk (reply rhnd') = reply_multibulk (reply cr_new).
Proof.
  apply (integer_reply_received sample_h
           (awaiting "LLEN k" [Incoming (bytes ":-12" ++ CRLF)])
           (bytes ":-12" ++ CRLF) [] (bytes "-12")).
  - reflexivity.
  - vm_compute. discriminate.
  - vm_compute. reflexivity.
  - vm_compute. split; discriminate.
Defined.

Lemma bulk_reply_received_witness :
  exists rhnd',
    cr_receivereply sample_h
      (awaiting "GET k"
         [Incoming (bytes "$4" ++ CRLF ++ [CR; LF; "a"; "b"]%char ++ CRLF)])
      CR_BULK
    = Ok (0, rhnd') /\
    holds_text rhnd' (reply_bulk (reply rhnd')) [CR; LF; "a"; "b"]%char /\
    reply_integer (reply rhnd') = 0 /\
    reply_line (reply rhnd') = None /\
    reply_multibulk (reply rhnd') = reply_multibulk (reply cr_new).
Proof.
  apply (bulk_reply_received sample_h
           (awaiting "GET k"
              [Incoming (bytes "$4" ++ CRLF ++ [CR; LF; "a"; "b"]%char
                         ++ CRLF)])
           (bytes "$4" ++ CRLF ++ [CR; LF; "a"; "b"]%char ++ CRLF) []
           (bytes "4") [CR; LF; "a"; "b"]%char []).
  - reflexivity.
  - vm_compute. discriminate.
  - vm_compute. reflexivity.
  - no_cr.
  - reflexivity.
  - vm_compute. discriminate.
Defined.

Lemma incomplete_first_line_is_recv_error_witness :
  exists rhnd',
    cr_receivereply sample_h
      (awaiting "GET k" [Incoming (bytes "$3"); Incoming (CRLF ++ bytes "foo" ++ CRLF)])
      CR_BULK
    = Ok (CREDIS_ERR_RECV sample_h, rhnd') /\
    fd rhnd' = [Incoming (CRLF ++ bytes "foo" ++ CRLF)] /\
    reply rhnd' = reply cr_new.
Proof.
  apply (incomplete_first_line_is_recv_error sample_h
           (awaiting "GET k"
              [Incoming (bytes "$3"); Incoming (CRLF ++ bytes "foo" ++ CRLF)])
           CR_BULK (bytes "$3") [Incoming (CRLF ++ bytes "foo" ++ CRLF)]).
  - reflexivity.
  - discriminate.
  - reflexivity.
  - vm_compute. discriminate.
  - vm_compute. reflexivity.
Defined.

(** * The request layer *)

(** ** [vsnprintf] and the buffer *)

Lemma vsnprintf_fits (str : list ascii) (size : Z) (format : list ascii)
    (args : list fmt_arg) (msg : list ascii) :
  printf_output format args = Some msg ->
  Z.of_nat (length msg) < size -> size <= Z.of_nat (length str) ->
  vsnprintf str size format args
  = Ok (Z.of_nat (length msg), msg ++ NUL :: drop (S (length msg)) str).
Proof.
  intros Hmsg Hfit Hsize. unfold vsnprintf. rewrite Hmsg. cbn.
  rewrite decide_False by lia.
  rewrite Nat.min_l by lia.
  rewrite decide_True by lia.
  by rewrite firstn_all.
Qed.

Lemma vsnprintf_truncates (str : list ascii) (size : Z) (format : list ascii)
    (args : list fmt_arg) (msg : list ascii) :
  printf_output format args = Some msg ->
  0 < size <= Z.of_nat (length str) -> size <= Z.of_nat (length msg) ->
  exists data,
    vsnprintf str size format args = Ok (Z.of_nat (length msg), data).
Proof.
  intros Hmsg Hsize Hlong. unfold vsnprintf. rewrite Hmsg. cbn.
  rewrite decide_False by lia.
  rewrite decide_True by lia. eauto.
Qed.

Lemma after_send_fd (rhnd : cr_redis) (msg : list ascii) :
  fd (after_send rhnd msg) = fd rhnd.
Proof. done. Qed.

Lemma after_send_reply (rhnd : cr_redis) (msg : list ascii) :
  reply (after_send rhnd msg) = reply rhnd.
Proof. done. Qed.

Lemma after_send_delivered (rhnd : cr_redis) (msg bs : list ascii) :
  delivered (after_send rhnd msg) bs = delivered rhnd bs.
Proof. done. Qed.

Lemma after_send_block (rhnd : cr_redis) (msg : list ascii) :
  Z.of_nat (length msg) < buf_size (buf rhnd) ->
  buf_size (buf rhnd) <= Z.of_nat (length (buf_data (buf rhnd))) ->
  buf_size (buf (after_send rhnd msg))
  <= Z.of_nat (length (buf_data (buf (after_send rhnd msg)))).
Proof.
  intros Hfit Hsize. unfold after_send. cbn.
  rewrite length_app. cbn [length]. rewrite length_drop. lia.
Qed.

Section requests.
Variable h : credis_h.
Variable hs : credis_h_send.

(** ** [cr_sendfandreceive] *)

(** A request that fits the buffer and that the socket takes whole is
    followed by one reply cycle on the buffer the request was written
    to. *)
Lemma cr_sendfandreceive_sent (c : connection) (recvtype : ascii)
    (format : list ascii) (args : list fmt_arg) (msg : list ascii) :
  let b := buf (handle c) in
  printf_output format args = Some msg ->
  Z.of_nat (length msg) < buf_size b ->
  buf_size b <= Z.of_nat (length (buf_data b)) ->
  all_sent (outgoing c) (Z.of_nat (length msg)) ->
  exists out,
    cr_sendfandreceive h hs c recvtype format args =
    ('(rc, rhnd) ← cr_receivereply h (after_send (handle c) msg) recvtype;
     Ok (rc, Connection rhnd out)).
Proof.
  intros b Hmsg Hfit Hsize (ns & rest & Hout & Hall).
  unfold cr_sendfandreceive. fold b.
  rewrite (vsnprintf_fits _ _ _ _ msg) by done. cbn -[cr_receivereply].
  rewrite decide_False by lia. rewrite decide_False by lia.
  pose proof (cr_senddata_loop_all ns rest (Z.of_nat (length msg)) 0) as Hrc.
  rewrite <- Hout in Hrc. unfold cr_senddata.
  destruct (cr_senddata_loop _ _ _) as [rc out]. cbn in Hrc.
  rewrite Hrc by lia. rewrite decide_False by lia.
  by exists out.
Qed.

(** A request the socket took whole and that no reply follows before the
    deadline: [cr_sendfandreceive] returns [CREDIS_ERR_RECV], and the
    buffer still holds the text of the request, which nothing was received
    over. *)
Lemma cr_sendfandreceive_unanswered (c : connection) (recvtype : ascii)
    (format : list ascii) (args : list fmt_arg) (msg : list ascii) :
  printf_output format args = Some msg ->
  request_goes_out c msg ->
  exists c',
    cr_sendfandreceive h hs (unanswered c) recvtype format args
    = Ok (CREDIS_ERR_RECV h, c') /\
    holds_text (handle c') (Some 0) msg /\
    reply (handle c') = reply (handle c).
Proof.
  intros Hmsg (Hfit & Hsize & Hall).
  destruct (cr_sendfandreceive_sent (unanswered c) recvtype format args msg)
    as [out ->]; [done..|].
  unfold cr_receivereply, cr_readln, cr_readln_fill. cbn.
  eexists. split; [reflexivity|]. cbn. split; [|done].
  exists 0. split; [done|].
  cbn [buf buf_data].
  rewrite (str_at_nat _ 0), drop_0, Z.add_0_l, peek_nat.
  split; [by rewrite take_app_length|].
  by apply list_lookup_middle.
Qed.

(** X11.  A request that does not fit the buffer is not sent: when the
    text [vsnprintf] produces is as long as the buffer or longer,
    [cr_sendfandreceive] returns [-1]; nothing has been written to the
    socket or read from it, the reply is untouched, and [buf.len] is left
    at the length of the whole text. *)
Theorem request_too_long_is_not_sent (c : connection) (recvtype : ascii)
    (format : list ascii) (args : list fmt_arg) (msg : list ascii) :
  let b := buf (handle c) in
  printf_output format args = Some msg ->
  0 < buf_size b <= Z.of_nat (length (buf_data b)) ->
  buf_size b <= Z.of_nat (length msg) <= INT_MAX ->
  exists c',
    cr_sendfandreceive h hs c recvtype format args = Ok (-1, c') /\
    outgoing c' = outgoing c /\
    fd (handle c') = fd (handle c) /\
    reply (handle c') = reply (handle c) /\
    buf_len (buf (handle c')) = Z.of_nat (length msg).
Proof.
  intros b Hmsg Hsize Hlong.
  unfold cr_sendfandreceive. fold b.
  destruct (vsnprintf_truncates (buf_data b) (buf_size b) format args msg)
    as [data ->]; [done|done|lia|].
  cbn -[cr_receivereply].
  rewrite decide_False by lia. rewrite decide_True by lia.
  eexists. split; [reflexivity|]. done.
Qed.

(** X12.  A request the socket did not take whole before the deadline:
    [cr_sendfandreceive] returns [CREDIS_ERR_TIMEOUT], also when a part of
    the request has been sent, and does not wait for a reply. *)
Theorem send_timeout_is_reported (c : connection) (recvtype : ascii)
    (format : list ascii) (args : list fmt_arg) (msg : list ascii) :
  let b := buf (handle c) in
  printf_output format args = Some msg ->
  Z.of_nat (length msg) < buf_size b ->
  buf_size b <= Z.of_nat (length (buf_data b)) ->
  deadline_elapsed (outgoing c) (Z.of_nat (length msg)) ->
  exists c',
    cr_sendfandreceive h hs c recvtype format args
    = Ok (CREDIS_ERR_TIMEOUT hs, c') /\
    fd (handle c') = fd (handle c) /\
    reply (handle c') = reply (handle c).
Proof.
  intros b Hmsg Hfit Hsize (ns & rest & Hout & Hlt).
  unfold cr_sendfandreceive. fold b.
  rewrite (vsnprintf_fits _ _ _ _ msg) by done. cbn -[cr_receivereply].
  rewrite decide_False by lia. rewrite decide_False by lia.
  pose proof (total_nonneg ns) as Hns.
  assert (fst (cr_senddata (outgoing c) (Z.of_nat (length msg))) = total ns)
    as Hrc.
  { unfold cr_senddata. destruct Hout as [->| ->].
    - rewrite <- (app_nil_r (accepts ns)).
      rewrite cr_senddata_loop_accepts by lia. cbn.
      by destruct (decide _).
    - rewrite cr_senddata_loop_accepts by lia. cbn.
      by destruct (decide _). }
  destruct (cr_senddata _ _) as [rc out]. cbn in Hrc. subst rc.
  rewrite decide_True by lia. rewrite decide_False by lia.
  eexists. split; [reflexivity|]. done.
Qed.

(** X13.  A request during which [select] or [send] failed:
    [cr_sendfandreceive] returns [CREDIS_ERR_SEND] and does not wait for a
    reply. *)
Theorem send_failure_is_reported (c : connection) (recvtype : ascii)
    (format : list ascii) (args : list fmt_arg) (msg : list ascii) :
  let b := buf (handle c) in
  printf_output format args = Some msg ->
  Z.of_nat (length msg) < buf_size b ->
  buf_size b <= Z.of_nat (length (buf_data b)) ->
  socket_failed (outgoing c) (Z.of_nat (length msg)) ->
  exists c',
    cr_sendfandreceive h hs c recvtype format args
    = Ok (CREDIS_ERR_SEND hs, c') /\
    fd (handle c') = fd (handle c) /\
    reply (handle c') = reply (handle c).
Proof.
  intros b Hmsg Hfit Hsize (ns & e & rest & Hout & He & Hlt).
  unfold cr_sendfandreceive. fold b.
  rewrite (vsnprintf_fits _ _ _ _ msg) by done. cbn -[cr_receivereply].
  rewrite decide_False by lia. rewrite decide_False by lia.
  pose proof (total_nonneg ns) as Hns.
  assert (fst (cr_senddata (outgoing c) (Z.of_nat (length msg))) = -1)
    as Hrc.
  { unfold cr_senddata. rewrite Hout.
    rewrite cr_senddata_loop_accepts by lia. cbn.
    destruct (decide _); [|lia]. by destruct He as [->| ->]. }
  destruct (cr_senddata _ _) as [rc out]. cbn in Hrc. subst rc.
  rewrite decide_True by lia. rewrite decide_True by lia.
  eexists. split; [reflexivity|]. done.
Qed.

(** ** Commands and their replies *)

Lemma status_command (c : connection) (format : list ascii)
    (args : list fmt_arg) (msg bs : list ascii) (fd' : list recv_event)
    (text : list ascii) :
  printf_output format args = Some msg ->
  request_goes_out c msg ->
  fd (handle c) = Incoming bs :: fd' ->
  first_line (delivered (handle c) bs) = Some (CR_INLINE :: text) ->
  exists c',
    cr_sendfandreceive h hs c CR_INLINE format args = Ok (0, c') /\
    holds_text (handle c') (reply_line (reply (handle c'))) text.
Proof.
  intros Hmsg (Hfit & Hsize & Hall) Hfd Hl.
  destruct (cr_sendfandreceive_sent c CR_INLINE format args msg)
    as [out ->]; [done..|].
  rewrite (cr_receivereply_first_line h _ CR_INLINE bs fd' CR_INLINE text);
    [|done|by apply after_send_block|done].
  cbn. eexists. split; [reflexivity|].
  exact (after_first_line_holds_text (after_send (handle c) msg) bs fd'
           CR_INLINE text Hl).
Qed.

Lemma integer_command (c : connection) (format : list ascii)
    (args : list fmt_arg) (msg bs : list ascii) (fd' : list recv_event)
    (text : list ascii) :
  printf_output format args = Some msg ->
  request_goes_out c msg ->
  fd (handle c) = Incoming bs :: fd' ->
  first_line (delivered (handle c) bs) = Some (CR_INT :: text) ->
  INT_MIN <= strtol_value text <= INT_MAX ->
  exists c',
    cr_sendfandreceive h hs c CR_INT format args = Ok (0, c') /\
    reply_integer (reply (handle c')) = strtol_value text.
Proof.
  intros Hmsg (Hfit & Hsize & Hall) Hfd Hl Hv.
  destruct (cr_sendfandreceive_sent c CR_INT format args msg)
    as [out ->]; [done..|].
  rewrite (cr_receivereply_first_line h _ CR_INT bs fd' CR_INT text);
    [|done|by apply after_send_block|done].
  cbn. unfold cr_receiveint. cbn.
  rewrite (after_first_line_number (after_send (handle c) msg) bs fd' CR_INT
             text Hl Hv). cbn.
  eexists. split; [reflexivity|]. done.
Qed.

Lemma bulk_command (c : connection) (format : list ascii)
    (args : list fmt_arg) (msg bs : list ascii) (fd' : list recv_event)
    (text payload rest : list ascii) :
  printf_output format args = Some msg ->
  request_goes_out c msg ->
  fd (handle c) = Incoming bs :: fd' ->
  delivered (handle c) bs
  = CR_BULK :: text ++ CR :: LF :: payload ++ CR :: LF :: rest ->
  CR ∉ text ->
  strtol_value text = Z.of_nat (length payload) ->
  Z.of_nat (length payload) <= INT_MAX ->
  exists c',
    cr_sendfandreceive h hs c CR_BULK format args = Ok (0, c') /\
    holds_text (handle c') (reply_bulk (reply (handle c'))) payload.
Proof.
  intros Hmsg (Hfit & Hsize & Hall) Hfd Hchunk Hcr Hv Hmax.
  destruct (cr_sendfandreceive_sent c CR_BULK format args msg)
    as [out ->]; [done..|].
  destruct (cr_receivereply_bulk h (after_send (handle c) msg) bs fd'
              text payload rest)
    as (rhnd' & -> & Hp & _); [done|by apply after_send_block|done..|].
  cbn. eexists. split; [reflexivity|]. done.
Qed.

Lemma multibulk_command (c : connection) (format : list ascii)
    (args : list fmt_arg) (msg count : list ascii) (es : list wire_bulk)
    (fd' : list recv_event) :
  let rhnd := handle c in
  let bs := CR_MULTIBULK :: count ++ CR :: LF :: concat (on_wire <$> es) in
  let mb := reply_multibulk (reply rhnd) in
  printf_output format args = Some msg ->
  request_goes_out c msg ->
  fd rhnd = Incoming bs :: fd' ->
  Z.of_nat (length bs) <= buf_size (buf rhnd) ->
  CR ∉ count -> strtol_value count = Z.of_nat (length es) ->
  Forall wire_bulk_ok es ->
  Z.of_nat (length es) <= mb_size mb ->
  mb_size mb <= Z.of_nat (length (mb_bulks mb)) -> mb_size mb <= INT_MAX ->
  exists c',
    cr_sendfandreceive h hs c CR_MULTIBULK format args = Ok (0, c') /\
    mb_len (reply_multibulk (reply (handle c'))) = Z.of_nat (length es) /\
    forall (j : nat) (e : wire_bulk),
      es !! j = Some e ->
      exists q,
        mb_bulks (reply_multibulk (reply (handle c'))) !! j = Some q /\
        match wb_payload e with
        | None => q = None
        | Some p => holds_text (handle c') q p
        end.
Proof.
  intros rhnd bs mb Hmsg (Hfit & Hsize & Hall) Hfd Hbs Hcr Hv Hes H1 H2 H3.
  destruct (cr_sendfandreceive_sent c CR_MULTIBULK format args msg)
    as [out ->]; [done..|].
  destruct (cr_receivereply_multibulk h (after_send (handle c) msg) count es
              fd')
    as (rhnd' & -> & _ & Hlen & Hentries);
    [done|done|by apply after_send_block|done..|].
  cbn. eexists. split; [reflexivity|]. done.
Qed.

(** X14.  [credis_randomkey]: when the request goes out and the reply is
    the status line [+text], the function returns [0] and [*key] is left
    pointing to the zero-terminated [text]. *)
Theorem credis_randomkey_key (c : connection) (key : ptr)
    (bs : list ascii) (fd' : list recv_event) (text : list ascii) :
  request_goes_out c (bytes "RANDOMKEY" ++ CRLF) ->
  fd (handle c) = Incoming bs :: fd' ->
  first_line (delivered (handle c) bs) = Some (CR_INLINE :: text) ->
  exists key' c',
    credis_randomkey h hs c key = Ok (0, key', c') /\
    holds_text (handle c') key' text.
Proof.
  intros Hout Hfd Hl. unfold credis_randomkey.
  destruct (status_command c (bytes "RANDOMKEY" ++ CRLF) [] _ bs fd' text
              eq_refl Hout Hfd Hl) as (c' & -> & Ht).
  cbn. eexists _, c'. split; [reflexivity|]. done.
Qed.

(** X15.  [credis_get]: when the request [GET key] goes out and the reply
    is a bulk reply with [payload], the function returns [0] and [*val] is
    left pointing to the zero-terminated [payload]. *)
Theorem credis_get_value (c : connection) (key : list ascii) (val : ptr)
    (bs : list ascii) (fd' : list recv_event)
    (text payload rest : list ascii) :
  request_goes_out c (bytes "GET " ++ key ++ CRLF) ->
  fd (handle c) = Incoming bs :: fd' ->
  delivered (handle c) bs
  = CR_BULK :: text ++ CR :: LF :: payload ++ CR :: LF :: rest ->
  CR ∉ text ->
  strtol_value text = Z.of_nat (length payload) ->
  Z.of_nat (length payload) <= INT_MAX ->
  exists val' c',
    credis_get h hs c key val = Ok (0, val', c') /\
    holds_text (handle c') val' payload.
Proof.
  intros Hout Hfd Hchunk Hcr Hv Hmax. unfold credis_get, bulk_if_zero.
  destruct (bulk_command c (bytes "GET %s" ++ CRLF) [ArgStr key] _ bs fd'
              text payload rest eq_refl Hout Hfd Hchunk Hcr Hv Hmax)
    as (c' & -> & Ht).
  cbn. eexists _, c'. split; [reflexivity|]. done.
Qed.

(** X16.  [credis_exists]: when the request [EXISTS key] goes out and the
    reply is the integer line [:text], the function returns [-1] if the
    number is [0] and [0] otherwise. *)
Theorem credis_exists_result (c : connection) (key : list ascii)
    (bs : list ascii) (fd' : list recv_event) (text : list ascii) :
  request_goes_out c (bytes "EXISTS " ++ key ++ CRLF) ->
  fd (handle c) = Incoming bs :: fd' ->
  first_line (delivered (handle c) bs) = Some (CR_INT :: text) ->
  INT_MIN <= strtol_value text <= INT_MAX ->
  exists c',
    credis_exists h hs c key
    = Ok (if decide (strtol_value text = 0) then -1 else 0, c').
Proof.
  intros Hout Hfd Hl Hv. unfold credis_exists, minus_one_if_zero.
  destruct (integer_command c (bytes "EXISTS %s" ++ CRLF) [ArgStr key] _ bs
              fd' text eq_refl Hout Hfd Hl Hv) as (c' & -> & Hn).
  cbn. rewrite Hn. exists c'. rewrite (decide_True (P := 0 = 0)) by done.
  by destruct (decide _).
Qed.

(** X17.  [credis_llen]: when the request [LLEN key] goes out and the
    reply is the integer line [:text], the function returns the number
    [text] denotes, of either sign. *)
Theorem credis_llen_result (c : connection) (key : list ascii)
    (bs : list ascii) (fd' : list recv_event) (text : list ascii) :
  request_goes_out c (bytes "LLEN " ++ key ++ CRLF) ->
  fd (handle c) = Incoming bs :: fd' ->
  first_line (delivered (handle c) bs) = Some (CR_INT :: text) ->
  INT_MIN <= strtol_value text <= INT_MAX ->
  exists c', credis_llen h hs c key = Ok (strtol_value text, c').
Proof.
  intros Hout Hfd Hl Hv. unfold credis_llen, integer_if_zero.
  destruct (integer_command c (bytes "LLEN %s" ++ CRLF) [ArgStr key] _ bs
              fd' text eq_refl Hout Hfd Hl Hv) as (c' & -> & Hn).
  cbn. rewrite Hn. rewrite (decide_True (P := 0 = 0)) by done.
  by exists c'.
Qed.

(** X18.  [credis_keys]: when the request [KEYS pattern] goes out and the
    reply, a count line for [K] entries and [K] well-formed bulk replies,
    arrives as one chunk that fits the buffer, with [K] at most the size
    of the array of the handle, the function returns [K] and [*keyv] is
    left pointing to an array whose first [K] entries are, in the order of
    the wire, [NULL] for a reply of length [-1] and a pointer to the
    zero-terminated payload otherwise. *)
Theorem credis_keys_result (c : connection) (pattern : list ascii)
    (keyv : list ptr) (count : list ascii) (es : list wire_bulk)
    (fd' : list recv_event) :
  let rhnd := handle c in
  let bs := CR_MULTIBULK :: count ++ CR :: LF :: concat (on_wire <$> es) in
  let mb := reply_multibulk (reply rhnd) in
  request_goes_out c (bytes "KEYS " ++ pattern ++ CRLF) ->
  fd rhnd = Incoming bs :: fd' ->
  Z.of_nat (length bs) <= buf_size (buf rhnd) ->
  CR ∉ count -> strtol_value count = Z.of_nat (length es) ->
  Forall wire_bulk_ok es ->
  Z.of_nat (length es) <= mb_size mb ->
  mb_size mb <= Z.of_nat (length (mb_bulks mb)) -> mb_size mb <= INT_MAX ->
  exists keyv' c',
    credis_keys h hs c pattern keyv = Ok (Z.of_nat (length es), keyv', c') /\
    forall (j : nat) (e : wire_bulk),
      es !! j = Some e ->
      exists q,
        keyv' !! j = Some q /\
        match wb_payload e with
        | None => q = None
        | Some p => holds_text (handle c') q p
        end.
Proof.
  intros rhnd bs mb Hout Hfd Hbs Hcr Hv Hes H1 H2 H3.
  unfold credis_keys, multibulk_if_zero.
  destruct (multibulk_command c (bytes "KEYS %s" ++ CRLF) [ArgStr pattern] _
              count es fd' eq_refl Hout Hfd Hbs Hcr Hv Hes H1 H2 H3)
    as (c' & -> & Hlen & Hentries).
  cbn. rewrite Hlen. eexists _, c'. split; [reflexivity|]. done.
Qed.

(** X19.  [credis_incrby] with a step of at least [1].  The request is
    [INCR key] for a step of [1] and [INCRBY key step] otherwise: when it
    goes out and the reply is the integer line [:text], the function
    returns [0] and [*new_val] is the number [text] denotes; and when it
    goes out and no reply follows, the function returns
    [CREDIS_ERR_RECV] and the buffer it sent from holds that text,
    zero-terminated. *)
Theorem credis_incrby_new_value (c : connection) (key : list ascii)
    (incr_val old : Z) (bs : list ascii) (fd' : list recv_event)
    (text : list ascii) :
  1 <= incr_val ->
  request_goes_out c
    (if decide (incr_val = 1) then bytes "INCR " ++ key ++ CRLF
     else bytes "INCRBY " ++ key ++ bytes " " ++ itoa incr_val ++ CRLF) ->
  fd (handle c) = Incoming bs :: fd' ->
  first_line (delivered (handle c) bs) = Some (CR_INT :: text) ->
  INT_MIN <= strtol_value text <= INT_MAX ->
  (exists c',
     credis_incrby h hs c key incr_val (Some old)
     = Ok (0, Some (strtol_value text), c')) /\
  (exists new_val' c',
     credis_incrby h hs (unanswered c) key incr_val (Some old)
     = Ok (CREDIS_ERR_RECV h, new_val', c') /\
     holds_text (handle c') (Some 0)
       (if decide (incr_val = 1) then bytes "INCR " ++ key ++ CRLF
        else bytes "INCRBY " ++ key ++ bytes " " ++ itoa incr_val ++ CRLF)).
Proof.
  intros Hstep Hout Hfd Hl Hv. unfold credis_incrby, cr_incr.
  destruct (decide (incr_val = 1)) as [->|Hne].
  - rewrite !(decide_True (P := 1 = 1 \/ 0 = 1)) by (by left).
    rewrite !(decide_True (P := 1 > 0)) by lia.
    split.
    + destruct (integer_command c (bytes "%s %s" ++ CRLF)
                  [ArgStr (bytes "INCR"); ArgStr key] _ bs fd' text eq_refl
                  Hout Hfd Hl Hv) as (c' & -> & Hn).
      cbn. rewrite Hn. rewrite (decide_True (P := 0 = 0)) by done.
      by exists c'.
    + destruct (cr_sendfandreceive_unanswered c CR_INT
                  (bytes "%s %s" ++ CRLF)
                  [ArgStr (bytes "INCR"); ArgStr key] _ eq_refl Hout)
        as (c' & -> & Ht & _).
      cbn. eexists _, c'. split; [reflexivity|]. done.
  - rewrite !(decide_False (P := incr_val = 1 \/ 0 = 1)) by lia.
    rewrite !(decide_True (P := incr_val > 1 \/ 0 > 1)) by lia.
    rewrite !(decide_True (P := incr_val > 0)) by lia.
    split.
    + destruct (integer_command c (bytes "%s %s %d" ++ CRLF)
                  [ArgStr (bytes "INCRBY"); ArgStr key; ArgInt incr_val] _ bs
                  fd' text eq_refl Hout Hfd Hl Hv) as (c' & -> & Hn).
      cbn. rewrite Hn. rewrite (decide_True (P := 0 = 0)) by done.
      by exists c'.
    + destruct (cr_sendfandreceive_unanswered c CR_INT
                  (bytes "%s %s %d" ++ CRLF)
                  [ArgStr (bytes "INCRBY"); ArgStr key; ArgInt incr_val] _
                  eq_refl Hout)
        as (c' & -> & Ht & _).
      cbn. eexists _, c'. split; [reflexivity|]. done.
Qed.

(** X20.  [credis_incrby] and [credis_decrby] with a step below [1]: no
    request is made, and the value returned is that of a variable that was
    never assigned. *)
Theorem credis_incrby_step_below_one (c : connection) (key : list ascii)
    (step : Z) (new_val : option Z) :
  step < 1 ->
  credis_incrby h hs c key step new_val = Crash /\
  credis_decrby h hs c key step new_val = Crash.
Proof.
  intros Hstep. unfold credis_incrby, credis_decrby, cr_incr.
  rewrite !decide_False by lia. done.
Qed.

End requests.

(** ** The theorems of the request layer at sample connections *)

Local Ltac goes_out n :=
  split_and!;
  [vm_compute; reflexivity
  |vm_compute; discriminate
  |exists [n], []; split; [reflexivity|vm_compute; discriminate]].

Lemma request_too_long_is_not_sent_witness :
  exists c',
    cr_sendfandreceive sample_h sample_hs (connected [Accepts 5000] [])
      CR_BULK (bytes "GET %s" ++ CRLF) [ArgStr (replicate 4096 "a"%char)]
    = Ok (-1, c') /\
    outgoing c' = [Accepts 5000] /\
    fd (handle c') = [] /\
    reply (handle c') = reply cr_new /\
    buf_len (buf (handle c')) = 4102.
Proof.
  apply (request_too_long_is_not_sent sample_h sample_hs
           (connected [Accepts 5000] []) CR_BULK (bytes "GET %s" ++ CRLF)
           [ArgStr (replicate 4096 "a"%char)]
           (bytes "GET " ++ replicate 4096 "a"%char ++ CRLF)).
  - vm_compute. reflexivity.
  - vm_compute. split; [reflexivity|discriminate].
  - vm_compute. split; discriminate.
Defined.

Lemma send_timeout_is_reported_witness :
  exists c',
    cr_sendfandreceive sample_h sample_hs
      (connected [Accepts 4; WriteTimeout] [Incoming (bytes "+PONG" ++ CRLF)])
      CR_INLINE (bytes "PING" ++ CRLF) []
    = Ok (CREDIS_ERR_TIMEOUT sample_hs, c') /\
    fd (handle c') = [Incoming (bytes "+PONG" ++ CRLF)] /\
    reply (handle c') = reply cr_new.
Proof.
  apply (send_timeout_is_reported sample_h sample_hs
           (connected [Accepts 4; WriteTimeout]
              [Incoming (bytes "+PONG" ++ CRLF)])
           CR_INLINE (bytes "PING" ++ CRLF) [] (bytes "PING" ++ CRLF)).
  - reflexivity.
  - vm_compute. reflexivity.
  - vm_compute. discriminate.
  - exists [4%nat], []. split; [by right|vm_compute; reflexivity].
Defined.

Lemma send_failure_is_reported_witness :
  exists c',
    cr_sendfandreceive sample_h sample_hs
      (connected [Accepts 4; SendError] [Incoming (bytes "+PONG" ++ CRLF)])
      CR_INLINE (bytes "PING" ++ CRLF) []
    = Ok (CREDIS_ERR_SEND sample_hs, c') /\
    fd (handle c') = [Incoming (bytes "+PONG" ++ CRLF)] /\
    reply (handle c') = reply cr_new.
Proof.
  apply (send_failure_is_reported sample_h sample_hs
           (connected [Accepts 4; SendError]
              [Incoming (bytes "+PONG" ++ CRLF)])
           CR_INLINE (bytes "PING" ++ CRLF) [] (bytes "PING" ++ CRLF)).
  - reflexivity.
  - vm_compute. reflexivity.
  - vm_compute. discriminate.
  - exists [4%nat], SendError, [].
    split_and!; [done|by right|vm_compute; reflexivity].
Defined.

Lemma credis_randomkey_key_witness :
  exists key' c',
    credis_randomkey sample_h sample_hs
      (connected [Accepts 11] [Incoming (bytes "+mykey" ++ CRLF)]) None
    = Ok (0, key', c') /\
    holds_text (handle c') key' (bytes "mykey").
Proof.
  apply (credis_randomkey_key sample_h sample_hs
           (connected [Accepts 11] [Incoming (bytes "+mykey" ++ CRLF)]) None
           (bytes "+mykey" ++ CRLF) [] (bytes "mykey")).
  - goes_out 11%nat.
  - reflexivity.
  - vm_compute. reflexivity.
Defined.

Lemma credis_get_value_witness :
  exists val' c',
    credis_get sample_h sample_hs
      (connected [Accepts 3; Accepts 4]
         [Incoming (bytes "$3" ++ CRLF ++ bytes "foo" ++ CRLF)])
      (bytes "k") None
    = Ok (0, val', c') /\
    holds_text (handle c') val' (bytes "foo").
Proof.
  apply (credis_get_value sample_h sample_hs
           (connected [Accepts 3; Accepts 4]
              [Incoming (bytes "$3" ++ CRLF ++ bytes "foo" ++ CRLF)])
           (bytes "k") None
           (bytes "$3" ++ CRLF ++ bytes "foo" ++ CRLF) []
           (bytes "3") (bytes "foo") []).
  - split_and!;
      [vm_compute; reflexivity|vm_compute; discriminate|].
    exists [3%nat; 4%nat], [].
    split; [reflexivity|vm_compute; discriminate].
  - reflexivity.
  - vm_compute. reflexivity.
  - no_cr.
  - reflexivity.
  - vm_compute. discriminate.
Defined.

Lemma credis_exists_result_witness :
  exists c',
    credis_exists sample_h sample_hs
      (connected [Accepts 10] [Incoming (bytes ":0" ++ CRLF)]) (bytes "k")
    = Ok (-1, c').
Proof.
  apply (credis_exists_result sample_h sample_hs
           (connected [Accepts 10] [Incoming (bytes ":0" ++ CRLF)])
           (bytes "k") (bytes ":0" ++ CRLF) [] (bytes "0")).
  - goes_out 10%nat.
  - reflexivity.
  - vm_compute. reflexivity.
  - vm_compute. split; discriminate.
Defined.

Lemma credis_llen_result_witness :
  exists c',
    credis_llen sample_h sample_hs
      (connected [Accepts 8] [Incoming (bytes ":3" ++ CRLF)]) (bytes "k")
    = Ok (3, c').
Proof.
  apply (credis_llen_result sample_h sample_hs
           (connected [Accepts 8] [Incoming (bytes ":3" ++ CRLF)])
           (bytes "k") (bytes ":3" ++ CRLF) [] (bytes "3")).
  - goes_out 8%nat.
  - reflexivity.
  - vm_compute. reflexivity.
  - vm_compute. split; discriminate.
Defined.

Lemma credis_keys_result_witness :
  exists keyv' c',
    credis_keys sample_h sample_hs
      (connected [Accepts 9]
         [Incoming (CR_MULTIBULK :: bytes "2" ++ CR :: LF ::
                    concat (on_wire <$>
                              [Wire_bulk (bytes "3") (Some (bytes "foo"));
                               Wire_bulk (bytes "-1") None]))])
      (bytes "x*") []
    = Ok (2, keyv', c') /\
    forall (j : nat) (e : wire_bulk),
      [Wire_bulk (bytes "3") (Some (bytes "foo"));
       Wire_bulk (bytes "-1") None] !! j = Some e ->
      exists q,
        keyv' !! j = Some q /\
        match wb_payload e with
        | None => q = None
        | Some p => holds_text (handle c') q p
        end.
Proof.
  apply (credis_keys_result sample_h sample_hs
           (connected [Accepts 9]
              [Incoming (CR_MULTIBULK :: bytes "2" ++ CR :: LF ::
                         concat (on_wire <$>
                                   [Wire_bulk (bytes "3") (Some (bytes "foo"));
                                    Wire_bulk (bytes "-1") None]))])
           (bytes "x*") [] (bytes "2")
           [Wire_bulk (bytes "3") (Some (bytes "foo"));
            Wire_bulk (bytes "-1") None] []).
  - goes_out 9%nat.
  - reflexivity.
  - vm_compute. discriminate.
  - no_cr.
  - reflexivity.
  - repeat constructor; try no_cr; vm_compute; done.
  - vm_compute. discriminate.
  - vm_compute. discriminate.
  - vm_compute. discriminate.
Defined.

Lemma credis_incrby_new_value_witness :
  (exists c',
     credis_incrby sample_h sample_hs
       (connected [Accepts 12] [Incoming (bytes ":7" ++ CRLF)]) (bytes "k") 5
       (Some 0)
     = Ok (0, Some 7, c')) /\
  (exists new_val' c',
     credis_incrby sample_h sample_hs
       (unanswered (connected [Accepts 12] [Incoming (bytes ":7" ++ CRLF)]))
       (bytes "k") 5 (Some 0)
     = Ok (CREDIS_ERR_RECV sample_h, new_val', c') /\
     holds_text (handle c') (Some 0) (bytes "INCRBY k 5" ++ CRLF)).
Proof.
  apply (credis_incrby_new_value sample_h sample_hs
           (connected [Accepts 12] [Incoming (bytes ":7" ++ CRLF)])
           (bytes "k") 5 0 (bytes ":7" ++ CRLF) [] (bytes "7")).
  - lia.
  - goes_out 12%nat.
  - reflexivity.
  - vm_compute. reflexivity.
  - vm_compute. split; discriminate.
Defined.

Lemma credis_incrby_step_below_one_witness :
  credis_incrby sample_h sample_hs (connected [] []) (bytes "k") 0 None
  = Crash /\
  credis_decrby sample_h sample_hs (connected [] []) (bytes "k") 0 None
  = Crash.
Proof.
  apply (credis_incrby_step_below_one sample_h sample_hs (connected [] [])
           (bytes "k") 0 None).
  lia.
Defined.

(** ** Further outcomes *)

(** X21.  [cr_receivemultibulk] returns [0] only for a count that is not
    negative, and [multibulk.len] is then that count; every other return
    is [CREDIS_ERR_PROTOCOL], with [multibulk.len] left as it was. *)
Theorem cr_receivemultibulk_records_count (h : credis_h)
    (rhnd rhnd' : cr_redis) (line : ptr) (rc : Z) :
  cr_receivemultibulk h rhnd line = Ok (rc, rhnd') ->
  exists K,
    atoi_at rhnd line = Ok K /\
    ((rc = 0 /\ 0 <= K /\ mb_len (reply_multibulk (reply rhnd')) = K) \/
     (rc = CREDIS_ERR_PROTOCOL h /\
      mb_len (reply_multibulk (reply rhnd')) =
      mb_len (reply_multibulk (reply rhnd)))).
Proof. apply cr_receivemultibulk_outcome. Qed.

Lemma cr_receivemultibulk_records_count_witness :
  let rhnd :=
    after_first_line (awaiting "KEYS x*" [])
      (bytes "*1" ++ CRLF ++ bytes "$3" ++ CRLF ++ bytes "foo" ++ CRLF) [] 2 in
  exists rhnd',
    cr_receivemultibulk sample_h rhnd (Some 1) = Ok (0, rhnd') /\
    exists K,
      atoi_at rhnd (Some 1) = Ok K /\
      ((0 = 0 /\ 0 <= K /\ mb_len (reply_multibulk (reply rhnd')) = K) \/
       (0 = CREDIS_ERR_PROTOCOL sample_h /\
        mb_len (reply_multibulk (reply rhnd')) =
        mb_len (reply_multibulk (reply rhnd)))).
Proof.
  intros rhnd. eexists. split; [vm_compute; reflexivity|].
  eapply (cr_receivemultibulk_records_count sample_h rhnd _ (Some 1) 0).
  vm_compute. reflexivity.
Defined.

Section outcomes.
Variable h : credis_h.
Variable hs : credis_h_send.

(** X22.  [credis_get] and an error reply: when the request goes out and
    the reply is the error line [-text], the function returns
    [CREDIS_ERR_PROTOCOL], [*val] is not assigned, and [reply.line] is
    left at the zero-terminated [text]. *)
Theorem credis_get_error_reply (c : connection) (key : list ascii)
    (val : ptr) (bs : list ascii) (fd' : list recv_event)
    (text : list ascii) :
  CREDIS_ERR_PROTOCOL h <> 0 ->
  request_goes_out c (bytes "GET " ++ key ++ CRLF) ->
  fd (handle c) = Incoming bs :: fd' ->
  first_line (delivered (handle c) bs) = Some (CR_ERROR :: text) ->
  exists c',
    credis_get h hs c key val = Ok (CREDIS_ERR_PROTOCOL h, val, c') /\
    holds_text (handle c') (reply_line (reply (handle c'))) text.
Proof.
  intros Hne (Hfit & Hsize & Hall) Hfd Hl. unfold credis_get, bulk_if_zero.
  destruct (cr_sendfandreceive_sent h hs c CR_BULK (bytes "GET %s" ++ CRLF)
              [ArgStr key] (bytes "GET " ++ key ++ CRLF))
    as [out ->]; [done..|].
  rewrite (cr_receivereply_first_line h _ CR_BULK bs fd' CR_ERROR text);
    [|done|by apply after_send_block|done].
  cbn. rewrite decide_False by done.
  eexists. split; [reflexivity|].
  exact (after_first_line_holds_text
           (after_send (handle c) (bytes "GET " ++ key ++ CRLF)) bs fd'
           CR_ERROR text Hl).
Qed.

(** X23.  The values [cr_sendfandreceive] can return: [-1],
    [CREDIS_ERR_SEND], [CREDIS_ERR_TIMEOUT], and those of
    [cr_receivereply]: [0], [CREDIS_ERR_PROTOCOL] and [CREDIS_ERR_RECV].
    Unless it returns one of the last three, the reply and the read side
    of the socket are as they were. *)
Theorem cr_sendfandreceive_return_values (c c' : connection)
    (recvtype : ascii) (format : list ascii) (args : list fmt_arg) (rc : Z) :
  cr_sendfandreceive h hs c recvtype format args = Ok (rc, c') ->
  ((rc = -1 \/ rc = CREDIS_ERR_SEND hs \/ rc = CREDIS_ERR_TIMEOUT hs) /\
   reply (handle c') = reply (handle c) /\
   fd (handle c') = fd (handle c)) \/
  (rc = 0 \/ rc = CREDIS_ERR_PROTOCOL h \/ rc = CREDIS_ERR_RECV h).
Proof.
  unfold cr_sendfandreceive.
  destruct (vsnprintf _ _ _ _) as [[len data]| |]; [|done..].
  cbn -[cr_receivereply].
  destruct (decide (len < 0)); [intros [= <- <-]; left; auto|].
  destruct (decide (len >= _)); [intros [= <- <-]; left; auto|].
  destruct (cr_senddata _ _) as [sent out].
  destruct (decide (sent <> len)).
  { destruct (decide (sent < 0)); intros [= <- <-]; left; auto. }
  destruct (cr_receivereply _ _ _) as [[rc1 rhnd1]| |] eqn:Hr; [|done..].
  cbn. intros [= <- <-]. right.
  by apply cr_receivereply_cases in Hr as [? _].
Qed.

End outcomes.

Lemma credis_get_error_reply_witness :
  exists c',
    credis_get sample_h sample_hs
      (connected [Accepts 7] [Incoming (bytes "-ERR no such key" ++ CRLF)])
      (bytes "k") (Some 5)
    = Ok (CREDIS_ERR_PROTOCOL sample_h, Some 5, c') /\
    holds_text (handle c') (reply_line (reply (handle c')))
      (bytes "ERR no such key").
Proof.
  apply (credis_get_error_reply sample_h sample_hs
           (connected [Accepts 7]
              [Incoming (bytes "-ERR no such key" ++ CRLF)])
           (bytes "k") (Some 5) (bytes "-ERR no such key" ++ CRLF) []
           (bytes "ERR no such key")).
  - discriminate.
  - split_and!;
      [vm_compute; reflexivity|vm_compute; discriminate|].
    exists [7%nat], []. split; [reflexivity|vm_compute; discriminate].
  - reflexivity.
  - vm_compute. reflexivity.
Defined.

Lemma cr_sendfandreceive_return_values_witness :
  exists c',
    cr_sendfandreceive sample_h sample_hs
      (connected [Accepts 6] [Incoming (bytes "+PONG" ++ CRLF)])
      CR_INLINE (bytes "PING" ++ CRLF) []
    = Ok (0, c') /\
    (((0 = -1 \/ 0 = CREDIS_ERR_SEND sample_hs \/
       0 = CREDIS_ERR_TIMEOUT sample_hs) /\
      reply (handle c') = reply cr_new /\
      fd (handle c') = [Incoming (bytes "+PONG" ++ CRLF)]) \/
     (0 = 0 \/ 0 = CREDIS_ERR_PROTOCOL sample_h \/
      0 = CREDIS_ERR_RECV sample_h)).
Proof.
  eexists. split; [vm_compute; reflexivity|].
  eapply (cr_sendfandreceive_return_values sample_h sample_hs
            (connected [Accepts 6] [Incoming (bytes "+PONG" ++ CRLF)])
            _ CR_INLINE (bytes "PING" ++ CRLF) [] 0).
  vm_compute. reflexivity.
Defined.

(** ** Commands on lists, counters and expiry *)

Section more_commands.
Variable h : credis_h.
Variable hs : credis_h_send.

(** X24.  [credis_lpop] and [credis_rpop].  [cr_pop] asks for [LPOP key]
    for the first and for [RPOP key] for the second: when the request goes
    out and the reply is a bulk reply with [payload], the function returns
    [0] and [*val] is left pointing to the zero-terminated [payload]; and
    when the request goes out and no reply follows, the function returns
    [CREDIS_ERR_RECV] and the buffer it sent from holds the text of its
    request, zero-terminated. *)
Theorem cr_pop_value (c : connection) (key : list ascii) (val : ptr)
    (bs : list ascii) (fd' : list recv_event)
    (text payload rest : list ascii) :
  request_goes_out c (bytes "LPOP " ++ key ++ CRLF) ->
  request_goes_out c (bytes "RPOP " ++ key ++ CRLF) ->
  fd (handle c) = Incoming bs :: fd' ->
  delivered (handle c) bs
  = CR_BULK :: text ++ CR :: LF :: payload ++ CR :: LF :: rest ->
  CR ∉ text ->
  strtol_value text = Z.of_nat (length payload) ->
  Z.of_nat (length payload) <= INT_MAX ->
  ((exists val' c',
      credis_lpop h hs c key val = Ok (0, val', c') /\
      holds_text (handle c') val' payload) /\
   (exists val' c',
      credis_lpop h hs (unanswered c) key val
      = Ok (CREDIS_ERR_RECV h, val', c') /\
      holds_text (handle c') (Some 0) (bytes "LPOP " ++ key ++ CRLF))) /\
  ((exists val' c',
      credis_rpop h hs c key val = Ok (0, val', c') /\
      holds_text (handle c') val' payload) /\
   (exists val' c',
      credis_rpop h hs (unanswered c) key val
      = Ok (CREDIS_ERR_RECV h, val', c') /\
      holds_text (handle c') (Some 0) (bytes "RPOP " ++ key ++ CRLF))).
Proof.
  intros Hleft Hright Hfd Hchunk Hcr Hv Hmax.
  unfold credis_lpop, credis_rpop, cr_pop, bulk_if_zero.
  rewrite !(decide_True (P := 1 = 1)) by done.
  rewrite !(decide_False (P := 0 = 1)) by done.
  split_and!.
  - destruct (bulk_command h hs c (bytes "%s %s" ++ CRLF)
                [ArgStr (bytes "LPOP"); ArgStr key] _ bs fd' text payload
                rest eq_refl Hleft Hfd Hchunk Hcr Hv Hmax) as (c' & -> & Ht).
    cbn. eexists _, c'. split; [reflexivity|]. done.
  - destruct (cr_sendfandreceive_unanswered h hs c CR_BULK
                (bytes "%s %s" ++ CRLF) [ArgStr (bytes "LPOP"); ArgStr key]
                _ eq_refl Hleft) as (c' & -> & Ht & _).
    cbn. eexists _, c'. split; [reflexivity|]. done.
  - destruct (bulk_command h hs c (bytes "%s %s" ++ CRLF)
                [ArgStr (bytes "RPOP"); ArgStr key] _ bs fd' text payload
                rest eq_refl Hright Hfd Hchunk Hcr Hv Hmax) as (c' & -> & Ht).
    cbn. eexists _, c'. split; [reflexivity|]. done.
  - destruct (cr_sendfandreceive_unanswered h hs c CR_BULK
                (bytes "%s %s" ++ CRLF) [ArgStr (bytes "RPOP"); ArgStr key]
                _ eq_refl Hright) as (c' & -> & Ht & _).
    cbn. eexists _, c'. split; [reflexivity|]. done.
Qed.

(** X25.  [credis_lrange]: when the request [LRANGE key start end] goes
    out and the reply, a count line for [K] entries and [K] well-formed
    bulk replies, arrives as one chunk that fits the buffer, with [K] at
    most the size of the array of the handle, the function returns [K]
    and [*valv] is left pointing to an array whose first [K] entries are,
    in the order of the wire, [NULL] for a reply of length [-1] and a
    pointer to the zero-terminated payload otherwise. *)
Theorem credis_lrange_result (c : connection) (key : list ascii)
    (start end_ : Z) (valv : list ptr) (count : list ascii)
    (es : list wire_bulk) (fd' : list recv_event) :
  let rhnd := handle c in
  let bs := CR_MULTIBULK :: count ++ CR :: LF :: concat (on_wire <$> es) in
  let mb := reply_multibulk (reply rhnd) in
  request_goes_out c
    (bytes "LRANGE " ++ key ++ bytes " " ++ itoa start ++ bytes " " ++
     itoa end_ ++ CRLF) ->
  fd rhnd = Incoming bs :: fd' ->
  Z.of_nat (length bs) <= buf_size (buf rhnd) ->
  CR ∉ count -> strtol_value count = Z.of_nat (length es) ->
  Forall wire_bulk_ok es ->
  Z.of_nat (length es) <= mb_size mb ->
  mb_size mb <= Z.of_nat (length (mb_bulks mb)) -> mb_size mb <= INT_MAX ->
  exists valv' c',
    credis_lrange h hs c key start end_ valv
    = Ok (Z.of_nat (length es), valv', c') /\
    forall (j : nat) (e : wire_bulk),
      es !! j = Some e ->
      exists q,
        valv' !! j = Some q /\
        match wb_payload e with
        | None => q = None
        | Some p => holds_text (handle c') q p
        end.
Proof.
  intros rhnd bs mb Hout Hfd Hbs Hcr Hv Hes H1 H2 H3.
  unfold credis_lrange, multibulk_if_zero.
  destruct (multibulk_command h hs c (bytes "LRANGE %s %d %d" ++ CRLF)
              [ArgStr key; ArgInt start; ArgInt end_] _
              count es fd' eq_refl Hout Hfd Hbs Hcr Hv Hes H1 H2 H3)
    as (c' & -> & Hlen & Hentries).
  cbn. rewrite Hlen. eexists _, c'. split; [reflexivity|]. done.
Qed.

(** X26.  [credis_lpush] and [credis_rpush].  [cr_push] asks for
    [LPUSH key val] for the first and for [RPUSH key val] for the second:
    when the request goes out and the reply is the integer line [:text],
    the function returns the number [text] denotes; and when the request
    goes out and no reply follows, the buffer the function sent from holds
    the text of its request, zero-terminated. *)
Theorem cr_push_result (c : connection) (key val : list ascii)
    (bs : list ascii) (fd' : list recv_event) (text : list ascii) :
  request_goes_out c (bytes "LPUSH " ++ key ++ bytes " " ++ val ++ CRLF) ->
  request_goes_out c (bytes "RPUSH " ++ key ++ bytes " " ++ val ++ CRLF) ->
  fd (handle c) = Incoming bs :: fd' ->
  first_line (delivered (handle c) bs) = Some (CR_INT :: text) ->
  INT_MIN <= strtol_value text <= INT_MAX ->
  ((exists c', credis_lpush h hs c key val = Ok (strtol_value text, c')) /\
   (exists rc c',
      credis_lpush h hs (unanswered c) key val = Ok (rc, c') /\
      holds_text (handle c') (Some 0)
        (bytes "LPUSH " ++ key ++ bytes " " ++ val ++ CRLF))) /\
  ((exists c', credis_rpush h hs c key val = Ok (strtol_value text, c')) /\
   (exists rc c',
      credis_rpush h hs (unanswered c) key val = Ok (rc, c') /\
      holds_text (handle c') (Some 0)
        (bytes "RPUSH " ++ key ++ bytes " " ++ val ++ CRLF))).
Proof.
  intros Hleft Hright Hfd Hl Hv.
  unfold credis_lpush, credis_rpush, cr_push, integer_if_zero.
  rewrite !(decide_True (P := 1 = 1)) by done.
  rewrite !(decide_False (P := 0 = 1)) by done.
  split_and!.
  - destruct (integer_command h hs c (bytes "%s %s %s" ++ CRLF)
                [ArgStr (bytes "LPUSH"); ArgStr key; ArgStr val] _ bs fd'
                text eq_refl Hleft Hfd Hl Hv) as (c' & -> & Hn).
    cbn. rewrite Hn. rewrite (decide_True (P := 0 = 0)) by done.
    by exists c'.
  - destruct (cr_sendfandreceive_unanswered h hs c CR_INT
                (bytes "%s %s %s" ++ CRLF)
                [ArgStr (bytes "LPUSH"); ArgStr key; ArgStr val] _ eq_refl
                Hleft) as (c' & -> & Ht & _).
    cbn. destruct (decide _); eexists _, c'; (split; [reflexivity|done]).
  - destruct (integer_command h hs c (bytes "%s %s %s" ++ CRLF)
                [ArgStr (bytes "RPUSH"); ArgStr key; ArgStr val] _ bs fd'
                text eq_refl Hright Hfd Hl Hv) as (c' & -> & Hn).
    cbn. rewrite Hn. rewrite (decide_True (P := 0 = 0)) by done.
    by exists c'.
  - destruct (cr_sendfandreceive_unanswered h hs c CR_INT
                (bytes "%s %s %s" ++ CRLF)
                [ArgStr (bytes "RPUSH"); ArgStr key; ArgStr val] _ eq_refl
                Hright) as (c' & -> & Ht & _).
    cbn. destruct (decide _); eexists _, c'; (split; [reflexivity|done]).
Qed.

(** X27.  [credis_expire]: when the request [EXPIRE key secs] goes out
    and the reply is the integer line [:text], the function returns [-1]
    if the number is [0] and [0] otherwise. *)
Theorem credis_expire_result (c : connection) (key : list ascii) (secs : Z)
    (bs : list ascii) (fd' : list recv_event) (text : list ascii) :
  request_goes_out c
    (bytes "EXPIRE " ++ key ++ bytes " " ++ itoa secs ++ CRLF) ->
  fd (handle c) = Incoming bs :: fd' ->
  first_line (delivered (handle c) bs) = Some (CR_INT :: text) ->
  INT_MIN <= strtol_value text <= INT_MAX ->
  exists c',
    credis_expire h hs c key secs
    = Ok (if decide (strtol_value text = 0) then -1 else 0, c').
Proof.
  intros Hout Hfd Hl Hv. unfold credis_expire, minus_one_if_zero.
  destruct (integer_command h hs c (bytes "EXPIRE %s %d" ++ CRLF)
              [ArgStr key; ArgInt secs] _ bs fd' text eq_refl Hout Hfd Hl Hv)
    as (c' & -> & Hn).
  cbn. rewrite Hn. exists c'. rewrite (decide_True (P := 0 = 0)) by done.
  by destruct (decide _).
Qed.

(** X28.  [credis_incr] and [credis_decr].  [cr_incr] asks for
    [INCR key] for the first and for [DECR key] for the second: when the
    request goes out and the reply is the integer line [:text], the
    function returns [0] and [*new_val] is the number [text] denotes, a
    [NULL] [new_val] being left alone; and when the request goes out and
    no reply follows, the function returns [CREDIS_ERR_RECV] and the
    buffer it sent from holds the text of its request, zero-terminated. *)
Theorem cr_incr_new_value (c : connection) (key : list ascii)
    (new_val : option Z) (bs : list ascii) (fd' : list recv_event)
    (text : list ascii) :
  request_goes_out c (bytes "INCR " ++ key ++ CRLF) ->
  request_goes_out c (bytes "DECR " ++ key ++ CRLF) ->
  fd (handle c) = Incoming bs :: fd' ->
  first_line (delivered (handle c) bs) = Some (CR_INT :: text) ->
  INT_MIN <= strtol_value text <= INT_MAX ->
  let new_val' :=
    match new_val with
    | Some _ => Some (strtol_value text)
    | None => None
    end in
  ((exists c', credis_incr h hs c key new_val = Ok (0, new_val', c')) /\
   (exists new_val'' c',
      credis_incr h hs (unanswered c) key new_val
      = Ok (CREDIS_ERR_RECV h, new_val'', c') /\
      holds_text (handle c') (Some 0) (bytes "INCR " ++ key ++ CRLF))) /\
  ((exists c', credis_decr h hs c key new_val = Ok (0, new_val', c')) /\
   (exists new_val'' c',
      credis_decr h hs (unanswered c) key new_val
      = Ok (CREDIS_ERR_RECV h, new_val'', c') /\
      holds_text (handle c') (Some 0) (bytes "DECR " ++ key ++ CRLF))).
Proof.
  intros Hincr Hdecr Hfd Hl Hv new_val'. subst new_val'.
  unfold credis_incr, credis_decr, cr_incr.
  rewrite !(decide_True (P := 1 = 1 \/ 0 = 1)) by (by left).
  rewrite !(decide_True (P := 0 = 1 \/ 1 = 1)) by (by right).
  rewrite !(decide_True (P := 1 > 0)) by lia.
  rewrite !(decide_False (P := 0 > 0)) by lia.
  split_and!.
  - destruct (integer_command h hs c (bytes "%s %s" ++ CRLF)
                [ArgStr (bytes "INCR"); ArgStr key] _ bs fd' text eq_refl
                Hincr Hfd Hl Hv) as (c' & -> & Hn).
    exists c'. destruct new_val; cbn; [|done].
    by rewrite Hn, (decide_True (P := 0 = 0)) by done.
  - destruct (cr_sendfandreceive_unanswered h hs c CR_INT
                (bytes "%s %s" ++ CRLF) [ArgStr (bytes "INCR"); ArgStr key]
                _ eq_refl Hincr) as (c' & -> & Ht & _).
    cbn. eexists _, c'. split; [reflexivity|]. done.
  - destruct (integer_command h hs c (bytes "%s %s" ++ CRLF)
                [ArgStr (bytes "DECR"); ArgStr key] _ bs fd' text eq_refl
                Hdecr Hfd Hl Hv) as (c' & -> & Hn).
    exists c'. destruct new_val; cbn; [|done].
    by rewrite Hn, (decide_True (P := 0 = 0)) by done.
  - destruct (cr_sendfandreceive_unanswered h hs c CR_INT
                (bytes "%s %s" ++ CRLF) [ArgStr (bytes "DECR"); ArgStr key]
                _ eq_refl Hdecr) as (c' & -> & Ht & _).
    cbn. eexists _, c'. split; [reflexivity|]. done.
Qed.

End more_commands.

Lemma cr_pop_value_witness :
  let c := connected [Accepts 8]
             [Incoming (bytes "$3" ++ CRLF ++ bytes "foo" ++ CRLF)] in
  ((exists val' c',
      credis_lpop sample_h sample_hs c (bytes "k") None = Ok (0, val', c') /\
      holds_text (handle c') val' (bytes "foo")) /\
   (exists val' c',
      credis_lpop sample_h sample_hs (unanswered c) (bytes "k") None
      = Ok (CREDIS_ERR_RECV sample_h, val', c') /\
      holds_text (handle c') (Some 0) (bytes "LPOP k" ++ CRLF))) /\
  ((exists val' c',
      credis_rpop sample_h sample_hs c (bytes "k") None = Ok (0, val', c') /\
      holds_text (handle c') val' (bytes "foo")) /\
   (exists val' c',
      credis_rpop sample_h sample_hs (unanswered c) (bytes "k") None
      = Ok (CREDIS_ERR_RECV sample_h, val', c') /\
      holds_text (handle c') (Some 0) (bytes "RPOP k" ++ CRLF))).
Proof.
  intros c.
  apply (cr_pop_value sample_h sample_hs c (bytes "k") None
           (bytes "$3" ++ CRLF ++ bytes "foo" ++ CRLF) []
           (bytes "3") (bytes "foo") []).
  - goes_out 8%nat.
  - goes_out 8%nat.
  - reflexivity.
  - vm_compute. reflexivity.
  - no_cr.
  - reflexivity.
  - vm_compute. discriminate.
Defined.

Lemma credis_lrange_result_witness :
  exists valv' c',
    credis_lrange sample_h sample_hs
      (connected [Accepts 16]
         [Incoming (CR_MULTIBULK :: bytes "2" ++ CR :: LF ::
                    concat (on_wire <$>
                              [Wire_bulk (bytes "3") (Some (bytes "foo"));
                               Wire_bulk (bytes "-1") None]))])
      (bytes "k") 0 (-1) []
    = Ok (2, valv', c') /\
    forall (j : nat) (e : wire_bulk),
      [Wire_bulk (bytes "3") (Some (bytes "foo"));
       Wire_bulk (bytes "-1") None] !! j = Some e ->
      exists q,
        valv' !! j = Some q /\
        match wb_payload e with
        | None => q = None
        | Some p => holds_text (handle c') q p
        end.
Proof.
  apply (credis_lrange_result sample_h sample_hs
           (connected [Accepts 16]
              [Incoming (CR_MULTIBULK :: bytes "2" ++ CR :: LF ::
                         concat (on_wire <$>
                                   [Wire_bulk (bytes "3") (Some (bytes "foo"));
                                    Wire_bulk (bytes "-1") None]))])
           (bytes "k") 0 (-1) [] (bytes "2")
           [Wire_bulk (bytes "3") (Some (bytes "foo"));
            Wire_bulk (bytes "-1") None] []).
  - goes_out 16%nat.
  - reflexivity.
  - vm_compute. discriminate.
  - no_cr.
  - reflexivity.
  - repeat constructor; try no_cr; vm_compute; done.
  - vm_compute. discriminate.
  - vm_compute. discriminate.
  - vm_compute. discriminate.
Defined.

Lemma cr_push_result_witness :
  let c := connected [Accepts 11] [Incoming (bytes ":1" ++ CRLF)] in
  ((exists c',
      credis_lpush sample_h sample_hs c (bytes "k") (bytes "v")
      = Ok (1, c')) /\
   (exists rc c',
      credis_lpush sample_h sample_hs (unanswered c) (bytes "k") (bytes "v")
      = Ok (rc, c') /\
      holds_text (handle c') (Some 0) (bytes "LPUSH k v" ++ CRLF))) /\
  ((exists c',
      credis_rpush sample_h sample_hs c (bytes "k") (bytes "v")
      = Ok (1, c')) /\
   (exists rc c',
      credis_rpush sample_h sample_hs (unanswered c) (bytes "k") (bytes "v")
      = Ok (rc, c') /\
      holds_text (handle c') (Some 0) (bytes "RPUSH k v" ++ CRLF))).
Proof.
  intros c.
  apply (cr_push_result sample_h sample_hs c (bytes "k") (bytes "v")
           (bytes ":1" ++ CRLF) [] (bytes "1")).
  - goes_out 11%nat.
  - goes_out 11%nat.
  - reflexivity.
  - vm_compute. reflexivity.
  - vm_compute. split; discriminate.
Defined.

Lemma credis_expire_result_witness :
  exists c',
    credis_expire sample_h sample_hs
      (connected [Accepts 13] [Incoming (bytes ":1" ++ CRLF)]) (bytes "k") 60
    = Ok (0, c').
Proof.
  apply (credis_expire_result sample_h sample_hs
           (connected [Accepts 13] [Incoming (bytes ":1" ++ CRLF)])
           (bytes "k") 60 (bytes ":1" ++ CRLF) [] (bytes "1")).
  - goes_out 13%nat.
  - reflexivity.
  - vm_compute. reflexivity.
  - vm_compute. split; discriminate.
Defined.

Lemma cr_incr_new_value_witness :
  let c := connected [Accepts 8] [Incoming (bytes ":7" ++ CRLF)] in
  ((exists c',
      credis_incr sample_h sample_hs c (bytes "k") (Some 0)
      = Ok (0, Some 7, c')) /\
   (exists new_val'' c',
      credis_incr sample_h sample_hs (unanswered c) (bytes "k") (Some 0)
      = Ok (CREDIS_ERR_RECV sample_h, new_val'', c') /\
      holds_text (handle c') (Some 0) (bytes "INCR k" ++ CRLF))) /\
  ((exists c',
      credis_decr sample_h sample_hs c (bytes "k") (Some 0)
      = Ok (0, Some 7, c')) /\
   (exists new_val'' c',
      credis_decr sample_h sample_hs (unanswered c) (bytes "k") (Some 0)
      = Ok (CREDIS_ERR_RECV sample_h, new_val'', c') /\
      holds_text (handle c') (Some 0) (bytes "DECR k" ++ CRLF))).
Proof.
  intros c.
  apply (cr_incr_new_value sample_h sample_hs c (bytes "k") (Some 0)
           (bytes ":7" ++ CRLF) [] (bytes "7")).
  - goes_out 8%nat.
  - goes_out 8%nat.
  - reflexivity.
  - vm_compute. reflexivity.
  - vm_compute. split; discriminate.
Defined.
